(** * Inertial-Sensor-Analytics: the load / trim / integrate / aggregate pipeline

    A shallow embedding of [basic_analysis.py] and [advanced_analysis.py].

    Numbers.  The scripts compute on IEEE doubles.  A finite double is a
    rational, so sensor readings are modelled as rationals [Q] (no NaN and
    no infinity in the input sheets); equality of computed values is [Qeq].
    Comparisons of doubles are comparisons of their values.  Where the code
    decides by a threshold, in the trim, the two bounds are rounded to the
    nearest double as the addition and the subtraction of the code round
    them ([fl]).  The formulas of the interpolation, of the integration and
    of the statistics are read exactly, without the rounding of each
    operation.  The one place where the scripts produce NaN from NaN-free
    input, the statistics of [process_and_plot], has an explicit [NaN]
    value ([cell]).

    Library calls.  [np.interp], [scipy.integrate.cumulative_trapezoid],
    [Series.mean], [Series.std], [DataFrame.groupby(...).mean()] are
    embedded from the algorithms these libraries run; each definition names
    the routine it follows.  Spreadsheet reading, plotting and styling are
    sinks and sources: a workbook is the pair of its two sheets, and a saved
    figure is an event of the trace. *)

From Stdlib Require Import QArith Qabs Qminmax Lqa Sorted Ascii String.
From stdpp Require Import base list strings gmap.

Local Open Scope Q_scope.
Local Open Scope string_scope.

(** ** Exceptions, results and the trace of visible effects *)

Inductive exn : Type :=
| IndexError      (* [][0] *)
| KeyError        (* df[c] with no column c *)
| ValueError      (* numpy / scipy argument checks *)
| ReadError.      (* pd.read_excel: unreadable file or missing sheet *)

Inductive result (A : Type) : Type :=
| Ok (a : A)
| Raise (e : exn).
Arguments Ok {A} a.
Arguments Raise {A} e.

Definition rbind {A B} (r : result A) (k : A -> result B) : result B :=
  match r with
  | Ok a => k a
  | Raise e => Raise e
  end.

Declare Scope result_scope.
Delimit Scope result_scope with res.
Notation "x <- r ;; k" := (rbind r (fun x => k))
  (at level 100, r at next level, right associativity) : result_scope.

(** What a run shows to the outside: printed lines and saved figures. *)
Inductive event : Type :=
| Printed (msg : string)
| SaveFig (file : string)
| SaveReport (file : string).

(** A computation that may raise and that appends to the trace.  The trace
    written before an exception stays written. *)
Definition M (A : Type) : Type := list event -> result A * list event.

Definition ret {A} (a : A) : M A := fun tr => (Ok a, tr).
Definition raise {A} (e : exn) : M A := fun tr => (Raise e, tr).
Definition emit (ev : event) : M unit := fun tr => (Ok tt, (tr ++ [ev])%list).
Definition lift {A} (r : result A) : M A := fun tr => (r, tr).
Definition bind {A B} (m : M A) (k : A -> M B) : M B :=
  fun tr =>
    match m tr with
    | (Ok a, tr') => k a tr'
    | (Raise e, tr') => (Raise e, tr')
    end.
(** [try: m  except Exception as e: h e] *)
Definition try_except {A} (m : M A) (h : exn -> M A) : M A :=
  fun tr =>
    match m tr with
    | (Ok a, tr') => (Ok a, tr')
    | (Raise e, tr') => h e tr'
    end.

Declare Scope M_scope.
Delimit Scope M_scope with M.
Notation "x <- m ;; k" := (bind m (fun x => k))
  (at level 100, m at next level, right associativity) : M_scope.
Notation "m ;;; k" := (bind m (fun _ => k))
  (at level 100, right associativity) : M_scope.

(** [for x in xs: body x], stopping at the first exception. *)
Fixpoint for_each {A} (xs : list A) (body : A -> M unit) : M unit :=
  match xs with
  | [] => ret tt
  | x :: rest => bind (body x) (fun _ => for_each rest body)
  end.

(** ** Strings *)

(** Python's [pat in s] on [str]. *)
Fixpoint contains (pat s : string) : bool :=
  String.prefix pat s ||
  match s with
  | EmptyString => false
  | String _ s' => contains pat s'
  end.

Definition is_upper (c : ascii) : bool :=
  (N.leb 65 (N_of_ascii c) && N.leb (N_of_ascii c) 90)%N.
Definition is_lower (c : ascii) : bool :=
  (N.leb 97 (N_of_ascii c) && N.leb (N_of_ascii c) 122)%N.
(** The character class [[a-zA-Z]]. *)
Definition is_alpha (c : ascii) : bool := is_lower c || is_upper c.

Definition lower_char (c : ascii) : ascii :=
  if is_upper c then ascii_of_N (N_of_ascii c + 32) else c.
(** [str.lower()] on ASCII names. *)
Fixpoint lower (s : string) : string :=
  match s with
  | EmptyString => EmptyString
  | String c s' => String (lower_char c) (lower s')
  end.

(** ** Data frames

    A frame is its ordered list of named columns.  Within one sheet the
    names are pairwise distinct ([pd.read_excel] renames duplicates) and the
    columns have one length; [wf_frame] records the second fact. *)

Definition DataFrame : Type := list (string * list Q).

Definition columns (df : DataFrame) : list string := map fst df.

Definition n_rows (df : DataFrame) : nat :=
  match df with
  | [] => 0
  | (_, vs) :: _ => length vs
  end.

Definition wf_frame (df : DataFrame) : Prop :=
  Forall (fun cv => length (snd cv) = n_rows df) df.

(** [[c for c in df.columns if pat in c][0]] *)
Definition first_match (pat : string) (df : DataFrame) : result string :=
  match List.filter (contains pat) (columns df) with
  | c :: _ => Ok c
  | [] => Raise IndexError
  end.

(** [df[c]] *)
Fixpoint get_col (c : string) (df : DataFrame) : result (list Q) :=
  match df with
  | [] => Raise KeyError
  | (c', vs) :: rest => if String.eqb c' c then Ok vs else get_col c rest
  end.

(** [df[c] = vs]: an existing column is overwritten in place, a new one is
    appended on the right. *)
Fixpoint set_col (c : string) (vs : list Q) (df : DataFrame) : DataFrame :=
  match df with
  | [] => [(c, vs)]
  | (c', vs') :: rest =>
      if String.eqb c' c then (c, vs) :: rest else (c', vs') :: set_col c vs rest
  end.

(** [df.rename(columns={old: new}, inplace=True)] *)
Definition rename (old new : string) (df : DataFrame) : DataFrame :=
  map (fun cv => (if String.eqb (fst cv) old then new else fst cv, snd cv)) df.

(** Boolean-mask row selection, [s[mask]] on one column and [df[mask]] on
    the frame. *)
Fixpoint mask_select (mask : list bool) (vs : list Q) : list Q :=
  match mask, vs with
  | b :: m, v :: r => if b then v :: mask_select m r else mask_select m r
  | _, _ => []
  end.

Definition select_rows (mask : list bool) (df : DataFrame) : DataFrame :=
  map (fun cv => (fst cv, mask_select mask (snd cv))) df.

(** [df.empty] *)
Definition empty_frame (df : DataFrame) : bool :=
  match df with
  | [] => true
  | _ => Nat.eqb (n_rows df) 0
  end.

(** ** [np.interp]

    [arr_interp] of numpy's [compiled_base.c] with the default [left] and
    [right] (the first and last sample).  [search] is
    [binary_search_with_guess]: it answers [Below] for -1, [Above] for
    [len], and otherwise the index at which its linear scan
    [for (i = 1; i < len && key >= arr[i]; ++i); return i - 1] stops (the
    bisection it runs on arrays of more than four samples returns the same
    index on increasing arrays). *)

Inductive position : Type :=
| Below
| Above
| At (j : nat).

Fixpoint scan (key : Q) (tail : list Q) (i : nat) : nat :=
  match tail with
  | [] => i
  | a :: rest => if Qle_bool a key then scan key rest (S i) else i
  end.

Definition search (key : Q) (arr : list Q) : position :=
  let len := length arr in
  if negb (Qle_bool key (nth (len - 1) arr 0)) then Above
  else if negb (Qle_bool (nth 0%nat arr 0) key) then Below
  else At (scan key (tl arr) 1 - 1).

Definition interp1 (xp fp : list Q) (x : Q) : Q :=
  let lenxp := length xp in
  let lval := nth 0%nat fp 0 in
  let rval := nth (lenxp - 1) fp 0 in
  if Nat.eqb lenxp 1 then
    if negb (Qle_bool (nth 0%nat xp 0) x) then lval
    else if negb (Qle_bool x (nth 0%nat xp 0)) then rval
    else nth 0%nat fp 0
  else
    match search x xp with
    | Below => lval
    | Above => rval
    | At j =>
        if Nat.eqb j (lenxp - 1) then nth j fp 0
        else if Qeq_bool (nth j xp 0) x then nth j fp 0
        else
          let slope := (nth (S j) fp 0 - nth j fp 0) / (nth (S j) xp 0 - nth j xp 0) in
          slope * (x - nth j xp 0) + nth j fp 0
    end.

Definition interp (x xp fp : list Q) : result (list Q) :=
  if Nat.eqb (length xp) 0 then Raise ValueError
  else if negb (Nat.eqb (length fp) (length xp)) then Raise ValueError
  else Ok (map (interp1 xp fp) x).

(** ** Loading one trial (shared by the two scripts) *)

(** A workbook as [pd.read_excel] sees it: each sheet is there or the read
    raises (missing sheet, unreadable file). *)
Record Workbook : Type := {
  Accelerometer : option DataFrame;
  Gyroscope : option DataFrame
}.

Definition read_excel (sheet : option DataFrame) : result DataFrame :=
  match sheet with
  | Some df => Ok df
  | None => Raise ReadError
  end.

(** The loop [for col in df_gyro.columns: if col != "Time": df_merged[col] = np.interp(...)]. *)
Fixpoint merge_gyro (acc_time gyro_time : list Q) (gyro_cols : DataFrame)
    (df_merged : DataFrame) : result DataFrame :=
  match gyro_cols with
  | [] => Ok df_merged
  | (col, vs) :: rest =>
      if String.eqb col "Time" then merge_gyro acc_time gyro_time rest df_merged
      else
        (ys <- interp acc_time gyro_time vs;;
         merge_gyro acc_time gyro_time rest (set_col col ys df_merged))%res
  end.

(** The body of the [try] of [load_phyphox_xls] up to and including the
    merge (lines 18-31 of advanced_analysis.py, 20-33 of basic_analysis.py). *)
Definition merge_sheets (wb : Workbook) : result DataFrame :=
  (df_acc <- read_excel (Accelerometer wb);;
   df_gyro <- read_excel (Gyroscope wb);;
   acc_t <- first_match "Time" df_acc;;
   gyro_t <- first_match "Time" df_gyro;;
   let df_acc := rename acc_t "Time" df_acc in
   let df_gyro := rename gyro_t "Time" df_gyro in
   acc_time <- get_col "Time" df_acc;;
   gyro_time <- get_col "Time" df_gyro;;
   merge_gyro acc_time gyro_time df_gyro df_acc)%res.

(** ** Double precision

    [fl q] is the double nearest to the rational [q], ties to the even
    significand (the rounding of every IEEE operation in its default
    mode): 53 significant bits, the exponent of the last bit not below
    [-1074] (subnormals).  The sum of two doubles [a] and [b] as the
    processor returns it is [fl (a + b)].  A result beyond the largest
    finite double, which the processor turns into an infinity, is not
    modelled. *)

(** The integer nearest to [a / b], ties to the even one. *)
Definition round_half_even (a : Z) (b : positive) : Z :=
  let q := (a / Zpos b)%Z in
  let r := (a mod Zpos b)%Z in
  match (2 * r ?= Zpos b)%Z with
  | Lt => q
  | Gt => (q + 1)%Z
  | Eq => if Z.even q then q else (q + 1)%Z
  end.

(** The integer part of the binary logarithm of [n / d]. *)
Definition floor_log2 (n d : positive) : Z :=
  let k := (Z.log2 (Zpos n) - Z.log2 (Zpos d))%Z in
  if (if (0 <=? k)%Z then (Zpos n <? Zpos d * 2 ^ k)%Z
      else (Zpos n * 2 ^ (- k) <? Zpos d)%Z)
  then (k - 1)%Z else k.

Definition round_pos (n d : positive) : Q :=
  let e := Z.max (floor_log2 n d - 52) (-1074) in
  if (0 <=? e)%Z
  then inject_Z (round_half_even (Zpos n) (d * Z.to_pos (2 ^ e)) * 2 ^ e)
  else Qmake (round_half_even (Zpos n * 2 ^ (- e)) d) (Z.to_pos (2 ^ (- e))).

Definition fl (q : Q) : Q :=
  let r := Qred q in
  match Qnum r with
  | Z0 => 0
  | Zpos n => round_pos n (Qden r)
  | Zneg n => - round_pos n (Qden r)
  end.

(** ** Trimming (shared by the two scripts)

    [t_min = df["Time"].min() + TRIM_SECONDS],
    [t_max = df["Time"].max() - TRIM_SECONDS],
    [df[(df["Time"] >= t_min) & (df["Time"] <= t_max)]].
    The two bounds are doubles: the sum and the difference are rounded.
    The margin is the module constant [TRIM_SECONDS]; it is a parameter
    here.  On an empty column [min] and [max] are NaN and every comparison
    is false. *)

Definition TRIM_SECONDS : Q := 1.

Definition series_min (l : list Q) : option Q :=
  match l with
  | [] => None
  | x :: r => Some (fold_left Qmin r x)
  end.

Definition series_max (l : list Q) : option Q :=
  match l with
  | [] => None
  | x :: r => Some (fold_left Qmax r x)
  end.

Definition trim_mask (trim_seconds : Q) (time : list Q) : list bool :=
  match series_min time, series_max time with
  | Some lo, Some hi =>
      let t_min := fl (lo + trim_seconds) in
      let t_max := fl (hi - trim_seconds) in
      map (fun t => Qle_bool t_min t && Qle_bool t t_max) time
  | _, _ => map (fun _ => false) time
  end.

Definition trim (trim_seconds : Q) (df : DataFrame) : result DataFrame :=
  (time <- get_col "Time" df;;
   Ok (select_rows (trim_mask trim_seconds time) df))%res.

(** ** Column statistics: [Series.mean] and [Series.std]

    [pandas.core.nanops.nanmean] and [nanvar]/[nanstd] with the default
    [ddof = 1] on a NaN-free column: [count = n], [d = count - ddof], and
    when [count <= ddof] both are set to NaN, which makes the result NaN. *)

Inductive cell : Type :=
| NaN
| Num (q : Q).


Definition Qsum (l : list Q) : Q := fold_right Qplus 0 l.

Definition count (l : list Q) : Q := inject_Z (Z.of_nat (length l)).

Definition series_mean (vs : list Q) : cell :=
  match vs with
  | [] => NaN
  | _ => Num (Qsum vs / count vs)
  end.

Definition nanvar (vs : list Q) : cell :=
  if (length vs <=? 1)%nat then NaN
  else
    let avg := Qsum vs / count vs in
    let sqr := map (fun v => (avg - v) * (avg - v)) vs in
    Num (Qsum sqr / (count vs - 1)).

(** ** [scipy.integrate.cumulative_trapezoid(y, x, initial=0)]

    [d = np.diff(x)], [res = np.cumsum(d * (y[1:] + y[:-1]) / 2.0)], then
    [initial] is put in front.  An [x] of another length than [y] raises
    [ValueError], and so does an empty [y] (scipy releases without that
    check return [initial] alone, one value for no timestamp, and the
    [plt.plot] that follows in both analyses raises [ValueError] on the
    two lengths). *)

Fixpoint diff (x : list Q) : list Q :=
  match x with
  | a :: (b :: _) as rest => (b - a) :: diff rest
  | _ => []
  end.

Fixpoint running (acc : Q) (l : list Q) : list Q :=
  match l with
  | [] => []
  | a :: rest => (acc + a) :: running (acc + a) rest
  end.

Definition cumsum (l : list Q) : list Q :=
  match l with
  | [] => []
  | a :: rest => a :: running a rest
  end.

Fixpoint map2 (f : Q -> Q -> Q) (l1 l2 : list Q) : list Q :=
  match l1, l2 with
  | a :: r1, b :: r2 => f a b :: map2 f r1 r2
  | _, _ => []
  end.

(** [d * (y[1:] + y[:-1]) / 2.0] *)
Definition areas (y x : list Q) : list Q :=
  map2 (fun d s => d * s / 2) (diff x) (map2 Qplus (tl y) (removelast y)).

Definition cumulative_trapezoid (y x : list Q) : result (list Q) :=
  if Nat.eqb (length y) 0 then Raise ValueError
  else if negb (Nat.eqb (length (diff x)) (length y - 1)) then Raise ValueError
  else Ok (0 :: cumsum (areas y x)).

(** * basic_analysis.py *)

Module Basic.

(** The line the handler prints is [Error reading {filepath}: {e}].  The
    text of an exception is not part of the model, so the event keeps the
    line up to the path. *)
Definition load_phyphox_xls (filepath : string) (wb : Workbook) : M (option DataFrame) :=
  try_except
    (df_merged <- lift (merge_sheets wb);; ret (Some df_merged))%M
    (fun e => emit (Printed ("Error reading " ++ filepath));;; ret None)%M.

(** The dictionary [stats] of [process_and_plot]: the file name and the
    numeric entries in insertion order. *)
Record StatRecord : Type := {
  Filename : string;
  fields : list (string * cell)
}.

(** [stats[k] = v] *)
Fixpoint dict_set (k : string) (v : cell) (d : list (string * cell)) : list (string * cell) :=
  match d with
  | [] => [(k, v)]
  | (k', v') :: rest =>
      if String.eqb k' k then (k, v) :: rest else (k', v') :: dict_set k v rest
  end.

Fixpoint dict_get (k : string) (d : list (string * cell)) : option cell :=
  match d with
  | [] => None
  | (k', v) :: rest => if String.eqb k' k then Some v else dict_get k rest
  end.

(** The two plotting loops: each looks up the three axes of a sensor and
    saves one figure. *)
Definition plot_triaxial (sensor suffix : string) (df_trim : DataFrame)
    (filename : string) : M unit :=
  (_ <- lift (first_match (sensor ++ " x") df_trim);;
   _ <- lift (first_match (sensor ++ " y") df_trim);;
   _ <- lift (first_match (sensor ++ " z") df_trim);;
   emit (SaveFig (filename ++ suffix)))%M.

Section Stats.

(** [np.sqrt] on the modelled numbers; nothing is assumed about it. *)
Variable sqrt : Q -> Q.

Definition series_std (vs : list Q) : cell :=
  match nanvar vs with
  | NaN => NaN
  | Num v => Num (sqrt v)
  end.

(** The loop [for col in df_trim.columns: if col != "Time": ...]. *)
Fixpoint calc_stats (cols : DataFrame) (stats : list (string * cell)) : list (string * cell) :=
  match cols with
  | [] => stats
  | (col, vs) :: rest =>
      if String.eqb col "Time" then calc_stats rest stats
      else
        calc_stats rest
          (dict_set (col ++ "_Std") (series_std vs)
             (dict_set (col ++ "_Mean") (series_mean vs) stats))
  end.

Definition process_and_plot (df : DataFrame) (filename : string) : M (option StatRecord) :=
  (df_trim <- lift (trim TRIM_SECONDS df);;
   if empty_frame df_trim then ret None
   else
     plot_triaxial "Acceleration" "_Acc.png" df_trim filename;;;
     plot_triaxial "Gyroscope" "_Gyro.png" df_trim filename;;;
     ret (Some {| Filename := filename; fields := calc_stats df_trim [] |}))%M.

End Stats.

(** The report handed to the spreadsheet writer: the header and one row per
    line of [df_final]. *)
Record Report : Type := {
  header : list string;
  rows : list (string * list cell)
}.

(** Column order of [pd.DataFrame(stats_list)]: keys in order of first
    appearance. *)
Fixpoint dedup (l : list string) : list string :=
  match l with
  | [] => []
  | x :: rest => x :: List.filter (fun y => negb (String.eqb x y)) (dedup rest)
  end.

Definition frame_columns (stats_list : list StatRecord) : list string :=
  dedup (concat (map (fun r => map fst (fields r)) stats_list)).

(** A key missing from a record is NaN in the frame. *)
Definition field (r : StatRecord) (c : string) : cell :=
  match dict_get c (fields r) with
  | Some v => v
  | None => NaN
  end.

Definition raw_row (cols : list string) (r : StatRecord) : string * list cell :=
  (Filename r, map (field r) cols).

(** [re.match(r"([a-zA-Z]+)", x)]: the longest run of letters at the start. *)
Fixpoint alpha_prefix (x : string) : string :=
  match x with
  | EmptyString => EmptyString
  | String c rest => if is_alpha c then String c (alpha_prefix rest) else EmptyString
  end.

Definition group_of (x : string) : string :=
  match alpha_prefix x with
  | EmptyString => "Other"
  | g => g
  end.

(** [groupby('Group')] with its default [sort=True]: the distinct keys in
    ascending order of [str] comparison. *)
Fixpoint insert_key (g : string) (keys : list string) : list string :=
  match keys with
  | [] => [g]
  | h :: rest =>
      match String.compare g h with
      | Lt => g :: keys
      | Eq => keys
      | Gt => h :: insert_key g rest
      end
  end.

Definition group_keys (groups : list string) : list string :=
  fold_right insert_key [] groups.

(** [mean(numeric_only=True)] of one column of one group: NaN entries are
    skipped, a column with none left is NaN. *)
Fixpoint numbers (cs : list cell) : list Q :=
  match cs with
  | [] => []
  | NaN :: rest => numbers rest
  | Num q :: rest => q :: numbers rest
  end.

Definition nanmean (cs : list cell) : cell := series_mean (numbers cs).

Definition members (g : string) (stats_list : list StatRecord) : list StatRecord :=
  List.filter (fun r => String.eqb (group_of (Filename r)) g) stats_list.

Definition group_row (cols : list string) (stats_list : list StatRecord) (g : string)
    : string * list cell :=
  (g ++ "_avg", map (fun c => nanmean (map (fun r => field r c) (members g stats_list))) cols).

(** The table [df_final] of [save_formatted_excel]; [None] is the early
    [return] on an empty list. *)
Definition save_formatted_excel (stats_list : list StatRecord) : option Report :=
  match stats_list with
  | [] => None
  | _ =>
      let cols := frame_columns stats_list in
      let df := map (raw_row cols) stats_list in
      let group_means :=
        map (group_row cols stats_list) (group_keys (map (fun r => group_of (Filename r)) stats_list)) in
      Some {| header := "Filename" :: cols; rows := df ++ group_means |}
  end.

Section Main.

Variable sqrt : Q -> Q.

(** The main loop over the listed workbooks.  A workbook is named by its
    stem [fname]; the path the code hands to the loader,
    [os.path.join(DATA_FOLDER, f)], is abbreviated to that stem in the line
    a failed load prints. *)
Fixpoint process_files (files : list (string * Workbook)) (all_stats : list StatRecord)
    : M (list StatRecord) :=
  match files with
  | [] => ret all_stats
  | (fname, wb) :: rest =>
      (df <- load_phyphox_xls fname wb;;
       match df with
       | None => process_files rest all_stats
       | Some df =>
           res <- process_and_plot sqrt df fname;;
           match res with
           | None => process_files rest all_stats
           | Some res =>
               emit (Printed ("Processed: " ++ fname));;;
               process_files rest (all_stats ++ [res])%list
           end
       end)%M
  end.

(** Lines 168-179: the loop, the report, the closing line. *)
Definition main (files : list (string * Workbook)) : M (option Report) :=
  (all_stats <- process_files files [];;
   let report := save_formatted_excel all_stats in
   match report with
   | None => ret tt
   | Some _ =>
       emit (Printed "Saving formatted report to Output_Basic/Basic_Statistics.xlsx...");;;
       emit (SaveReport "Output_Basic/Basic_Statistics.xlsx")
   end;;;
   emit (Printed "Done! Report saved as 'Output_Basic/Basic_Statistics.xlsx'.");;;
   ret report)%M.

End Main.

End Basic.

(** * advanced_analysis.py *)

Module Advanced.

(** Here the loader also trims, and returns the trimmed frame as it is. *)
Definition load_phyphox_xls (filepath : string) (wb : Workbook) : M (option DataFrame) :=
  try_except
    (df_merged <- lift (merge_sheets wb);;
     df_trim <- lift (trim TRIM_SECONDS df_merged);;
     ret (Some df_trim))%M
    (fun e => emit (Printed ("Error loading " ++ filepath));;; ret None)%M.

(** The three series [analyze_drift] hands to the plot. *)
Record DriftCurves : Type := {
  drift_time : list Q;
  vel_raw : list Q;
  vel_corr : list Q
}.

(** [bias.get(col, 0)] *)
Definition bias_get (bias : gmap string Q) (col : string) : Q :=
  default 0 (bias !! col).

Definition drift_curves (df : DataFrame) (bias : gmap string Q) : result DriftCurves :=
  (acc_col <- first_match "Acceleration y" df;;
   time <- get_col "Time" df;;
   acc_raw <- get_col acc_col df;;
   vel_raw <- cumulative_trapezoid acc_raw time;;
   let acc_corr := map (fun a => a - bias_get bias acc_col) acc_raw in
   vel_corr <- cumulative_trapezoid acc_corr time;;
   Ok {| drift_time := time; vel_raw := vel_raw; vel_corr := vel_corr |})%res.

Definition analyze_drift (df : DataFrame) (filename : string) (bias : gmap string Q) : M unit :=
  (_ <- lift (drift_curves df bias);;
   emit (SaveFig (filename ++ "_Drift_Compare.png")))%M.

(** [np.degrees]: multiplication by the double [180.0 / pi]. *)
Definition RAD2DEG : Q := 1007958012753983 # 17592186044416.

Record HeadingCurve : Type := {
  heading_time : list Q;
  angle_rad : list Q;
  angle_deg : list Q
}.

Definition heading_curve (df : DataFrame) (bias : gmap string Q) : result HeadingCurve :=
  (gyro_col <- first_match "Gyroscope z" df;;
   time <- get_col "Time" df;;
   gyro_raw <- get_col gyro_col df;;
   let gyro_corr := map (fun g => g - bias_get bias gyro_col) gyro_raw in
   angle_rad <- cumulative_trapezoid gyro_corr time;;
   Ok {| heading_time := time; angle_rad := angle_rad;
         angle_deg := map (fun a => a * RAD2DEG) angle_rad |})%res.

Definition analyze_heading (df : DataFrame) (filename : string) (bias : gmap string Q) : M unit :=
  (_ <- lift (heading_curve df bias);;
   emit (SaveFig (filename ++ "_Heading.png")))%M.

(** One turn of the main loop (lines 121-135) on a workbook and the stem of
    its file name. *)
Definition process_file (bias : gmap string Q) (file : string * Workbook) : M unit :=
  let name := lower (fst file) in
  if contains "stationary" name then ret tt
  else
    (df <- load_phyphox_xls (fst file) (snd file);;
     match df with
     | None => ret tt
     | Some df =>
         if contains "straight" name || contains "reverse" name then
           analyze_drift df name bias;;;
           emit (Printed ("  > Generated Velocity plot for " ++ name))
         else if contains "lane" name then
           analyze_heading df name bias;;;
           emit (Printed ("  > Generated Heading plot for " ++ name))
         else ret tt
     end)%M.

(** Lines 121-137: the main loop and the closing line, given the bias
    table of the calibration pass ([get_calibration_bias], which is not
    part of the embedding: the properties below take the table as it
    comes). *)
Definition main_loop (bias : gmap string Q) (files : list (string * Workbook)) : M unit :=
  (for_each files (process_file bias);;;
   emit (Printed "Done! Check 'Output_Advanced' folder."))%M.

End Advanced.

(** * The rest of the two scripts *)

(** ** File names: [str.endswith] and [os.path.splitext] *)

(** [s.endswith(suffix)] *)
Fixpoint ends_with (suffix s : string) : bool :=
  String.eqb suffix s ||
  match s with
  | EmptyString => false
  | String _ s' => ends_with suffix s'
  end.

(** [f.endswith(('.xls', '.xlsx'))] *)
Definition is_excel (f : string) : bool := ends_with ".xls" f || ends_with ".xlsx" f.

(** [p[:p.rfind('.')]], when there is a dot. *)
Fixpoint before_last_dot (p : string) : option string :=
  match p with
  | EmptyString => None
  | String c rest =>
      match before_last_dot rest with
      | Some pre => Some (String c pre)
      | None => if Ascii.eqb c "." then Some EmptyString else None
      end
  end.

Fixpoint all_dots (p : string) : bool :=
  match p with
  | EmptyString => true
  | String c rest => Ascii.eqb c "." && all_dots rest
  end.

(** [os.path.splitext(p)[0]] on a name without directory separators
    ([genericpath._splitext]): the name is cut at its last dot unless only
    dots come before it. *)
Definition splitext_root (p : string) : string :=
  match before_last_dot p with
  | Some pre => if all_dots pre then p else pre
  | None => p
  end.

(** The listing both main programs loop over:
    [[f for f in os.listdir(DATA_FOLDER) if f.endswith(('.xls', '.xlsx'))]],
    each workbook under [os.path.splitext(f)[0]]. *)
Definition excel_files (listing : list (string * Workbook)) : list (string * Workbook) :=
  map (fun f => (splitext_root (fst f), snd f))
    (List.filter (fun f => is_excel (fst f)) listing).

(** ** advanced_analysis.py: [get_calibration_bias]

    The table maps a column to [df[col].mean()], which is NaN on a frame
    without rows.  When the stationary workbook does not load, [df] is
    [None] and [df.columns] raises [AttributeError], which leaves the
    function.  The number printed after each column is left out of the
    printed line. *)

Inductive calibration : Type :=
| Bias (bias : gmap string cell)
| AttributeError.

(** The loop [for col in df.columns: if "Time" not in col: ...]. *)
Fixpoint bias_loop (cols : DataFrame) (bias : gmap string cell) : M (gmap string cell) :=
  match cols with
  | [] => ret bias
  | (col, vs) :: rest =>
      if contains "Time" col then bias_loop rest bias
      else
        (emit (Printed ("  > " ++ col ++ " Bias"));;;
         bias_loop rest (<[col := series_mean vs]> bias))%M
  end.

Definition is_stationary_file (f : string) : bool :=
  contains "stationary" (lower f) && is_excel f.

Definition get_calibration_bias (listing : list (string * Workbook)) : M calibration :=
  match List.filter (fun f => is_stationary_file (fst f)) listing with
  | [] =>
      (emit (Printed "WARNING: 'stationary.xls' not found! Using 0 bias (Correction will fail).");;;
       ret (Bias ∅))%M
  | (f, wb) :: _ =>
      (emit (Printed ("Calibrating with: " ++ f ++ "..."));;;
       df <- Advanced.load_phyphox_xls ("Datasets/" ++ f) wb;;
       match df with
       | None => ret AttributeError
       | Some df => bias <- bias_loop df ∅;; ret (Bias bias)
       end)%M
  end.

(** ** basic_analysis.py: the row styles of [save_formatted_excel]

    Lines 134-148: a row of the sheet gets the bold font and the fill of an
    average row when ["_avg" in str(filename_cell.value)]. *)

Definition is_avg_row (row : string * list cell) : bool := contains "_avg" (fst row).

Definition styled_rows (report : Basic.Report) : list bool :=
  map is_avg_row (Basic.rows report).

(** * Specification-side definitions

    What the specification says in its own words, to be compared with the
    code above. *)

(** [I] is the cumulative trapezoidal integral of [v] over [t]:
    [integral[0] = 0] and
    [integral[i] = integral[i-1] + (v[i]+v[i-1])/2 * (t[i]-t[i-1])]. *)
Definition trapezoid_rule (v t I : list Q) : Prop :=
  length I = length v /\
  nth 0%nat I 0 == 0 /\
  forall i : nat, (1 <= i < length v)%nat ->
    nth i I 0
    == nth (i - 1) I 0 + (nth i v 0 + nth (i - 1) v 0) / 2 * (nth i t 0 - nth (i - 1) t 0).

(** [m] is the smallest (largest) timestamp of the series. *)
Definition is_minimum (m : Q) (l : list Q) : Prop :=
  In m l /\ forall t, In t l -> m <= t.
Definition is_maximum (m : Q) (l : list Q) : Prop :=
  In m l /\ forall t, In t l -> t <= m.

Definition Qlt_bool (x y : Q) : bool := negb (Qle_bool y x).

(** The rows the specification removes: those with
    [|t - t_min| < trim_seconds] or [|t - t_max| < trim_seconds]. *)
Definition removed (trim_seconds t_min t_max t : Q) : bool :=
  Qlt_bool (Qabs (t - t_min)) trim_seconds || Qlt_bool (Qabs (t - t_max)) trim_seconds.

(** [q] is a double: rounding it to the nearest double gives [q] back. *)
Definition is_double (q : Q) : Prop := fl q == q.

(** The window of timestamps from [lo] to [hi], both included. *)
Definition in_window (lo hi t : Q) : bool := Qle_bool lo t && Qle_bool t hi.

(** The entries of the column [vs] on the rows whose timestamp satisfies
    [keep], in the order of the rows. *)
Definition rows_where (keep : Q -> bool) (time vs : list Q) : list Q :=
  map snd (List.filter (fun tv => keep (fst tv)) (combine time vs)).

(** Timestamps strictly increasing, sample after sample. *)
Definition strictly_increasing (l : list Q) : Prop :=
  forall i : nat, (S i < length l)%nat -> nth i l 0 < nth (S i) l 0.

(** The straight line through [(x0, f0)] and [(x1, f1)], at [x]. *)
Definition lerp (x0 x1 f0 f1 x : Q) : Q :=
  f0 + (x - x0) * (f1 - f0) / (x1 - x0).

(** A sheet as the input format describes it: columns of one length under
    distinct names, exactly one of which, [t], contains "Time"; [time] is
    that column. *)
Definition well_formed_sheet (df : DataFrame) (t : string) (time : list Q) : Prop :=
  wf_frame df /\ NoDup (columns df) /\
  List.filter (contains "Time") (columns df) = [t] /\
  get_col t df = Ok time.

(** [a < b] on Python strings: comparison character by character. *)
Definition str_lt (a b : string) : Prop := String.compare a b = Lt.

(** Every character of [s] is a letter. *)
Fixpoint all_alpha (s : string) : bool :=
  match s with
  | EmptyString => true
  | String c rest => is_alpha c && all_alpha rest
  end.

(** [s] starts with a letter. *)
Definition head_alpha (s : string) : bool :=
  match s with
  | EmptyString => false
  | String c _ => is_alpha c
  end.

(** The groups of the trials in order of first appearance, as the
    specification orders the average rows. *)
Definition first_appearance (names : list string) : list string :=
  Basic.dedup (map Basic.group_of names).

(** The frame has a column for each of the three axes of a sensor. *)
Definition has_axes (sensor : string) (df : DataFrame) : Prop :=
  (exists c, first_match (sensor ++ " x") df = Ok c) /\
  (exists c, first_match (sensor ++ " y") df = Ok c) /\
  (exists c, first_match (sensor ++ " z") df = Ok c).

(** The sum of the entries of a column. *)
Fixpoint total (vs : list Q) : Q :=
  match vs with
  | [] => 0
  | v :: rest => v + total rest
  end.

(** [m] is the arithmetic mean of the [n >= 1] entries of [vs]:
    [n * m] is their sum. *)
Definition is_mean (m : Q) (vs : list Q) : Prop :=
  vs <> [] /\ m * inject_Z (Z.of_nat (length vs)) == total vs.

(** The sample variance of [n] entries: the squared deviations from the
    mean, summed and divided by [n - 1]. *)
Definition sample_variance (vs : list Q) : Q :=
  let n := inject_Z (Z.of_nat (length vs)) in
  let m := total vs / n in
  total (map (fun v => (v - m) * (v - m)) vs) / (n - 1).

(** The square root of a rational that is the square of a rational (on the
    others, the roots of numerator and denominator rounded down). *)
Definition sqrt_q (q : Q) : Q :=
  let r := Qred q in Qmake (Z.sqrt (Qnum r)) (Pos.sqrt (Qden r)).

(** The bias table has no entry for channel [c], or the entry is 0. *)
Definition zero_bias (bias : gmap string Q) (c : string) : Prop :=
  bias !! c = None \/ exists b, bias !! c = Some b /\ b == 0.

(** [s] has no dot. *)
Fixpoint no_dot (s : string) : bool :=
  match s with
  | EmptyString => true
  | String c rest => negb (Ascii.eqb c ".") && no_dot rest
  end.

(** The names of the figures saved along a trace, in order. *)
Fixpoint figures (tr : list event) : list string :=
  match tr with
  | [] => []
  | SaveFig file :: rest => file :: figures rest
  | _ :: rest => figures rest
  end.

(** The two entries [process_and_plot] writes for a channel. *)
Definition channel_entries (sqrt : Q -> Q) (cv : string * list Q) : list (string * cell) :=
  if String.eqb (fst cv) "Time" then []
  else [(fst cv ++ "_Mean", series_mean (snd cv));
        (fst cv ++ "_Std", Basic.series_std sqrt (snd cv))].

(** One of the three axes of a sensor has no column in the frame. *)
Definition axis_missing (sensor : string) (df : DataFrame) : Prop :=
  List.filter (contains (sensor ++ " x")) (columns df) = [] \/
  List.filter (contains (sensor ++ " y")) (columns df) = [] \/
  List.filter (contains (sensor ++ " z")) (columns df) = [].

(** What makes the read of a workbook fail: a sheet is missing, or a sheet
    has no column whose name contains Time. *)
Definition sheet_missing (wb : Workbook) : Prop :=
  Accelerometer wb = None \/ Gyroscope wb = None.

Definition time_column_missing (wb : Workbook) : Prop :=
  exists df_acc df_gyro, Accelerometer wb = Some df_acc /\ Gyroscope wb = Some df_gyro /\
    (List.filter (contains "Time") (columns df_acc) = [] \/
     List.filter (contains "Time") (columns df_gyro) = []).

(** ** Sample inputs *)

(** A four-second recording with all six channels. *)
Definition good_acc : DataFrame :=
  [("Time (s)", [0; 1; 2; 3]);
   ("Acceleration x (m/s^2)", [0; 0; 0; 0]);
   ("Acceleration y (m/s^2)", [1; 1; 1; 1]);
   ("Acceleration z (m/s^2)", [9; 9; 9; 9])].

Definition good_gyro : DataFrame :=
  [("Time (s)", [0; 1; 2; 3]);
   ("Gyroscope x (rad/s)", [0; 0; 0; 0]);
   ("Gyroscope y (rad/s)", [0; 0; 0; 0]);
   ("Gyroscope z (rad/s)", [1; 2; 3; 4])].

Definition good_wb : Workbook :=
  {| Accelerometer := Some good_acc; Gyroscope := Some good_gyro |}.

(** The same recording without the forward-acceleration channel. *)
Definition no_y_wb : Workbook :=
  {| Accelerometer :=
       Some [("Time (s)", [0; 1; 2; 3]);
             ("Acceleration x (m/s^2)", [0; 0; 0; 0]);
             ("Acceleration z (m/s^2)", [9; 9; 9; 9])];
     Gyroscope := Some good_gyro |}.

(** A recording of one second: shorter than the two trimmed margins. *)
Definition short_wb : Workbook :=
  {| Accelerometer :=
       Some [("Time (s)", [0; 1 # 2; 1]);
             ("Acceleration x (m/s^2)", [0; 0; 0]);
             ("Acceleration y (m/s^2)", [1; 1; 1]);
             ("Acceleration z (m/s^2)", [9; 9; 9])];
     Gyroscope :=
       Some [("Time (s)", [0; 1 # 2; 1]);
             ("Gyroscope x (rad/s)", [0; 0; 0]);
             ("Gyroscope y (rad/s)", [0; 0; 0]);
             ("Gyroscope z (rad/s)", [1; 2; 3])] |}.

(** What is left of [short_wb] after the merge and the trim: every column,
    no row. *)
Definition short_trimmed : DataFrame :=
  [("Time", []);
   ("Acceleration x (m/s^2)", []); ("Acceleration y (m/s^2)", []);
   ("Acceleration z (m/s^2)", []);
   ("Gyroscope x (rad/s)", []); ("Gyroscope y (rad/s)", []);
   ("Gyroscope z (rad/s)", [])].

(** The merged table of [good_wb], and the table after the trim of one
    second at both ends. *)
Definition good_merged : DataFrame :=
  [("Time", [0; 1; 2; 3]);
   ("Acceleration x (m/s^2)", [0; 0; 0; 0]);
   ("Acceleration y (m/s^2)", [1; 1; 1; 1]);
   ("Acceleration z (m/s^2)", [9; 9; 9; 9]);
   ("Gyroscope x (rad/s)", [0; 0; 0; 0]);
   ("Gyroscope y (rad/s)", [0; 0; 0; 0]);
   ("Gyroscope z (rad/s)", [1; 2; 3; 4])].

Definition good_trimmed : DataFrame :=
  [("Time", [1; 2]);
   ("Acceleration x (m/s^2)", [0; 0]);
   ("Acceleration y (m/s^2)", [1; 1]);
   ("Acceleration z (m/s^2)", [9; 9]);
   ("Gyroscope x (rad/s)", [0; 0]);
   ("Gyroscope y (rad/s)", [0; 0]);
   ("Gyroscope z (rad/s)", [2; 3])].

(** A three-second recording: one row is left after the trim. *)
Definition single_merged : DataFrame :=
  [("Time", [0; 1; 2]);
   ("Acceleration x (m/s^2)", [0; 0; 0]);
   ("Acceleration y (m/s^2)", [1; 2; 4]);
   ("Acceleration z (m/s^2)", [9; 9; 9]);
   ("Gyroscope x (rad/s)", [0; 0; 0]);
   ("Gyroscope y (rad/s)", [0; 0; 0]);
   ("Gyroscope z (rad/s)", [1; 2; 3])].

Definition single_trimmed : DataFrame :=
  [("Time", [1]);
   ("Acceleration x (m/s^2)", [0]);
   ("Acceleration y (m/s^2)", [2]);
   ("Acceleration z (m/s^2)", [9]);
   ("Gyroscope x (rad/s)", [0]);
   ("Gyroscope y (rad/s)", [0]);
   ("Gyroscope z (rad/s)", [2])].

(** A five-second recording: three rows are left after the trim. *)
Definition five_merged : DataFrame :=
  [("Time", [0; 1; 2; 3; 4]);
   ("Acceleration x (m/s^2)", [0; 0; 0; 0; 0]);
   ("Acceleration y (m/s^2)", [7; 2; 4; 6; 7]);
   ("Acceleration z (m/s^2)", [9; 9; 9; 9; 9]);
   ("Gyroscope x (rad/s)", [0; 0; 0; 0; 0]);
   ("Gyroscope y (rad/s)", [0; 0; 0; 0; 0]);
   ("Gyroscope z (rad/s)", [1; 2; 3; 4; 5])].

Definition five_trimmed : DataFrame :=
  [("Time", [1; 2; 3]);
   ("Acceleration x (m/s^2)", [0; 0; 0]);
   ("Acceleration y (m/s^2)", [2; 4; 6]);
   ("Acceleration z (m/s^2)", [9; 9; 9]);
   ("Gyroscope x (rad/s)", [0; 0; 0]);
   ("Gyroscope y (rad/s)", [0; 0; 0]);
   ("Gyroscope z (rad/s)", [2; 3; 4])].

(** Three readings one second apart whose timestamps, 0.13, 1.13 and 2.13,
    are the doubles nearest to these decimals. *)
Definition round_time : list Q := [fl (13 # 100); fl (113 # 100); fl (213 # 100)].

Definition round_frame : DataFrame :=
  [("Time", round_time); ("Acceleration y (m/s^2)", [1; 2; 3])].

(** Two sheets that both have a column named X. *)
Definition clash_acc : DataFrame := [("Time (s)", [0; 1]); ("X", [5; 6])].
Definition clash_gyro : DataFrame := [("Time (s)", [0; 1]); ("X", [7; 8])].
Definition clash_wb : Workbook :=
  {| Accelerometer := Some clash_acc; Gyroscope := Some clash_gyro |}.

(** Per-trial records: two groups, the later one first in the alphabet, and
    two members of one group. *)
Definition straight1 : Basic.StatRecord :=
  {| Basic.Filename := "straight1"; Basic.fields := [("Acceleration x_Mean", Num 1)] |}.
Definition bump1 : Basic.StatRecord :=
  {| Basic.Filename := "bump1"; Basic.fields := [("Acceleration x_Mean", Num 2)] |}.
Definition bump2 : Basic.StatRecord :=
  {| Basic.Filename := "bump2"; Basic.fields := [("Acceleration x_Mean", Num 4)] |}.

(** * Properties *)

(** ** Lists of rationals *)

Lemma nth_map2 (f : Q -> Q -> Q) (l1 l2 : list Q) (i : nat) :
  (i < length l1)%nat -> (i < length l2)%nat ->
  nth i (map2 f l1 l2) 0 = f (nth i l1 0) (nth i l2 0).
Proof.
  revert l2 i. induction l1 as [|a r1 IH]; intros [|b r2] [|i] H1 H2;
    simpl in *; try lia; auto.
  apply IH; lia.
Qed.

Lemma length_map2 (f : Q -> Q -> Q) (l1 l2 : list Q) :
  length (map2 f l1 l2) = Nat.min (length l1) (length l2).
Proof.
  revert l2. induction l1 as [|a r1 IH]; intros [|b r2]; simpl; auto.
Qed.

Lemma length_diff (x : list Q) : length (diff x) = (length x - 1)%nat.
Proof.
  induction x as [|a [|b r] IH]; simpl in *; auto. rewrite IH. lia.
Qed.

Lemma nth_diff (x : list Q) (i : nat) :
  (S i < length x)%nat -> nth i (diff x) 0 = nth (S i) x 0 - nth i x 0.
Proof.
  revert i. induction x as [|a [|b r] IH]; intros i H; simpl in H; try lia.
  destruct i as [|i]; [reflexivity|].
  change (nth i (diff (b :: r)) 0 = nth (S i) (b :: r) 0 - nth i (b :: r) 0).
  apply IH. simpl. lia.
Qed.

Lemma nth_removelast (l : list Q) (i : nat) :
  (S i < length l)%nat -> nth i (removelast l) 0 = nth i l 0.
Proof.
  revert i. induction l as [|a [|b r] IH]; intros i H; simpl in H; try lia.
  destruct i as [|i]; [reflexivity|].
  change (nth i (removelast (b :: r)) 0 = nth i (b :: r) 0).
  apply IH. simpl. lia.
Qed.

Lemma length_removelast (l : list Q) : length (removelast l) = (length l - 1)%nat.
Proof.
  induction l as [|a [|b r] IH]; simpl in *; auto. rewrite IH. lia.
Qed.

Lemma length_running (acc : Q) (l : list Q) : length (running acc l) = length l.
Proof. revert acc. induction l; intros; simpl; auto. Qed.

Lemma nth_running (l : list Q) (acc : Q) (i : nat) :
  (i < length l)%nat ->
  nth (S i) (acc :: running acc l) 0 = nth i (acc :: running acc l) 0 + nth i l 0.
Proof.
  revert acc i. induction l as [|a r IH]; intros acc i H; simpl in H; [lia|].
  destruct i as [|i]; [reflexivity|].
  change (nth (S i) ((acc + a) :: running (acc + a) r) 0
          = nth i ((acc + a) :: running (acc + a) r) 0 + nth i r 0).
  apply IH. lia.
Qed.

Lemma length_cumsum (l : list Q) : length (cumsum l) = length l.
Proof. destruct l; simpl; auto using length_running. Qed.

(** Each entry of [0 :: cumsum l] is the previous one plus the next term. *)
Lemma nth_cumsum (l : list Q) (i : nat) :
  (i < length l)%nat ->
  nth (S i) (0 :: cumsum l) 0 == nth i (0 :: cumsum l) 0 + nth i l 0.
Proof.
  intros H. destruct l as [|a r]; simpl in H; [lia|].
  destruct i as [|i].
  - simpl. ring.
  - change (nth (S i) (a :: running a r) 0 == nth i (a :: running a r) 0 + nth i r 0).
    rewrite nth_running by lia. reflexivity.
Qed.

(** ** The cumulative trapezoidal rule *)

Lemma length_areas (y x : list Q) :
  length x = length y -> length (areas y x) = (length y - 1)%nat.
Proof.
  intros H. unfold areas. rewrite !length_map2, length_diff, length_removelast, H.
  destruct y; simpl; lia.
Qed.

Lemma nth_areas (y x : list Q) (i : nat) :
  length x = length y -> (S i < length y)%nat ->
  nth i (areas y x) 0
  = (nth (S i) x 0 - nth i x 0) * (nth (S i) y 0 + nth i y 0) / 2.
Proof.
  intros Hlen Hi. unfold areas.
  assert (Htl : length (tl y) = (length y - 1)%nat) by (destruct y; simpl; lia).
  rewrite nth_map2.
  - rewrite nth_diff by lia. rewrite nth_map2.
    + rewrite nth_removelast by lia.
      replace (nth i (tl y) 0) with (nth (S i) y 0)
        by (destruct y; [simpl in Hi; lia | reflexivity]).
      reflexivity.
    + lia.
    + rewrite length_removelast. lia.
  - rewrite length_diff. lia.
  - rewrite length_map2, length_removelast. lia.
Qed.

Lemma cumulative_trapezoid_ok (y x : list Q) :
  y <> [] -> length x = length y ->
  cumulative_trapezoid y x = Ok (0 :: cumsum (areas y x)).
Proof.
  intros Hy Hlen. unfold cumulative_trapezoid.
  destruct y as [|y0 y']; [congruence|].
  rewrite length_diff, Hlen. simpl length.
  rewrite Nat.eqb_refl. reflexivity.
Qed.

Lemma cumulative_trapezoid_rule (y x : list Q) :
  y <> [] -> length x = length y ->
  exists I, cumulative_trapezoid y x = Ok I /\ trapezoid_rule y x I.
Proof.
  intros Hy Hlen. exists (0 :: cumsum (areas y x)).
  split; [apply cumulative_trapezoid_ok; assumption|].
  split; [|split].
  - simpl. rewrite length_cumsum, length_areas by assumption.
    destruct y; [congruence | simpl; lia].
  - reflexivity.
  - intros i [H1 H2]. destruct i as [|i]; [lia|].
    replace (S i - 1)%nat with i by lia.
    rewrite nth_cumsum by (rewrite length_areas by assumption; lia).
    rewrite nth_areas by (assumption || lia).
    field.
Qed.

(** ** Frames *)

Lemma get_col_In (c : string) (df : DataFrame) (vs : list Q) :
  get_col c df = Ok vs -> In (c, vs) df.
Proof.
  induction df as [|[c' vs'] rest IH]; simpl; [discriminate|].
  destruct (String.eqb c' c) eqn:E.
  - apply String.eqb_eq in E. intros [= ->]. subst. now left.
  - intros H. right. auto.
Qed.

Lemma get_col_length (c : string) (df : DataFrame) (vs : list Q) :
  wf_frame df -> get_col c df = Ok vs -> length vs = n_rows df.
Proof.
  intros Hwf Hget. apply get_col_In in Hget.
  unfold wf_frame in Hwf. rewrite Forall_forall in Hwf.
  apply (Hwf (c, vs)). apply list_elem_of_In. exact Hget.
Qed.

Lemma same_length (df : DataFrame) (c1 c2 : string) (v1 v2 : list Q) :
  wf_frame df -> get_col c1 df = Ok v1 -> get_col c2 df = Ok v2 ->
  length v1 = length v2.
Proof.
  intros Hwf H1 H2.
  rewrite (get_col_length _ _ _ Hwf H1), (get_col_length _ _ _ Hwf H2). reflexivity.
Qed.

Lemma nth_map_sub (v : list Q) (b : Q) (i : nat) :
  (i < length v)%nat -> nth i (map (fun a => a - b) v) 0 = nth i v 0 - b.
Proof.
  intros H. rewrite (nth_indep _ 0 (0 - b)) by (rewrite length_map; exact H).
  apply (map_nth (fun a => a - b)).
Qed.

(** Two integrals of pointwise equal integrands over one time axis agree
    at every sample. *)
Lemma trapezoid_rule_unique (v v' t I I' : list Q) :
  length v' = length v ->
  (forall i, (i < length v)%nat -> nth i v' 0 == nth i v 0) ->
  trapezoid_rule v t I -> trapezoid_rule v' t I' ->
  forall i, (i < length v)%nat -> nth i I' 0 == nth i I 0.
Proof.
  intros Hlen Hv (HlI & H0 & Hrec) (HlI' & H0' & Hrec') i.
  induction i as [|i IH]; intros Hi.
  - rewrite H0, H0'. reflexivity.
  - rewrite (Hrec (S i)) by lia. rewrite (Hrec' (S i)) by lia.
    replace (S i - 1)%nat with i by lia.
    rewrite IH by lia. rewrite (Hv (S i)) by lia. rewrite (Hv i) by lia.
    reflexivity.
Qed.

Lemma first_match_In (pat : string) (df : DataFrame) (c : string) :
  first_match pat df = Ok c -> In c (columns df) /\ contains pat c = true.
Proof.
  unfold first_match.
  destruct (List.filter (contains pat) (columns df)) as [|c' l] eqn:E; [discriminate|].
  intros [= ->]. apply (proj1 (filter_In (contains pat) c (columns df))).
  rewrite E. now left.
Qed.

Lemma In_columns_get_col (c : string) (df : DataFrame) :
  In c (columns df) -> exists v, get_col c df = Ok v.
Proof.
  induction df as [|[c' vs] rest IH]; simpl; [tauto|].
  destruct (String.eqb c' c) eqn:Ec; [eauto|].
  intros [-> | Hin]; [rewrite String.eqb_refl in Ec; discriminate | auto].
Qed.

Lemma first_match_get_col (pat : string) (df : DataFrame) (c : string) :
  first_match pat df = Ok c -> exists v, get_col c df = Ok v.
Proof. intros H. apply In_columns_get_col, (first_match_In pat), H. Qed.

Lemma column_nonempty (df : DataFrame) (time : list Q) (c : string) (v : list Q) :
  wf_frame df -> get_col "Time" df = Ok time -> time <> [] -> get_col c df = Ok v ->
  v <> [] /\ length time = length v.
Proof.
  intros Hwf Htime Hne Hv. pose proof (same_length _ _ _ _ _ Hwf Htime Hv) as Hl.
  split; [|exact Hl]. intros ->. destruct time; [congruence | discriminate].
Qed.

Lemma corrected_rule (v time : list Q) (b : Q) :
  v <> [] -> length time = length v ->
  exists I, cumulative_trapezoid (map (fun a => a - b) v) time = Ok I /\
    trapezoid_rule (map (fun a => a - b) v) time I.
Proof.
  intros Hv Hl. apply cumulative_trapezoid_rule.
  - destruct v; [congruence | discriminate].
  - rewrite length_map. exact Hl.
Qed.

Lemma drift_curves_rule (df : DataFrame) (bias : gmap string Q) (time : list Q)
    (c : string) (v : list Q) :
  wf_frame df -> get_col "Time" df = Ok time -> time <> [] ->
  first_match "Acceleration y" df = Ok c -> get_col c df = Ok v ->
  exists cv, Advanced.drift_curves df bias = Ok cv /\
    Advanced.drift_time cv = time /\
    trapezoid_rule v time (Advanced.vel_raw cv) /\
    trapezoid_rule (map (fun a => a - Advanced.bias_get bias c) v) time
      (Advanced.vel_corr cv).
Proof.
  intros Hwf Htime Hne Hfm Hv.
  destruct (column_nonempty df time c v Hwf Htime Hne Hv) as [Hvne Hl].
  destruct (cumulative_trapezoid_rule v time Hvne Hl) as (I & HI & Hrule).
  destruct (corrected_rule v time (Advanced.bias_get bias c) Hvne Hl) as (I' & HI' & Hrule').
  exists {| Advanced.drift_time := time; Advanced.vel_raw := I; Advanced.vel_corr := I' |}.
  unfold Advanced.drift_curves. rewrite Hfm. simpl. rewrite Htime. simpl.
  rewrite Hv. simpl. rewrite HI. simpl. rewrite HI'. simpl. auto.
Qed.

Lemma heading_curve_rule (df : DataFrame) (bias : gmap string Q) (time : list Q)
    (c : string) (v : list Q) :
  wf_frame df -> get_col "Time" df = Ok time -> time <> [] ->
  first_match "Gyroscope z" df = Ok c -> get_col c df = Ok v ->
  exists h, Advanced.heading_curve df bias = Ok h /\
    Advanced.heading_time h = time /\
    trapezoid_rule (map (fun g => g - Advanced.bias_get bias c) v) time
      (Advanced.angle_rad h).
Proof.
  intros Hwf Htime Hne Hfm Hv.
  destruct (column_nonempty df time c v Hwf Htime Hne Hv) as [Hvne Hl].
  destruct (corrected_rule v time (Advanced.bias_get bias c) Hvne Hl) as (I' & HI' & Hrule').
  exists {| Advanced.heading_time := time; Advanced.angle_rad := I';
            Advanced.angle_deg := map (fun a => a * Advanced.RAD2DEG) I' |}.
  unfold Advanced.heading_curve. rewrite Hfm. simpl. rewrite Htime. simpl.
  rewrite Hv. simpl. rewrite HI'. simpl. auto.
Qed.

(** C5. Cumulative trapezoidal rule: on a trial with a non-empty time axis
    [time], the raw and the corrected velocity of [analyze_drift] and the
    heading of [analyze_heading] (before its conversion to degrees) start
    at 0 and grow at each sample [i >= 1] by
    [(v[i] + v[i-1]) / 2 * (t[i] - t[i-1])], where [v] is the integrated
    channel (with the bias subtracted for the corrected curves). *)
Theorem trapezoid_integrals (df : DataFrame) (bias : gmap string Q) (time : list Q) :
  wf_frame df -> get_col "Time" df = Ok time -> time <> [] ->
  (forall c v, first_match "Acceleration y" df = Ok c -> get_col c df = Ok v ->
     exists cv, Advanced.drift_curves df bias = Ok cv /\
       Advanced.drift_time cv = time /\
       trapezoid_rule v time (Advanced.vel_raw cv) /\
       trapezoid_rule (map (fun a => a - Advanced.bias_get bias c) v) time
         (Advanced.vel_corr cv)) /\
  (forall c v, first_match "Gyroscope z" df = Ok c -> get_col c df = Ok v ->
     exists h, Advanced.heading_curve df bias = Ok h /\
       Advanced.heading_time h = time /\
       trapezoid_rule (map (fun g => g - Advanced.bias_get bias c) v) time
         (Advanced.angle_rad h)).
Proof.
  intros Hwf Htime Hne. split; intros c v Hfm Hv.
  - apply (drift_curves_rule df bias time c v); assumption.
  - apply (heading_curve_rule df bias time c v); assumption.
Qed.

Lemma zero_bias_get (bias : gmap string Q) (c : string) :
  zero_bias bias c -> Advanced.bias_get bias c == 0.
Proof.
  unfold Advanced.bias_get. intros [-> | (b & -> & Hb)]; simpl; [reflexivity | exact Hb].
Qed.

Lemma zero_shift_same_integral (v time I I' : list Q) (b : Q) :
  b == 0 -> trapezoid_rule v time I -> trapezoid_rule (map (fun a => a - b) v) time I' ->
  forall i, (i < length v)%nat -> nth i I' 0 == nth i I 0.
Proof.
  intros Hb Hraw Hcorr.
  apply (trapezoid_rule_unique v (map (fun a => a - b) v) time); try assumption.
  - apply length_map.
  - intros j Hj. rewrite nth_map_sub by exact Hj. rewrite Hb. ring.
Qed.

(** C6. Zero-bias correction is the identity: when the bias table has no
    entry for the integrated channel (as in the empty table) or its entry
    is 0, the corrected velocity of [analyze_drift] equals its raw velocity
    at every sample, and the heading of [analyze_heading] equals the
    cumulative integral of the raw yaw rate at every sample. *)
Theorem zero_bias_identity (df : DataFrame) (bias : gmap string Q) (time : list Q) :
  wf_frame df -> get_col "Time" df = Ok time -> time <> [] ->
  (forall c, first_match "Acceleration y" df = Ok c -> zero_bias bias c ->
     exists cv, Advanced.drift_curves df bias = Ok cv /\
       length (Advanced.vel_corr cv) = length (Advanced.vel_raw cv) /\
       forall i, (i < length time)%nat ->
         nth i (Advanced.vel_corr cv) 0 == nth i (Advanced.vel_raw cv) 0) /\
  (forall c v, first_match "Gyroscope z" df = Ok c -> get_col c df = Ok v ->
     zero_bias bias c ->
     exists h raw, Advanced.heading_curve df bias = Ok h /\
       cumulative_trapezoid v time = Ok raw /\
       length (Advanced.angle_rad h) = length raw /\
       forall i, (i < length time)%nat ->
         nth i (Advanced.angle_rad h) 0 == nth i raw 0).
Proof.
  intros Hwf Htime Hne. split.
  - intros c Hfm Hbias.
    destruct (first_match_get_col _ _ _ Hfm) as [v Hv].
    destruct (drift_curves_rule df bias time c v Hwf Htime Hne Hfm Hv)
      as (cv & Hcv & _ & Hraw & Hcorr).
    exists cv. split; [exact Hcv|].
    pose proof (same_length _ _ _ _ _ Hwf Htime Hv) as Hl.
    split.
    + destruct Hraw as (-> & _). destruct Hcorr as (-> & _). apply length_map.
    + intros i Hi.
      apply (zero_shift_same_integral v time _ _ _ (zero_bias_get _ _ Hbias) Hraw Hcorr).
      lia.
  - intros c v Hfm Hv Hbias.
    destruct (heading_curve_rule df bias time c v Hwf Htime Hne Hfm Hv)
      as (h & Hh & _ & Hcorr).
    destruct (column_nonempty df time c v Hwf Htime Hne Hv) as [Hvne Hl].
    destruct (cumulative_trapezoid_rule v time Hvne Hl) as (raw & Hraw & Hrule).
    exists h, raw. split; [exact Hh|]. split; [exact Hraw|]. split.
    + destruct Hrule as (-> & _). destruct Hcorr as (-> & _). apply length_map.
    + intros i Hi.
      apply (zero_shift_same_integral v time _ _ _ (zero_bias_get _ _ Hbias) Hrule Hcorr).
      lia.
Qed.

(** ** Trimming *)

Lemma Qle_bool_reflect (x y : Q) : reflect (x <= y) (Qle_bool x y).
Proof. apply iff_reflect. symmetry. apply Qle_bool_iff. Qed.

Lemma Qmin_cases (x y : Q) : Qmin x y = x \/ Qmin x y = y.
Proof. unfold Qmin, GenericMinMax.gmin. destruct (x ?= y)%Q; auto. Qed.

Lemma Qmax_cases (x y : Q) : Qmax x y = x \/ Qmax x y = y.
Proof. unfold Qmax, GenericMinMax.gmax. destruct (x ?= y)%Q; auto. Qed.

Lemma fold_min_minimum (r : list Q) (x : Q) : is_minimum (fold_left Qmin r x) (x :: r).
Proof.
  revert x. induction r as [|a r IH]; intros x; simpl fold_left.
  - split; [now left|]. intros t [Ht | []]. subst. apply Qle_refl.
  - destruct (IH (Qmin x a)) as [Hin Hle]. split.
    + destruct Hin as [<- | Hin]; [|right; right; exact Hin].
      destruct (Qmin_cases x a) as [-> | ->]; [left | right; left]; reflexivity.
    + intros t [Ht | [Ht | Ht]]; subst.
      * apply Qle_trans with (Qmin t a); [apply Hle; now left | apply Q.le_min_l].
      * apply Qle_trans with (Qmin x t); [apply Hle; now left | apply Q.le_min_r].
      * apply Hle. right. exact Ht.
Qed.

Lemma fold_max_maximum (r : list Q) (x : Q) : is_maximum (fold_left Qmax r x) (x :: r).
Proof.
  revert x. induction r as [|a r IH]; intros x; simpl fold_left.
  - split; [now left|]. intros t [Ht | []]. subst. apply Qle_refl.
  - destruct (IH (Qmax x a)) as [Hin Hle]. split.
    + destruct Hin as [<- | Hin]; [|right; right; exact Hin].
      destruct (Qmax_cases x a) as [-> | ->]; [left | right; left]; reflexivity.
    + intros t [Ht | [Ht | Ht]]; subst.
      * apply Qle_trans with (Qmax t a); [apply Q.le_max_l | apply Hle; now left].
      * apply Qle_trans with (Qmax x t); [apply Q.le_max_r | apply Hle; now left].
      * apply Hle. right. exact Ht.
Qed.

Lemma series_min_minimum (l : list Q) : l <> [] -> exists m, series_min l = Some m /\ is_minimum m l.
Proof. destruct l as [|x r]; [congruence|]. intros _. eexists. split; [reflexivity | apply fold_min_minimum]. Qed.

Lemma series_max_maximum (l : list Q) : l <> [] -> exists m, series_max l = Some m /\ is_maximum m l.
Proof. destruct l as [|x r]; [congruence|]. intros _. eexists. split; [reflexivity | apply fold_max_maximum]. Qed.

Lemma minimum_unique (l : list Q) (m m' : Q) : is_minimum m l -> is_minimum m' l -> m == m'.
Proof. intros [Hin Hle] [Hin' Hle']. apply Qle_antisym; auto. Qed.

Lemma maximum_unique (l : list Q) (m m' : Q) : is_maximum m l -> is_maximum m' l -> m == m'.
Proof. intros [Hin Hle] [Hin' Hle']. apply Qle_antisym; auto. Qed.

Lemma fl_ext (p q : Q) : p == q -> fl p = fl q.
Proof. intros H. unfold fl. rewrite (Qred_complete p q H). reflexivity. Qed.

Lemma mask_select_all (mask : list bool) (vs : list Q) :
  Forall (fun b => b = true) mask -> length mask = length vs -> mask_select mask vs = vs.
Proof.
  revert vs. induction mask as [|b m IH]; intros [|v r] Hall Hlen; simpl in *;
    try discriminate; auto.
  inversion Hall as [|? ? Hb Hm]; subst. rewrite IH; auto.
Qed.

Lemma length_trim_mask (s : Q) (time : list Q) : length (trim_mask s time) = length time.
Proof.
  unfold trim_mask. destruct (series_min time), (series_max time); apply length_map.
Qed.

Lemma trim_mask_window (s : Q) (time : list Q) (t_min t_max : Q) :
  is_minimum t_min time -> is_maximum t_max time ->
  trim_mask s time = map (in_window (fl (t_min + s)) (fl (t_max - s))) time.
Proof.
  intros Hmin Hmax.
  assert (Hne : time <> []) by (destruct Hmin as [Hin _]; intros ->; destruct Hin).
  destruct (series_min_minimum time Hne) as (lo & Hlo & Hlo_min).
  destruct (series_max_maximum time Hne) as (hi & Hhi & Hhi_max).
  unfold trim_mask. rewrite Hlo, Hhi.
  assert (El : fl (lo + s) = fl (t_min + s)).
  { apply fl_ext. rewrite (minimum_unique time lo t_min Hlo_min Hmin). reflexivity. }
  assert (Eh : fl (hi - s) = fl (t_max - s)).
  { apply fl_ext. rewrite (maximum_unique time hi t_max Hhi_max Hmax). reflexivity. }
  rewrite El, Eh. reflexivity.
Qed.

Lemma mask_select_rows_where (keep : Q -> bool) (time vs : list Q) :
  mask_select (map keep time) vs = rows_where keep time vs.
Proof.
  unfold rows_where. revert vs.
  induction time as [|t time IH]; intros [|v vs]; simpl; try reflexivity.
  destruct (keep t); simpl; rewrite IH; reflexivity.
Qed.

Lemma trim_mask_zero (time : list Q) (t_min t_max : Q) :
  is_minimum t_min time -> is_maximum t_max time -> is_double t_min -> is_double t_max ->
  Forall (fun b => b = true) (trim_mask 0 time).
Proof.
  intros Hmin Hmax Dmin Dmax.
  rewrite (trim_mask_window 0 time t_min t_max Hmin Hmax).
  apply Forall_forall. intros b Hb.
  apply list_elem_of_In, in_map_iff in Hb. destruct Hb as (t & <- & Ht).
  assert (El : fl (t_min + 0) == t_min).
  { rewrite (fl_ext (t_min + 0) t_min) by ring. exact Dmin. }
  assert (Eh : fl (t_max - 0) == t_max).
  { rewrite (fl_ext (t_max - 0) t_max) by ring. exact Dmax. }
  destruct Hmin as [_ Hle]. destruct Hmax as [_ Hge].
  pose proof (Hle t Ht). pose proof (Hge t Ht). unfold in_window.
  destruct (Qle_bool_reflect (fl (t_min + 0)) t), (Qle_bool_reflect t (fl (t_max - 0)));
    simpl; try reflexivity; exfalso; lra.
Qed.

Lemma select_rows_all (mask : list bool) (df : DataFrame) :
  Forall (fun b => b = true) mask ->
  Forall (fun cv => length mask = length (snd cv)) df ->
  select_rows mask df = df.
Proof.
  intros Hall Hlen. unfold select_rows.
  induction Hlen as [|[c vs] rest Hcv _ IH]; simpl; [reflexivity|].
  simpl in Hcv. rewrite mask_select_all by assumption. rewrite IH. reflexivity.
Qed.

Lemma select_rows_where (keep : Q -> bool) (time : list Q) (df : DataFrame) :
  Forall2 (fun cv cv' => fst cv' = fst cv /\ snd cv' = rows_where keep time (snd cv))
    df (select_rows (map keep time) df).
Proof.
  unfold select_rows. induction df as [|[c vs] rest IH]; simpl; constructor; [|exact IH].
  simpl. split; [reflexivity | apply mask_select_rows_where].
Qed.

(** C7, as amended. With [t_min] and [t_max] the smallest and the largest
    timestamp of the series, trimming by [trim_seconds] keeps exactly the
    rows whose timestamp [t] satisfies [t_min + trim_seconds <= t] and
    [t <= t_max - trim_seconds], the sum and the difference rounded to
    doubles as the code computes them: the trimmed table has the columns of
    the table, each with its entries on these rows, in their order.  And
    trimming by 0 gives back the table. *)
Theorem trim_keeps_window (trim_seconds : Q) (df : DataFrame) (time : list Q) (t_min t_max : Q) :
  get_col "Time" df = Ok time -> is_minimum t_min time -> is_maximum t_max time ->
  (exists df_trim, trim trim_seconds df = Ok df_trim /\
     Forall2 (fun cv cv' =>
                fst cv' = fst cv /\
                snd cv' = rows_where (in_window (fl (t_min + trim_seconds))
                                                (fl (t_max - trim_seconds)))
                                     time (snd cv))
       df df_trim) /\
  (wf_frame df -> is_double t_min -> is_double t_max -> trim 0 df = Ok df).
Proof.
  intros Htime Hmin Hmax. split.
  - eexists. split.
    + unfold trim. rewrite Htime. simpl.
      rewrite (trim_mask_window trim_seconds time t_min t_max Hmin Hmax). reflexivity.
    + apply select_rows_where.
  - intros Hwf Dmin Dmax. unfold trim. rewrite Htime. simpl. f_equal.
    apply select_rows_all; [apply (trim_mask_zero time t_min t_max); assumption|].
    rewrite length_trim_mask, (get_col_length _ _ _ Hwf Htime). apply Forall_forall.
    intros cv Hcv. unfold wf_frame in Hwf. rewrite Forall_forall in Hwf.
    symmetry. apply Hwf, Hcv.
Qed.

(** C7, as stated, fails: of three readings at 0.13 s, 1.13 s and 2.13 s
    the middle one is less than one second after the first, so the claim
    removes its row (and with it every row); the code's lower bound,
    0.13 + 1.0 rounded, is the timestamp 1.13 itself, and the row stays. *)
Lemma trim_keeps_row_inside_margin :
  is_minimum (fl (13 # 100)) round_time /\
  is_maximum (fl (213 # 100)) round_time /\
  Forall is_double round_time /\
  map (removed 1 (fl (13 # 100)) (fl (213 # 100))) round_time = [true; true; true] /\
  Qabs (fl (113 # 100) - fl (13 # 100)) < 1 /\
  fl (Qabs (fl (fl (113 # 100) - fl (13 # 100)))) < 1 /\
  trim 1 round_frame
  = Ok [("Time", [fl (113 # 100)]); ("Acceleration y (m/s^2)", [2])] /\
  trim 1 round_frame
  <> Ok (select_rows
           (map (fun t => negb (removed 1 (fl (13 # 100)) (fl (213 # 100)) t)) round_time)
           round_frame).
Proof.
  assert (Hle : forall x y, Qle_bool x y = true -> x <= y) by (intros x y; apply Qle_bool_iff).
  split; [|split; [|split; [|split; [|split; [|split; [|split]]]]]];
    [| | | | | | | intros H; vm_compute in H; discriminate H].
  - split; [now left|]. intros t [<- | [<- | [<- | []]]]; apply Hle; vm_compute; reflexivity.
  - split; [now right; right; left|].
    intros t [<- | [<- | [<- | []]]]; apply Hle; vm_compute; reflexivity.
  - repeat constructor; vm_compute; reflexivity.
  - vm_compute. reflexivity.
  - vm_compute. reflexivity.
  - vm_compute. reflexivity.
  - vm_compute. reflexivity.
Qed.

(** ** Interpolation *)

Lemma increasing_lt (l : list Q) (i j : nat) :
  strictly_increasing l -> (i < j)%nat -> (j < length l)%nat -> nth i l 0 < nth j l 0.
Proof.
  intros Hinc Hij. induction Hij as [|j Hij IH]; intros Hj.
  - apply Hinc. exact Hj.
  - apply Qlt_trans with (nth j l 0); [apply IH; lia | apply Hinc; exact Hj].
Qed.

Lemma increasing_le (l : list Q) (i j : nat) :
  strictly_increasing l -> (i <= j)%nat -> (j < length l)%nat -> nth i l 0 <= nth j l 0.
Proof.
  intros Hinc Hij Hj. destruct (Nat.eq_dec i j) as [-> | Hne].
  - apply Qle_refl.
  - apply Qlt_le_weak, increasing_lt; auto; lia.
Qed.

(** Where the scan stops: on the last sample not above the key. *)
Lemma scan_stops (key : Q) (tail pre : list Q) :
  pre <> [] -> nth (length pre - 1) (pre ++ tail)%list 0 <= key ->
  let j := (scan key tail (length pre) - 1)%nat in
  (j < length (pre ++ tail)%list)%nat /\
  nth j (pre ++ tail)%list 0 <= key /\
  ((S j < length (pre ++ tail)%list)%nat -> key < nth (S j) (pre ++ tail)%list 0).
Proof.
  revert pre. induction tail as [|a rest IH]; intros pre Hne Hle; simpl scan.
  - assert (0 < length pre)%nat by (destruct pre; [congruence | simpl; lia]).
    cbv zeta. rewrite length_app. simpl. split; [lia|]. split; [exact Hle | lia].
  - assert (Hpos : (0 < length pre)%nat) by (destruct pre; [congruence | simpl; lia]).
    destruct (Qle_bool_reflect a key) as [Ha | Ha].
    + specialize (IH (pre ++ [a])%list).
      rewrite <- app_assoc in IH. simpl in IH.
      rewrite length_app in IH. simpl in IH.
      replace (length pre + 1)%nat with (S (length pre)) in IH by lia.
      apply IH.
      * destruct pre; discriminate.
      * replace (S (length pre) - 1)%nat with (length pre) by lia.
        rewrite app_nth2 by lia. rewrite Nat.sub_diag. exact Ha.
    + cbv zeta. rewrite length_app. simpl. split; [lia|]. split; [exact Hle|].
      intros _. replace (S (length pre - 1)) with (length pre) by lia.
      rewrite app_nth2 by lia. rewrite Nat.sub_diag. simpl.
      apply Qnot_le_lt. exact Ha.
Qed.

Lemma search_at (key : Q) (arr : list Q) :
  arr <> [] -> nth 0%nat arr 0 <= key -> key <= nth (length arr - 1) arr 0 ->
  exists j, search key arr = At j /\ (j < length arr)%nat /\
    nth j arr 0 <= key /\ ((S j < length arr)%nat -> key < nth (S j) arr 0).
Proof.
  intros Hne Hlo Hhi. unfold search.
  destruct (Qle_bool_reflect key (nth (length arr - 1) arr 0)); [|contradiction].
  destruct (Qle_bool_reflect (nth 0%nat arr 0) key); [|contradiction].
  simpl. eexists. split; [reflexivity|].
  destruct arr as [|a rest]; [congruence|].
  apply (scan_stops key rest [a]); [discriminate | exact Hlo].
Qed.

Lemma Qeq_bool_reflect (x y : Q) : reflect (x == y) (Qeq_bool x y).
Proof. apply iff_reflect. symmetry. apply Qeq_bool_iff. Qed.

Lemma interp1_between (xp fp : list Q) (x : Q) (k : nat) :
  strictly_increasing xp -> (S k < length xp)%nat ->
  nth k xp 0 <= x -> x <= nth (S k) xp 0 ->
  interp1 xp fp x
  == lerp (nth k xp 0) (nth (S k) xp 0) (nth k fp 0) (nth (S k) fp 0) x.
Proof.
  intros Hinc Hk Hlo Hhi.
  assert (Hstep : nth k xp 0 < nth (S k) xp 0) by (apply Hinc; exact Hk).
  destruct (search_at x xp) as (j & Hs & Hj & Hjle & Hjlt).
  { destruct xp; [simpl in Hk; lia | discriminate]. }
  { apply Qle_trans with (nth k xp 0); [apply increasing_le; auto; lia | exact Hlo]. }
  { apply Qle_trans with (nth (S k) xp 0); [exact Hhi | apply increasing_le; auto; lia]. }
  unfold interp1, lerp. rewrite Hs.
  destruct (Nat.eqb_spec (length xp) 1) as [Hone | _]; [lia|].
  assert (Hcases : j = k \/ (j = S k /\ x == nth (S k) xp 0)).
  { destruct (Nat.lt_trichotomy j k) as [Hlt | [-> | Hgt]]; [exfalso | now left |].
    - pose proof (Hjlt ltac:(lia)) as H1.
      pose proof (increasing_le xp (S j) k Hinc ltac:(lia) ltac:(lia)). lra.
    - destruct (Nat.eq_dec j (S k)) as [-> | Hne].
      + right. split; [reflexivity | lra].
      + exfalso. pose proof (increasing_lt xp (S k) j Hinc ltac:(lia) Hj). lra. }
  destruct Hcases as [-> | [-> Hx]].
  - destruct (Nat.eqb_spec k (length xp - 1)) as [Hlast | _]; [lia|].
    destruct (Qeq_bool_reflect (nth k xp 0) x) as [Heq | _].
    + rewrite <- Heq. field. lra.
    + field. lra.
  - assert (Hval : nth (S k) fp 0
                   == nth k fp 0 + (x - nth k xp 0) * (nth (S k) fp 0 - nth k fp 0)
                                   / (nth (S k) xp 0 - nth k xp 0)).
    { rewrite Hx. field. lra. }
    destruct (Nat.eqb (S k) (length xp - 1)); [exact Hval|].
    destruct (Qeq_bool_reflect (nth (S k) xp 0) x) as [_ | Hneq]; [exact Hval|].
    exfalso. apply Hneq. symmetry. exact Hx.
Qed.

Lemma interp1_left (xp fp : list Q) (x : Q) :
  xp <> [] -> strictly_increasing xp -> x <= nth 0%nat xp 0 ->
  interp1 xp fp x = nth 0%nat fp 0.
Proof.
  intros Hne Hinc Hx.
  assert (Hpos : (0 < length xp)%nat) by (destruct xp; [congruence | simpl; lia]).
  unfold interp1. destruct (Nat.eqb_spec (length xp) 1) as [Hone | Hmany].
  - destruct (Qle_bool_reflect (nth 0%nat xp 0) x) as [H1 | H1]; simpl; [|reflexivity].
    destruct (Qle_bool_reflect x (nth 0%nat xp 0)) as [H2 | H2]; simpl; [reflexivity|].
    contradiction.
  - destruct (Qle_bool_reflect (nth 0%nat xp 0) x) as [H1 | H1].
    + destruct (search_at x xp Hne H1) as (j & Hs & Hj & Hjle & Hjlt).
      { apply Qle_trans with (nth 0%nat xp 0); [exact Hx | apply increasing_le; auto; lia]. }
      rewrite Hs. assert (j = 0%nat) as ->.
      { destruct j as [|j]; [reflexivity | exfalso].
        pose proof (increasing_lt xp 0 (S j) Hinc ltac:(lia) Hj). lra. }
      destruct (Nat.eqb 0 (length xp - 1)); [reflexivity|].
      destruct (Qeq_bool_reflect (nth 0%nat xp 0) x) as [_ | Hneq]; [reflexivity|].
      exfalso. apply Hneq. lra.
    + unfold search.
      destruct (Qle_bool_reflect x (nth (length xp - 1) xp 0)) as [H2 | H2]; simpl.
      * destruct (Qle_bool_reflect (nth 0%nat xp 0) x); [contradiction | reflexivity].
      * exfalso. apply H2.
        apply Qle_trans with (nth 0%nat xp 0); [exact Hx | apply increasing_le; auto; lia].
Qed.

Lemma interp1_right (xp fp : list Q) (x : Q) :
  xp <> [] -> strictly_increasing xp -> nth (length xp - 1) xp 0 <= x ->
  interp1 xp fp x = nth (length xp - 1) fp 0.
Proof.
  intros Hne Hinc Hx.
  assert (Hpos : (0 < length xp)%nat) by (destruct xp; [congruence | simpl; lia]).
  unfold interp1. destruct (Nat.eqb_spec (length xp) 1) as [Hone | Hmany].
  - rewrite Hone in *. simpl in Hx.
    destruct (Qle_bool_reflect (nth 0%nat xp 0) x) as [H1 | H1]; simpl; [|contradiction].
    destruct (Qle_bool_reflect x (nth 0%nat xp 0)); simpl; reflexivity.
  - destruct (Qle_bool_reflect x (nth (length xp - 1) xp 0)) as [H2 | H2].
    + destruct (search_at x xp Hne) as (j & Hs & Hj & Hjle & Hjlt); [|exact H2|].
      { apply Qle_trans with (nth (length xp - 1) xp 0);
          [apply increasing_le; auto; lia | exact Hx]. }
      rewrite Hs. assert (j = (length xp - 1)%nat) as ->.
      { destruct (Nat.eq_dec j (length xp - 1)%nat) as [-> | Hn]; [reflexivity | exfalso].
        pose proof (Hjlt ltac:(lia)) as H3.
        pose proof (increasing_le xp (S j) (length xp - 1)%nat Hinc ltac:(lia) ltac:(lia)).
        lra. }
      rewrite Nat.eqb_refl. reflexivity.
    + unfold search.
      destruct (Qle_bool_reflect x (nth (length xp - 1) xp 0)); [contradiction|].
      reflexivity.
Qed.

(** ** Merging the two sheets *)

Lemma get_col_set_col_eq (c : string) (vs : list Q) (df : DataFrame) :
  get_col c (set_col c vs df) = Ok vs.
Proof.
  induction df as [|[c' vs'] rest IH]; simpl.
  - rewrite String.eqb_refl. reflexivity.
  - destruct (String.eqb c' c) eqn:E; simpl.
    + rewrite String.eqb_refl. reflexivity.
    + rewrite E. exact IH.
Qed.

Lemma get_col_set_col_ne (c c' : string) (vs : list Q) (df : DataFrame) :
  c <> c' -> get_col c' (set_col c vs df) = get_col c' df.
Proof.
  intros Hne. induction df as [|[c0 vs0] rest IH]; simpl.
  - apply String.eqb_neq in Hne. rewrite Hne. reflexivity.
  - destruct (String.eqb c0 c) eqn:E; simpl.
    + apply String.eqb_eq in E. subst c0.
      apply String.eqb_neq in Hne. rewrite Hne. reflexivity.
    + destruct (String.eqb c0 c'); [reflexivity | exact IH].
Qed.

Lemma set_col_fresh (c : string) (vs : list Q) (df : DataFrame) :
  ~ In c (columns df) -> set_col c vs df = (df ++ [(c, vs)])%list.
Proof.
  induction df as [|[c' vs'] rest IH]; simpl; intros Hnin; [reflexivity|].
  destruct (String.eqb_spec c' c) as [-> | Hne]; [tauto|].
  rewrite IH by tauto. reflexivity.
Qed.

Lemma interp_ok (x xp fp : list Q) :
  xp <> [] -> length fp = length xp -> interp x xp fp = Ok (map (interp1 xp fp) x).
Proof.
  intros Hne Hlen. unfold interp. rewrite Hlen, Nat.eqb_refl.
  destruct xp; [congruence | reflexivity].
Qed.

Lemma merge_gyro_ok (acc_time gyro_time : list Q) (gyro_cols df_merged : DataFrame) :
  gyro_time <> [] ->
  Forall (fun cv => length (snd cv) = length gyro_time) gyro_cols ->
  exists m, merge_gyro acc_time gyro_time gyro_cols df_merged = Ok m /\
    (forall c, c = "Time" \/ ~ In c (columns gyro_cols) -> get_col c m = get_col c df_merged) /\
    (NoDup (columns gyro_cols) -> forall c fp, In (c, fp) gyro_cols -> c <> "Time" ->
       get_col c m = Ok (map (interp1 gyro_time fp) acc_time)).
Proof.
  intros Hne Hlen. revert df_merged.
  induction Hlen as [|[col vs] rest Hcol _ IH]; intros df_merged; simpl.
  - exists df_merged. split; [reflexivity|]. split; [reflexivity | intros _ c fp []].
  - simpl in Hcol. destruct (String.eqb_spec col "Time") as [-> | Hcne].
    + destruct (IH df_merged) as (m & Hm & Hframe & Hlook). exists m.
      split; [exact Hm|]. split.
      * intros c [-> | Hc]; apply Hframe; [now left | right; tauto].
      * intros Hnd c fp [[= <- <-] | Hin] Hc; [congruence|].
        apply Hlook; auto. now inversion Hnd.
    + rewrite (interp_ok acc_time gyro_time vs Hne Hcol). simpl.
      destruct (IH (set_col col (map (interp1 gyro_time vs) acc_time) df_merged))
        as (m & Hm & Hframe & Hlook).
      exists m. split; [exact Hm|]. split.
      * intros c Hc. rewrite Hframe by tauto. apply get_col_set_col_ne.
        destruct Hc as [-> | Hc]; [exact Hcne | tauto].
      * intros Hnd c fp [[= <- <-] | Hin] Hc.
        -- rewrite Hframe; [apply get_col_set_col_eq|].
           right. inversion Hnd as [|? ? Hnotin _]; subst.
           rewrite list_elem_of_In in Hnotin. exact Hnotin.
        -- apply Hlook; auto. now inversion Hnd.
Qed.

Lemma merge_gyro_appends (acc_time gyro_time : list Q) (gyro_cols df_merged m : DataFrame) :
  merge_gyro acc_time gyro_time gyro_cols df_merged = Ok m ->
  NoDup (columns gyro_cols) ->
  (forall c, In c (columns gyro_cols) -> c <> "Time" -> ~ In c (columns df_merged)) ->
  exists added, m = (df_merged ++ added)%list /\
    columns added = List.filter (fun c => negb (String.eqb c "Time")) (columns gyro_cols).
Proof.
  revert df_merged. induction gyro_cols as [|[col vs] rest IH]; intros df_merged; simpl.
  - intros [= <-] _ _. exists []. rewrite app_nil_r. auto.
  - intros Hm Hnd Hfresh.
    assert (Hnd' : NoDup (columns rest)) by now inversion Hnd.
    assert (Hcol : ~ In col (columns rest)).
    { inversion Hnd as [|? ? Hnotin _]; subst. rewrite list_elem_of_In in Hnotin. exact Hnotin. }
    destruct (String.eqb_spec col "Time") as [-> | Hcne]; simpl.
    + apply IH; auto.
    + destruct (interp acc_time gyro_time vs) as [ys|e]; simpl in Hm; [|discriminate].
      rewrite set_col_fresh in Hm by (apply Hfresh; auto).
      destruct (IH _ Hm Hnd') as (added & -> & Hadded).
      * intros c Hc Hct. unfold columns. rewrite map_app, in_app_iff. simpl.
        intros [Hin | [<- | []]]; [|contradiction].
        revert Hin. apply Hfresh; auto.
      * exists ((col, ys) :: added). rewrite <- app_assoc. simpl. split; [reflexivity|].
        f_equal. exact Hadded.
Qed.

Lemma get_col_rename_time (t : string) (df : DataFrame) :
  List.filter (contains "Time") (columns df) = [t] ->
  get_col "Time" (rename t "Time" df) = get_col t df.
Proof.
  induction df as [|[c vs] rest IH]; simpl; [discriminate|].
  destruct (String.eqb_spec c t) as [-> | Hne].
  - intros _. reflexivity.
  - destruct (contains "Time" c) eqn:Ec.
    + intros [= Hc _]. contradiction.
    + intros Hf. destruct (String.eqb_spec c "Time") as [-> | _]; [discriminate Ec|].
      apply IH, Hf.
Qed.

Lemma only_time_column (t c : string) (l : list string) :
  List.filter (contains "Time") l = [t] -> In c l -> c <> t -> contains "Time" c = false.
Proof.
  intros Hf Hin Hne. destruct (contains "Time" c) eqn:E; [|reflexivity].
  assert (Hc : In c (List.filter (contains "Time") l)) by (apply filter_In; auto).
  rewrite Hf in Hc. destruct Hc as [-> | []]. congruence.
Qed.

Lemma In_rename (old new c : string) (vs : list Q) (df : DataFrame) :
  In (c, vs) df -> c <> old -> In (c, vs) (rename old new df).
Proof.
  intros Hin Hne. unfold rename. apply in_map_iff. exists (c, vs). simpl.
  apply String.eqb_neq in Hne. rewrite Hne. auto.
Qed.

Lemma columns_rename (old new : string) (df : DataFrame) :
  columns (rename old new df)
  = map (fun c => if String.eqb c old then new else c) (columns df).
Proof. unfold columns, rename. rewrite !map_map. reflexivity. Qed.

Lemma NoDup_rename_time (t : string) (df : DataFrame) :
  NoDup (columns df) -> List.filter (contains "Time") (columns df) = [t] ->
  NoDup (columns (rename t "Time" df)).
Proof.
  intros Hnd Hf. rewrite columns_rename.
  apply (NoDup_fmap_2_strong (fun c => if String.eqb c t then "Time" else c)); [|exact Hnd].
  intros x y Hx Hy. rewrite list_elem_of_In in Hx, Hy.
  assert (Hnt : forall c, In c (columns df) -> c <> t -> c <> "Time").
  { intros c Hc Hct ->. pose proof (only_time_column _ _ _ Hf Hc Hct). discriminate. }
  destruct (String.eqb_spec x t) as [-> | Hxt], (String.eqb_spec y t) as [-> | Hyt]; auto.
  - intros E. symmetry in E. exfalso. revert E. apply Hnt; auto.
  - intros E. exfalso. revert E. apply Hnt; auto.
Qed.

Lemma first_match_time (df : DataFrame) (t : string) :
  List.filter (contains "Time") (columns df) = [t] -> first_match "Time" df = Ok t.
Proof. intros H. unfold first_match. rewrite H. reflexivity. Qed.

Lemma merge_sheets_unfold (wb : Workbook) (df_acc df_gyro : DataFrame)
    (acc_t gyro_t : string) (acc_time gyro_time : list Q) :
  Accelerometer wb = Some df_acc -> Gyroscope wb = Some df_gyro ->
  well_formed_sheet df_acc acc_t acc_time -> well_formed_sheet df_gyro gyro_t gyro_time ->
  merge_sheets wb
  = merge_gyro acc_time gyro_time (rename gyro_t "Time" df_gyro) (rename acc_t "Time" df_acc).
Proof.
  intros Ha Hg (_ & _ & Hfa & Hta) (_ & _ & Hfg & Htg).
  unfold merge_sheets. rewrite Ha, Hg. simpl.
  rewrite (first_match_time _ _ Hfa). simpl. rewrite (first_match_time _ _ Hfg). simpl.
  rewrite (get_col_rename_time _ _ Hfa), Hta. simpl.
  rewrite (get_col_rename_time _ _ Hfg), Htg. simpl. reflexivity.
Qed.

Lemma renamed_gyro_lengths (df_gyro : DataFrame) (gyro_t : string) (gyro_time : list Q) :
  well_formed_sheet df_gyro gyro_t gyro_time ->
  Forall (fun cv => length (snd cv) = length gyro_time) (rename gyro_t "Time" df_gyro).
Proof.
  intros (Hwf & _ & _ & Ht). rewrite (get_col_length _ _ _ Hwf Ht).
  unfold rename. apply Forall_forall. intros cv Hcv.
  apply list_elem_of_In, in_map_iff in Hcv. destruct Hcv as (cv0 & <- & Hin). simpl.
  unfold wf_frame in Hwf. rewrite Forall_forall in Hwf. apply Hwf, list_elem_of_In, Hin.
Qed.

(** C4. Merging two well-formed sheets, the gyroscope one non-empty and
    with strictly increasing timestamps, gives a table whose time column is
    the accelerometer's time column, and in which every gyroscope channel
    holds at each accelerometer timestamp [x]: the value on the straight
    line through the two neighbouring gyroscope samples when [x] lies
    between them, the first sample when [x] is at or before the first
    gyroscope timestamp, and the last sample when [x] is at or after the
    last one. *)
Theorem merge_interpolates (wb : Workbook) (df_acc df_gyro : DataFrame)
    (acc_t gyro_t : string) (acc_time gyro_time : list Q) :
  Accelerometer wb = Some df_acc -> Gyroscope wb = Some df_gyro ->
  well_formed_sheet df_acc acc_t acc_time -> well_formed_sheet df_gyro gyro_t gyro_time ->
  strictly_increasing gyro_time -> gyro_time <> [] ->
  exists df_merged, merge_sheets wb = Ok df_merged /\
    get_col "Time" df_merged = Ok acc_time /\
    forall c fp, In (c, fp) df_gyro -> c <> gyro_t ->
      exists ys, get_col c df_merged = Ok ys /\ length ys = length acc_time /\
        forall i, (i < length acc_time)%nat ->
          let x := nth i acc_time 0 in
          (forall k, (S k < length gyro_time)%nat ->
             nth k gyro_time 0 <= x -> x <= nth (S k) gyro_time 0 ->
             nth i ys 0
             == lerp (nth k gyro_time 0) (nth (S k) gyro_time 0) (nth k fp 0) (nth (S k) fp 0) x) /\
          (x <= nth 0%nat gyro_time 0 -> nth i ys 0 = nth 0%nat fp 0) /\
          (nth (length gyro_time - 1) gyro_time 0 <= x ->
             nth i ys 0 = nth (length gyro_time - 1) fp 0).
Proof.
  intros Ha Hg Hwa Hwg Hinc Hne.
  rewrite (merge_sheets_unfold wb df_acc df_gyro acc_t gyro_t acc_time gyro_time) by assumption.
  destruct (merge_gyro_ok acc_time gyro_time (rename gyro_t "Time" df_gyro)
              (rename acc_t "Time" df_acc) Hne (renamed_gyro_lengths _ _ _ Hwg))
    as (m & Hm & Hframe & Hlook).
  exists m. split; [exact Hm|]. split.
  - rewrite Hframe by now left.
    destruct Hwa as (_ & _ & Hfa & Hta). rewrite (get_col_rename_time _ _ Hfa). exact Hta.
  - intros c fp Hin Hc. destruct Hwg as (Hwf & Hnd & Hfg & Htg).
    exists (map (interp1 gyro_time fp) acc_time). split; [|split].
    + apply Hlook.
      * apply NoDup_rename_time; assumption.
      * apply In_rename; assumption.
      * intros ->. assert (Hcol : In "Time" (columns df_gyro)).
        { apply in_map_iff. exists ("Time", fp). auto. }
        pose proof (only_time_column _ _ _ Hfg Hcol Hc). discriminate.
    + apply length_map.
    + intros i Hi x.
      assert (Hy : nth i (map (interp1 gyro_time fp) acc_time) 0 = interp1 gyro_time fp x).
      { rewrite (nth_indep _ 0 (interp1 gyro_time fp 0)) by (rewrite length_map; exact Hi).
        apply (map_nth (interp1 gyro_time fp)). }
      rewrite Hy. split; [|split].
      * intros k Hk Hlo Hhi. apply interp1_between; assumption.
      * intros Hx. apply interp1_left; assumption.
      * intros Hx. apply interp1_right; assumption.
Qed.

Lemma NoDup_get_col (c : string) (vs : list Q) (df : DataFrame) :
  NoDup (columns df) -> In (c, vs) df -> get_col c df = Ok vs.
Proof.
  induction df as [|[c' vs'] rest IH]; simpl; intros Hnd Hin; [destruct Hin|].
  inversion Hnd as [|? ? Hnotin Hnd']; subst. rewrite list_elem_of_In in Hnotin.
  destruct Hin as [[= -> ->] | Hin].
  - rewrite String.eqb_refl. reflexivity.
  - destruct (String.eqb_spec c' c) as [-> | _]; [|auto].
    exfalso. apply Hnotin. apply in_map_iff. exists (c, vs). auto.
Qed.

Lemma get_col_app (c : string) (vs : list Q) (df more : DataFrame) :
  get_col c df = Ok vs -> get_col c (df ++ more)%list = Ok vs.
Proof.
  induction df as [|[c' vs'] rest IH]; simpl; [discriminate|].
  destruct (String.eqb c' c); auto.
Qed.

Lemma filter_renamed (t : string) (l : list string) :
  (forall c, In c l -> c <> t -> c <> "Time") ->
  List.filter (fun c => negb (String.eqb c "Time"))
    (map (fun c => if String.eqb c t then "Time" else c) l)
  = List.filter (fun c => negb (String.eqb c t)) l.
Proof.
  induction l as [|c l IH]; simpl; intros Hnt; [reflexivity|].
  rewrite IH by (intros; apply Hnt; auto).
  destruct (String.eqb_spec c t) as [-> | Hct]; simpl; [reflexivity|].
  destruct (String.eqb_spec c "Time") as [Hc | _]; simpl; [|reflexivity].
  exfalso. revert Hc. apply Hnt; auto.
Qed.

(** C10, as amended. For two well-formed sheets (the gyroscope one
    non-empty) in which no gyroscope channel has the name of an
    accelerometer column, the merged table is the accelerometer sheet, its
    time column renamed to Time, followed by one appended column per
    gyroscope channel; every accelerometer channel column is found in it
    with the values of the raw sheet. *)
Theorem merge_keeps_accelerometer (wb : Workbook) (df_acc df_gyro : DataFrame)
    (acc_t gyro_t : string) (acc_time gyro_time : list Q) :
  Accelerometer wb = Some df_acc -> Gyroscope wb = Some df_gyro ->
  well_formed_sheet df_acc acc_t acc_time -> well_formed_sheet df_gyro gyro_t gyro_time ->
  gyro_time <> [] ->
  (forall c, In c (columns df_gyro) -> c <> gyro_t -> ~ In c (columns df_acc)) ->
  exists df_merged added, merge_sheets wb = Ok df_merged /\
    df_merged = (rename acc_t "Time" df_acc ++ added)%list /\
    columns added = List.filter (fun c => negb (String.eqb c gyro_t)) (columns df_gyro) /\
    forall c vs, In (c, vs) df_acc -> c <> acc_t -> get_col c df_merged = Ok vs.
Proof.
  intros Ha Hg Hwa Hwg Hne Hdisj.
  rewrite (merge_sheets_unfold wb df_acc df_gyro acc_t gyro_t acc_time gyro_time) by assumption.
  destruct (merge_gyro_ok acc_time gyro_time (rename gyro_t "Time" df_gyro)
              (rename acc_t "Time" df_acc) Hne (renamed_gyro_lengths _ _ _ Hwg))
    as (m & Hm & _).
  destruct Hwa as (_ & Hnda & Hfa & _). destruct Hwg as (_ & Hndg & Hfg & _).
  assert (Hnt : forall c, In c (columns df_gyro) -> c <> gyro_t -> c <> "Time").
  { intros c Hc Hct ->. pose proof (only_time_column _ _ _ Hfg Hc Hct). discriminate. }
  destruct (merge_gyro_appends _ _ _ _ _ Hm) as (added & -> & Hadded).
  { apply NoDup_rename_time; assumption. }
  { intros c Hc Hct. rewrite columns_rename in Hc |- *. rewrite in_map_iff in Hc |- *.
    destruct Hc as (c0 & Hc0 & Hin0). intros (a & Hren & Hina).
    destruct (String.eqb_spec c0 gyro_t) as [E | Hc0t]; [congruence|]. subst c0.
    destruct (String.eqb_spec a acc_t) as [E | Hat]; [congruence|]. subst a.
    exact (Hdisj c Hin0 Hc0t Hina). }
  exists (rename acc_t "Time" df_acc ++ added)%list, added.
  split; [exact Hm|]. split; [reflexivity|]. split.
  - rewrite Hadded, columns_rename. apply filter_renamed, Hnt.
  - intros c vs Hin Hc. apply get_col_app, NoDup_get_col.
    + apply NoDup_rename_time; assumption.
    + apply In_rename; assumption.
Qed.

(** C10, as stated, fails: a gyroscope channel named like an accelerometer
    column replaces that column's values in the merged table. *)
Lemma merge_overwrites_clashing_column :
  In ("X", [5; 6]) clash_acc /\
  merge_sheets clash_wb = Ok [("Time", [0; 1]); ("X", [7; 8])] /\
  get_col "X" [("Time", [0; 1]); ("X", [7; 8])] = Ok [7; 8] /\
  ~ 7 == 5.
Proof.
  split; [right; left; reflexivity|]. split; [reflexivity|]. split; [reflexivity|].
  intros H. discriminate H.
Qed.

(** ** The order of the group rows *)

Lemma compare_refl (s : string) : String.compare s s = Eq.
Proof.
  pose proof (String.compare_antisym s s) as H.
  destruct (String.compare s s); simpl in H; congruence.
Qed.

Lemma str_lt_le (a b : string) : str_lt a b <-> String.le a b /\ a <> b.
Proof.
  unfold str_lt, String.le, String.leb. split.
  - intros H. rewrite H. split; [exact I|]. intros ->. rewrite compare_refl in H. discriminate.
  - intros [Hle Hne]. destruct (String.compare a b) eqn:E; [|reflexivity|destruct Hle].
    apply String.compare_eq_iff in E. contradiction.
Qed.

Lemma str_lt_trans (a b c : string) : str_lt a b -> str_lt b c -> str_lt a c.
Proof.
  rewrite !str_lt_le. intros [Hab Hne] [Hbc Hne']. split.
  - exact (transitivity Hab Hbc).
  - intros ->. apply Hne. apply (anti_symm String.le); assumption.
Qed.

Lemma str_lt_gt (a b : string) : String.compare a b = Gt -> str_lt b a.
Proof.
  intros H. unfold str_lt. rewrite String.compare_antisym, H. reflexivity.
Qed.

Lemma In_insert_key (g x : string) (keys : list string) :
  In x (Basic.insert_key g keys) <-> x = g \/ In x keys.
Proof.
  induction keys as [|h rest IH]; simpl; [intuition|].
  destruct (String.compare g h) eqn:E; simpl.
  - apply String.compare_eq_iff in E. subst. intuition.
  - intuition.
  - rewrite IH. intuition.
Qed.

Lemma insert_key_sorted (g : string) (keys : list string) :
  StronglySorted str_lt keys -> StronglySorted str_lt (Basic.insert_key g keys).
Proof.
  induction 1 as [|h rest Hs IH Hall]; simpl.
  - repeat constructor.
  - destruct (String.compare g h) eqn:E.
    + constructor; assumption.
    + constructor; [constructor; assumption|].
      constructor; [exact E|].
      rewrite Forall_forall in Hall |- *. intros x Hx.
      apply str_lt_trans with h; [exact E | apply Hall, Hx].
    + constructor; [exact IH|].
      rewrite Forall_forall in Hall |- *. intros x Hx.
      apply list_elem_of_In, In_insert_key in Hx. destruct Hx as [-> | Hx].
      * apply str_lt_gt, E.
      * apply Hall, list_elem_of_In, Hx.
Qed.

Lemma group_keys_sorted (groups : list string) : StronglySorted str_lt (Basic.group_keys groups).
Proof.
  induction groups as [|g rest IH]; simpl; [constructor | apply insert_key_sorted, IH].
Qed.

Lemma In_group_keys (x : string) (groups : list string) :
  In x (Basic.group_keys groups) <-> In x groups.
Proof.
  induction groups as [|g rest IH]; simpl; [reflexivity|].
  rewrite In_insert_key, IH. intuition.
Qed.

(** C3, as amended. For a non-empty list of per-trial records the report
    has the raw rows first, one per trial in the order the trials were
    processed, followed by one average row per group of the trials, the
    groups in strictly ascending order of their keys. *)
Theorem report_rows_order (stats_list : list Basic.StatRecord) :
  stats_list <> [] ->
  exists report keys,
    Basic.save_formatted_excel stats_list = Some report /\
    Basic.rows report
    = (map (Basic.raw_row (Basic.frame_columns stats_list)) stats_list
       ++ map (Basic.group_row (Basic.frame_columns stats_list) stats_list) keys)%list /\
    map fst (Basic.rows report)
    = (map Basic.Filename stats_list ++ map (fun g => (g ++ "_avg")%string) keys)%list /\
    StronglySorted str_lt keys /\
    forall g, In g keys <-> exists r, In r stats_list /\ Basic.group_of (Basic.Filename r) = g.
Proof.
  intros Hne.
  exists {| Basic.header := "Filename" :: Basic.frame_columns stats_list;
            Basic.rows :=
              (map (Basic.raw_row (Basic.frame_columns stats_list)) stats_list
               ++ map (Basic.group_row (Basic.frame_columns stats_list) stats_list)
                    (Basic.group_keys
                       (map (fun r => Basic.group_of (Basic.Filename r)) stats_list)))%list |}.
  exists (Basic.group_keys (map (fun r => Basic.group_of (Basic.Filename r)) stats_list)).
  split; [destruct stats_list; [congruence | reflexivity]|].
  split; [reflexivity|]. split; [|split].
  - simpl. rewrite map_app, !map_map. reflexivity.
  - apply group_keys_sorted.
  - intros g. rewrite In_group_keys, in_map_iff. split.
    + intros (r & Hr & Hin). eauto.
    + intros (r & Hin & Hr). eauto.
Qed.

(** C3, as stated, fails: with [straight1] processed before [bump1] the
    average rows come out as [bump_avg], [straight_avg], not in the order
    in which the groups first appear. *)
Lemma report_order_not_first_appearance :
  first_appearance ["straight1"; "bump1"] = ["straight"; "bump"] /\
  exists report,
    Basic.save_formatted_excel [straight1; bump1] = Some report /\
    map fst (Basic.rows report) = ["straight1"; "bump1"; "bump_avg"; "straight_avg"] /\
    map fst (Basic.rows report)
    <> (map Basic.Filename [straight1; bump1]
        ++ map (fun g => (g ++ "_avg")%string) (first_appearance ["straight1"; "bump1"]))%list.
Proof.
  split; [reflexivity|]. eexists. split; [reflexivity|]. split; [reflexivity|].
  vm_compute. discriminate.
Qed.

(** ** Groups and their averages *)

Lemma alpha_prefix_split (x : string) :
  exists rest, x = Basic.alpha_prefix x ++ rest /\
    all_alpha (Basic.alpha_prefix x) = true /\ head_alpha rest = false.
Proof.
  induction x as [|c x (rest & Hx & Hall & Hhead)]; simpl.
  - exists "". auto.
  - destruct (is_alpha c) eqn:Ec.
    + exists rest. simpl. rewrite Ec, Hall. split; [|auto].
      change (String c x = String c (Basic.alpha_prefix x ++ rest)). f_equal. exact Hx.
    + exists (String c x). simpl. rewrite Ec. split; [reflexivity | auto].
Qed.





Lemma save_formatted_excel_rows (stats_list : list Basic.StatRecord) :
  stats_list <> [] ->
  Basic.save_formatted_excel stats_list
  = Some {| Basic.header := "Filename" :: Basic.frame_columns stats_list;
            Basic.rows :=
              (map (Basic.raw_row (Basic.frame_columns stats_list)) stats_list
               ++ map (Basic.group_row (Basic.frame_columns stats_list) stats_list)
                    (Basic.group_keys
                       (map (fun r => Basic.group_of (Basic.Filename r)) stats_list)))%list |}.
Proof. destruct stats_list; [congruence | reflexivity]. Qed.

Lemma group_row_in_report (stats_list : list Basic.StatRecord) (g : string) :
  In g (map (fun r => Basic.group_of (Basic.Filename r)) stats_list) ->
  exists report, Basic.save_formatted_excel stats_list = Some report /\
    In (Basic.group_row (Basic.frame_columns stats_list) stats_list g) (Basic.rows report).
Proof.
  intros Hg. eexists. split.
  - apply save_formatted_excel_rows. intros ->. destruct Hg.
  - simpl. apply in_app_iff. right. apply in_map, In_group_keys, Hg.
Qed.

Lemma Qsum_total (vs : list Q) : Qsum vs = total vs.
Proof. induction vs as [|v vs IH]; simpl; [reflexivity | f_equal; exact IH]. Qed.

Lemma count_pos (vs : list Q) : vs <> [] -> 0 < count vs.
Proof.
  destruct vs as [|v vs]; [congruence|]. intros _. unfold count.
  change 0 with (inject_Z 0). rewrite <- Zlt_Qlt. simpl length. lia.
Qed.

Lemma mean_is_mean (vs : list Q) : vs <> [] -> is_mean (Qsum vs / count vs) vs.
Proof.
  intros Hne. split; [exact Hne|].
  change (Qsum vs / count vs * count vs == Qsum vs).
  pose proof (count_pos vs Hne) as Hpos. field. lra.
Qed.



(** ** Per-trial statistics *)

Lemma list_ascii_app (a b : string) :
  list_ascii_of_string (a ++ b)
  = (list_ascii_of_string a ++ list_ascii_of_string b)%list.
Proof.
  induction a as [|c a IH]; [reflexivity|].
  change (c :: list_ascii_of_string (a ++ b)
          = c :: (list_ascii_of_string a ++ list_ascii_of_string b)%list).
  f_equal. exact IH.
Qed.

Lemma list_ascii_inj (a b : string) :
  list_ascii_of_string a = list_ascii_of_string b -> a = b.
Proof.
  intros H. rewrite <- (string_of_list_ascii_of_string a), H.
  apply string_of_list_ascii_of_string.
Qed.

Lemma suffix_inj (a b s : string) : a ++ s = b ++ s -> a = b.
Proof.
  intros H. apply list_ascii_inj. apply (f_equal list_ascii_of_string) in H.
  rewrite !list_ascii_app in H. exact (app_inv_tail _ _ _ H).
Qed.

Lemma mean_key_not_std_key (a b : string) : a ++ "_Mean" <> b ++ "_Std".
Proof.
  intros H. apply (f_equal list_ascii_of_string) in H. rewrite !list_ascii_app in H.
  change (list_ascii_of_string "_Mean")
    with (list_ascii_of_string "_Mea" ++ ["n"%char])%list in H.
  change (list_ascii_of_string "_Std")
    with (list_ascii_of_string "_St" ++ ["d"%char])%list in H.
  rewrite !app_assoc in H. apply app_inj_tail in H. destruct H as [_ H]. discriminate H.
Qed.

Lemma dict_get_set_eq (k : string) (v : cell) (d : list (string * cell)) :
  Basic.dict_get k (Basic.dict_set k v d) = Some v.
Proof.
  induction d as [|[k' v'] rest IH]; simpl.
  - rewrite String.eqb_refl. reflexivity.
  - destruct (String.eqb k' k) eqn:E; simpl.
    + rewrite String.eqb_refl. reflexivity.
    + rewrite E. exact IH.
Qed.

Lemma dict_get_set_ne (k k' : string) (v : cell) (d : list (string * cell)) :
  k <> k' -> Basic.dict_get k' (Basic.dict_set k v d) = Basic.dict_get k' d.
Proof.
  intros Hne. induction d as [|[k0 v0] rest IH]; simpl.
  - apply String.eqb_neq in Hne. rewrite Hne. reflexivity.
  - destruct (String.eqb k0 k) eqn:E; simpl.
    + apply String.eqb_eq in E. subst k0.
      apply String.eqb_neq in Hne. rewrite Hne. reflexivity.
    + destruct (String.eqb k0 k'); [reflexivity | exact IH].
Qed.

Lemma calc_stats_frame (sqrt : Q -> Q) (cols : DataFrame) (stats : list (string * cell))
    (k : string) :
  (forall c, In c (columns cols) -> c <> "Time" -> k <> c ++ "_Mean" /\ k <> c ++ "_Std") ->
  Basic.dict_get k (Basic.calc_stats sqrt cols stats) = Basic.dict_get k stats.
Proof.
  revert stats. induction cols as [|[col vs] rest IH]; intros stats Hk; simpl; [reflexivity|].
  destruct (String.eqb_spec col "Time") as [-> | Hcol].
  - apply IH. intros c Hc. apply Hk. right. exact Hc.
  - rewrite IH by (intros c Hc; apply Hk; right; exact Hc).
    destruct (Hk col (or_introl eq_refl) Hcol) as [Hm Hs].
    rewrite dict_get_set_ne by congruence. apply dict_get_set_ne. congruence.
Qed.

Lemma calc_stats_entries (sqrt : Q -> Q) (cols : DataFrame) (stats : list (string * cell))
    (c : string) (vs : list Q) :
  NoDup (columns cols) -> In (c, vs) cols -> c <> "Time" ->
  Basic.dict_get (c ++ "_Mean") (Basic.calc_stats sqrt cols stats) = Some (series_mean vs) /\
  Basic.dict_get (c ++ "_Std") (Basic.calc_stats sqrt cols stats)
  = Some (Basic.series_std sqrt vs).
Proof.
  revert stats. induction cols as [|[col vs'] rest IH]; intros stats Hnd Hin Hc;
    [destruct Hin|].
  inversion Hnd as [|? ? Hnotin Hnd']; subst. rewrite list_elem_of_In in Hnotin.
  simpl. destruct Hin as [[= -> ->] | Hin].
  - destruct (String.eqb_spec c "Time") as [| _]; [contradiction|].
    assert (Hother : forall c', In c' (columns rest) -> c' <> c) by (intros c' H' ->; tauto).
    split; rewrite calc_stats_frame.
    + rewrite dict_get_set_ne by apply not_eq_sym, mean_key_not_std_key.
      apply dict_get_set_eq.
    + intros c' Hc' _. split.
      * intros E. apply suffix_inj in E. apply (Hother c' Hc'). congruence.
      * apply mean_key_not_std_key.
    + apply dict_get_set_eq.
    + intros c' Hc' _. split.
      * apply not_eq_sym, mean_key_not_std_key.
      * intros E. apply suffix_inj in E. apply (Hother c' Hc'). congruence.
  - destruct (String.eqb col "Time"); apply IH; assumption.
Qed.

Lemma Qsum_ext (f g : Q -> Q) (vs : list Q) :
  (forall v, f v == g v) -> Qsum (map f vs) == Qsum (map g vs).
Proof.
  intros H. induction vs as [|v vs IH]; simpl; [reflexivity|].
  rewrite H, IH. reflexivity.
Qed.

Lemma nanvar_sample_variance (vs : list Q) :
  (2 <= length vs)%nat -> exists v, nanvar vs = Num v /\ v == sample_variance vs.
Proof.
  intros Hn. unfold nanvar.
  destruct (Nat.leb_spec (length vs) 1) as [H1 | _]; [lia|].
  eexists. split; [reflexivity|].
  change (sample_variance vs)
    with (Qsum (map (fun v => (v - Qsum vs / count vs) * (v - Qsum vs / count vs)) vs)
          / (count vs - 1)).
  assert (Hsum : Qsum (map (fun v => (Qsum vs / count vs - v) * (Qsum vs / count vs - v)) vs)
                 == Qsum (map (fun v => (v - Qsum vs / count vs) * (v - Qsum vs / count vs)) vs)).
  { apply Qsum_ext. intros v. ring. }
  rewrite Hsum. reflexivity.
Qed.

Lemma process_and_plot_run (sqrt : Q -> Q) (df df_trim : DataFrame) (filename : string)
    (tr : list event) :
  trim TRIM_SECONDS df = Ok df_trim -> empty_frame df_trim = false ->
  has_axes "Acceleration" df_trim -> has_axes "Gyroscope" df_trim ->
  Basic.process_and_plot sqrt df filename tr
  = (Ok (Some {| Basic.Filename := filename;
                 Basic.fields := Basic.calc_stats sqrt df_trim [] |}),
     (tr ++ [SaveFig (filename ++ "_Acc.png"); SaveFig (filename ++ "_Gyro.png")])%list).
Proof.
  intros Htrim Hempty ((ax & Hax) & (ay & Hay) & (az & Haz))
    ((gx & Hgx) & (gy & Hgy) & (gz & Hgz)).
  unfold Basic.process_and_plot, bind, lift. rewrite Htrim, Hempty.
  unfold Basic.plot_triaxial, bind, lift, emit, ret.
  rewrite Hax, Hay, Haz, Hgx, Hgy, Hgz. rewrite <- app_assoc. reflexivity.
Qed.

(** C9. For a trial that is not empty after trimming, the record of
    [process_and_plot] holds under the key of each non-time channel with
    the suffix _Std the sample standard deviation of the trimmed channel:
    the square root of the sample variance (the squared deviations from the
    mean, summed and divided by n - 1) when the channel has two rows or
    more, and NaN, not a number, when it has exactly one row.  And for the
    five-second trial whose forward acceleration is 2, 4, 6 on the rows
    that are left, the entry is the square root of a number equal to 4. *)
Theorem std_is_sample_std (sqrt : Q -> Q) :
  (forall (df df_trim : DataFrame) (filename : string) (tr : list event)
          (c : string) (vs : list Q),
     (forall a b, a == b -> sqrt a == sqrt b) ->
     trim TRIM_SECONDS df = Ok df_trim -> empty_frame df_trim = false ->
     has_axes "Acceleration" df_trim -> has_axes "Gyroscope" df_trim ->
     NoDup (columns df_trim) -> In (c, vs) df_trim -> c <> "Time" ->
     exists stats tr',
       Basic.process_and_plot sqrt df filename tr = (Ok (Some stats), tr') /\
       Basic.Filename stats = filename /\
       (length vs = 1%nat ->
          Basic.dict_get (c ++ "_Std") (Basic.fields stats) = Some NaN) /\
       ((2 <= length vs)%nat ->
          exists s, Basic.dict_get (c ++ "_Std") (Basic.fields stats) = Some (Num s) /\
            s == sqrt (sample_variance vs))) /\
  (exists stats tr' var,
     Basic.process_and_plot sqrt five_merged "bump1" [] = (Ok (Some stats), tr') /\
     Basic.dict_get "Acceleration y (m/s^2)_Std" (Basic.fields stats) = Some (Num (sqrt var)) /\
     var == 4).
Proof.
  split.
  - intros df df_trim filename tr c vs Hsqrt Htrim Hempty Hacc Hgyro Hnd Hin Hc.
    eexists. eexists. split; [apply process_and_plot_run; eassumption|].
    split; [reflexivity|]. simpl.
    destruct (calc_stats_entries sqrt df_trim [] c vs Hnd Hin Hc) as [_ Hstd].
    rewrite Hstd. unfold Basic.series_std. split.
    + intros Hone. unfold nanvar. rewrite Hone. reflexivity.
    + intros Hn. destruct (nanvar_sample_variance vs Hn) as (v & -> & Hv).
      eexists. split; [reflexivity|]. apply Hsqrt, Hv.
  - eexists. eexists. eexists. split; [reflexivity|]. split; [reflexivity|].
    vm_compute. reflexivity.
Qed.

(** ** Failures inside a batch *)

(** A trial whose load fails is logged and skipped, in both scripts. *)
Lemma basic_load_failure_skipped (sqrt : Q -> Q) (fname : string) (wb : Workbook) (e : exn)
    (rest : list (string * Workbook)) (all_stats : list Basic.StatRecord) (tr : list event) :
  merge_sheets wb = Raise e ->
  Basic.process_files sqrt ((fname, wb) :: rest) all_stats tr
  = Basic.process_files sqrt rest all_stats (tr ++ [Printed ("Error reading " ++ fname)])%list.
Proof.
  intros H. simpl. unfold bind at 1.
  unfold Basic.load_phyphox_xls, try_except, bind, lift, emit, ret. rewrite H. reflexivity.
Qed.

Lemma advanced_load_failure_skipped (bias : gmap string Q) (fname : string) (wb : Workbook)
    (e : exn) (tr : list event) :
  merge_sheets wb = Raise e -> contains "stationary" (lower fname) = false ->
  Advanced.process_file bias (fname, wb) tr
  = (Ok tt, (tr ++ [Printed ("Error loading " ++ fname)])%list).
Proof.
  intros H Hs. unfold Advanced.process_file. cbv zeta.
  change (fst (fname, wb)) with fname. change (snd (fname, wb)) with wb. rewrite Hs.
  unfold bind, Advanced.load_phyphox_xls, try_except, bind, lift, emit, ret.
  rewrite H. reflexivity.
Qed.

(** A trial that is empty after trimming gives [None] in basic_analysis.py. *)
Lemma basic_empty_after_trim (sqrt : Q -> Q) (df df_trim : DataFrame) (filename : string)
    (tr : list event) :
  trim TRIM_SECONDS df = Ok df_trim -> empty_frame df_trim = true ->
  Basic.process_and_plot sqrt df filename tr = (Ok None, tr).
Proof.
  intros Htrim Hempty. unfold Basic.process_and_plot, bind, lift.
  rewrite Htrim, Hempty. reflexivity.
Qed.

(** C1. A trial without the forward-acceleration channel stops the batch
    of either script with the [IndexError] of the channel lookup: the trial
    after it is not processed, although alone it is. *)
Theorem missing_channel_aborts_batch :
  Advanced.main_loop ∅ [("straight1", no_y_wb); ("straight2", good_wb)] []
  = (Raise IndexError, []) /\
  Advanced.main_loop ∅ [("straight2", good_wb)] []
  = (Ok tt, [SaveFig "straight2_Drift_Compare.png";
             Printed "  > Generated Velocity plot for straight2";
             Printed "Done! Check 'Output_Advanced' folder."]) /\
  (forall sqrt, Basic.process_files sqrt [("straight1", no_y_wb); ("straight2", good_wb)] [] []
                = (Raise IndexError, [])) /\
  (forall sqrt, exists stats,
     Basic.process_files sqrt [("straight2", good_wb)] [] []
     = (Ok [stats], [SaveFig "straight2_Acc.png"; SaveFig "straight2_Gyro.png";
                     Printed "Processed: straight2"])).
Proof.
  split; [reflexivity|]. split; [reflexivity|]. split.
  - intros sqrt. reflexivity.
  - intros sqrt. eexists. reflexivity.
Qed.

(** C2. In advanced_analysis.py a trial that is empty after trimming comes
    back from the loader as a frame without rows, not as [None]; the drift
    analysis then raises on it and the batch stops.  In basic_analysis.py
    the same trial gives [None] and the batch goes on. *)
Theorem empty_after_trim_not_signalled :
  Advanced.load_phyphox_xls "straight1" short_wb [] = (Ok (Some short_trimmed), []) /\
  empty_frame short_trimmed = true /\
  Advanced.main_loop ∅ [("straight1", short_wb); ("straight2", good_wb)] []
  = (Raise ValueError, []) /\
  (forall sqrt, exists stats,
     Basic.process_files sqrt [("straight1", short_wb); ("straight2", good_wb)] [] []
     = (Ok [stats], [SaveFig "straight2_Acc.png"; SaveFig "straight2_Gyro.png";
                     Printed "Processed: straight2"])).
Proof.
  split; [reflexivity|]. split; [reflexivity|]. split; [reflexivity|].
  intros sqrt. eexists. reflexivity.
Qed.

(** * The theorems at sample inputs *)

Example good_wb_loads :
  merge_sheets good_wb = Ok good_merged /\
  Advanced.load_phyphox_xls "straight2" good_wb [] = (Ok (Some good_trimmed), []).
Proof. split; reflexivity. Qed.

Ltac distinct_names := apply (bool_decide_unpack _); vm_compute; exact I.

Lemma good_acc_well_formed : well_formed_sheet good_acc "Time (s)" [0; 1; 2; 3].
Proof.
  split; [repeat constructor|]. split; [distinct_names|]. split; reflexivity.
Defined.

Lemma good_gyro_well_formed : well_formed_sheet good_gyro "Time (s)" [0; 1; 2; 3].
Proof.
  split; [repeat constructor|]. split; [distinct_names|]. split; reflexivity.
Defined.

Lemma good_times_increasing : strictly_increasing [0; 1; 2; 3].
Proof.
  intros i Hi. destruct i as [|[|[|i]]]; simpl in Hi; try lia; reflexivity.
Defined.

Lemma merge_interpolates_witness :
  exists df_merged, merge_sheets good_wb = Ok df_merged /\
    get_col "Time" df_merged = Ok [0; 1; 2; 3] /\
    exists ys, get_col "Gyroscope z (rad/s)" df_merged = Ok ys /\
      nth 1%nat ys 0 == lerp 0 1 1 2 1.
Proof.
  destruct (merge_interpolates good_wb good_acc good_gyro "Time (s)" "Time (s)"
              [0; 1; 2; 3] [0; 1; 2; 3] eq_refl eq_refl
              good_acc_well_formed good_gyro_well_formed good_times_increasing)
    as (df_merged & Hm & Ht & Hch); [discriminate|].
  exists df_merged. split; [exact Hm|]. split; [exact Ht|].
  destruct (Hch "Gyroscope z (rad/s)" [1; 2; 3; 4]) as (ys & Hys & _ & Hval).
  { simpl. auto 6. }
  { discriminate. }
  exists ys. split; [exact Hys|].
  destruct (Hval 1%nat) as (Hbetween & _); [simpl; lia|].
  apply (Hbetween 0%nat); [simpl; lia | discriminate | discriminate].
Defined.

Lemma good_trimmed_wf : wf_frame good_trimmed.
Proof. repeat constructor. Defined.

Lemma trapezoid_integrals_witness :
  exists cv, Advanced.drift_curves good_trimmed ∅ = Ok cv /\
    trapezoid_rule [1; 1] [1; 2] (Advanced.vel_raw cv) /\
    exists h, Advanced.heading_curve good_trimmed ∅ = Ok h /\
      trapezoid_rule (map (fun g => g - Advanced.bias_get ∅ "Gyroscope z (rad/s)") [2; 3])
        [1; 2] (Advanced.angle_rad h).
Proof.
  destruct (trapezoid_integrals good_trimmed ∅ [1; 2] good_trimmed_wf eq_refl)
    as [Hdrift Hheading]; [discriminate|].
  destruct (Hdrift "Acceleration y (m/s^2)" [1; 1] eq_refl eq_refl)
    as (cv & Hcv & _ & Hraw & _).
  destruct (Hheading "Gyroscope z (rad/s)" [2; 3] eq_refl eq_refl)
    as (h & Hh & _ & Hrule).
  exists cv. split; [exact Hcv|]. split; [exact Hraw|].
  exists h. split; [exact Hh | exact Hrule].
Defined.

Lemma zero_bias_identity_witness :
  (exists cv, Advanced.drift_curves good_trimmed ∅ = Ok cv /\
     nth 1%nat (Advanced.vel_corr cv) 0 == nth 1%nat (Advanced.vel_raw cv) 0) /\
  (exists h raw, Advanced.heading_curve good_trimmed ∅ = Ok h /\
     cumulative_trapezoid [2; 3] [1; 2] = Ok raw /\
     nth 1%nat (Advanced.angle_rad h) 0 == nth 1%nat raw 0).
Proof.
  destruct (zero_bias_identity good_trimmed ∅ [1; 2] good_trimmed_wf eq_refl)
    as [Hdrift Hheading]; [discriminate|].
  split.
  - destruct (Hdrift "Acceleration y (m/s^2)" eq_refl) as (cv & Hcv & _ & Hsame).
    { left. reflexivity. }
    exists cv. split; [exact Hcv|]. apply Hsame. simpl. lia.
  - destruct (Hheading "Gyroscope z (rad/s)" [2; 3] eq_refl eq_refl)
      as (h & raw & Hh & Hraw & _ & Hsame).
    { left. reflexivity. }
    exists h, raw. split; [exact Hh|]. split; [exact Hraw|]. apply Hsame. simpl. lia.
Defined.

(** Rounding at known doubles: the literals 0.13 and 0.1 + 0.2 (which is
    0.30000000000000004), whole numbers below 2^53 unchanged, the ties
    2^53 + 1 and 2^53 + 3 to the even neighbour, the two bounds of the trim
    of 0.13, 1.13, 2.13, and two ties among the subnormals. *)
Example fl_known_doubles :
  fl (13 # 100) == 1170935903116329 # 9007199254740992 /\
  fl (fl (1 # 10) + fl (2 # 10)) == 1351079888211149 # 4503599627370496 /\
  ~ fl (fl (1 # 10) + fl (2 # 10)) == fl (3 # 10) /\
  fl 3 == 3 /\ fl (- (5 # 2)) == - (5 # 2) /\
  fl 9007199254740993 == 9007199254740992 /\
  fl 9007199254740995 == 9007199254740996 /\
  fl (fl (13 # 100) + 1) == fl (113 # 100) /\
  fl (fl (213 # 100) - 1) == fl (113 # 100) /\
  fl (1 # 2 ^ 1075) == 0 /\ fl (3 # 2 ^ 1075) == 1 # 2 ^ 1073.
Proof.
  repeat split; try (vm_compute; reflexivity).
  intros H. vm_compute in H. discriminate H.
Qed.

Lemma good_times_minimum : is_minimum 0 [0; 1; 2; 3].
Proof.
  split; [now left|].
  intros t [<- | [<- | [<- | [<- | []]]]]; apply Qle_bool_imp_le; reflexivity.
Defined.

Lemma good_times_maximum : is_maximum 3 [0; 1; 2; 3].
Proof.
  split; [simpl; auto|].
  intros t [<- | [<- | [<- | [<- | []]]]]; apply Qle_bool_imp_le; reflexivity.
Defined.

Lemma good_merged_wf : wf_frame good_merged.
Proof. repeat constructor. Defined.

Lemma trim_keeps_window_witness :
  exists df_trim,
    trim 1 good_merged = Ok df_trim /\
    Forall2 (fun cv cv' =>
               fst cv' = fst cv /\
               snd cv' = rows_where (in_window (fl (0 + 1)) (fl (3 - 1))) [0; 1; 2; 3] (snd cv))
      good_merged df_trim /\
    df_trim = good_trimmed /\
    fl (0 + 1) == 1 /\ fl (3 - 1) == 2 /\
    rows_where (in_window (fl (0 + 1)) (fl (3 - 1))) [0; 1; 2; 3] [1; 2; 3; 4] = [2; 3] /\
    trim 0 good_merged = Ok good_merged.
Proof.
  destruct (trim_keeps_window 1 good_merged [0; 1; 2; 3] 0 3 eq_refl
              good_times_minimum good_times_maximum) as [(df_trim & Htrim & Hrows) _].
  destruct (trim_keeps_window 0 good_merged [0; 1; 2; 3] 0 3 eq_refl
              good_times_minimum good_times_maximum) as [_ Hzero].
  exists df_trim. split; [exact Htrim|]. split; [exact Hrows|]. split.
  - assert (E : trim 1 good_merged = Ok good_trimmed) by reflexivity.
    rewrite E in Htrim. injection Htrim as <-. reflexivity.
  - split; [reflexivity|]. split; [reflexivity|]. split; [reflexivity|].
    apply (Hzero good_merged_wf); reflexivity.
Defined.

Lemma single_trimmed_axes (sensor : string) :
  sensor = "Acceleration" \/ sensor = "Gyroscope" -> has_axes sensor single_trimmed.
Proof.
  intros [-> | ->]; repeat split; eexists; reflexivity.
Defined.

Lemma five_trimmed_axes (sensor : string) :
  sensor = "Acceleration" \/ sensor = "Gyroscope" -> has_axes sensor five_trimmed.
Proof.
  intros [-> | ->]; repeat split; eexists; reflexivity.
Defined.

Lemma sqrt_q_ext (a b : Q) : a == b -> sqrt_q a == sqrt_q b.
Proof. intros H. unfold sqrt_q. rewrite (Qred_complete a b H). reflexivity. Defined.

Lemma std_is_sample_std_witness :
  (exists stats tr',
     Basic.process_and_plot sqrt_q five_merged "bump1" [] = (Ok (Some stats), tr') /\
     exists s, Basic.dict_get "Acceleration y (m/s^2)_Std" (Basic.fields stats) = Some (Num s) /\
       s == 2) /\
  (exists stats tr',
     Basic.process_and_plot sqrt_q single_merged "bump2" [] = (Ok (Some stats), tr') /\
     Basic.dict_get "Acceleration y (m/s^2)_Std" (Basic.fields stats) = Some NaN).
Proof.
  destruct (std_is_sample_std sqrt_q) as [Hstd _]. split.
  - destruct (Hstd five_merged five_trimmed "bump1" [] "Acceleration y (m/s^2)" [2; 4; 6])
      as (stats & tr' & Hrun & _ & _ & Hmany).
    + exact sqrt_q_ext.
    + reflexivity.
    + reflexivity.
    + apply five_trimmed_axes. now left.
    + apply five_trimmed_axes. now right.
    + distinct_names.
    + simpl. auto.
    + discriminate.
    + exists stats, tr'. split; [exact Hrun|].
      destruct Hmany as (s & Hs & Hv); [simpl; lia|].
      exists s. split; [exact Hs|]. rewrite Hv. reflexivity.
  - destruct (Hstd single_merged single_trimmed "bump2" [] "Acceleration y (m/s^2)" [2])
      as (stats & tr' & Hrun & _ & Hone & _).
    + exact sqrt_q_ext.
    + reflexivity.
    + reflexivity.
    + apply single_trimmed_axes. now left.
    + apply single_trimmed_axes. now right.
    + distinct_names.
    + simpl. auto.
    + discriminate.
    + exists stats, tr'. split; [exact Hrun | exact (Hone eq_refl)].
Defined.

Lemma merge_keeps_accelerometer_witness :
  exists df_merged added, merge_sheets good_wb = Ok df_merged /\
    df_merged = (rename "Time (s)" "Time" good_acc ++ added)%list /\
    get_col "Acceleration y (m/s^2)" df_merged = Ok [1; 1; 1; 1].
Proof.
  destruct (merge_keeps_accelerometer good_wb good_acc good_gyro "Time (s)" "Time (s)"
              [0; 1; 2; 3] [0; 1; 2; 3] eq_refl eq_refl
              good_acc_well_formed good_gyro_well_formed)
    as (df_merged & added & Hm & Happ & _ & Hcols).
  - discriminate.
  - intros c Hc Hne Hin. simpl in Hc, Hin.
    destruct Hc as [<- | [<- | [<- | [<- | []]]]]; try congruence;
      destruct Hin as [H | [H | [H | [H | []]]]]; discriminate H.
  - exists df_merged, added. split; [exact Hm|]. split; [exact Happ|].
    apply Hcols; [simpl; auto | discriminate].
Defined.

Lemma report_rows_order_witness :
  exists report keys,
    Basic.save_formatted_excel [straight1; bump1] = Some report /\
    map fst (Basic.rows report)
    = (map Basic.Filename [straight1; bump1] ++ map (fun g => (g ++ "_avg")%string) keys)%list /\
    StronglySorted str_lt keys.
Proof.
  destruct (report_rows_order [straight1; bump1]) as (report & keys & Hs & _ & Hn & Hk & _).
  - discriminate.
  - exists report, keys. auto.
Defined.


(** * Further properties *)

(** ** Strings and file names *)

Lemma app_cons (c : ascii) (a b : string) : String c a ++ b = String c (a ++ b).
Proof. reflexivity. Qed.

Lemma app_empty (s : string) : "" ++ s = s.
Proof. reflexivity. Qed.

Lemma prefix_app (pat post : string) : String.prefix pat (pat ++ post) = true.
Proof.
  induction pat as [|c pat IH]; [destruct post; reflexivity|].
  rewrite app_cons. simpl. destruct (ascii_dec c c); [exact IH | congruence].
Qed.

Lemma prefix_split (pat s : string) :
  String.prefix pat s = true -> exists post, s = pat ++ post.
Proof.
  revert s. induction pat as [|c pat IH]; intros s H.
  - exists s. reflexivity.
  - destruct s as [|d s]; simpl in H; [discriminate|].
    destruct (ascii_dec c d) as [<- | _]; [|discriminate].
    destruct (IH s H) as [post ->]. exists post. reflexivity.
Qed.

Lemma contains_prefix (pat s : string) : String.prefix pat s = true -> contains pat s = true.
Proof. intros H. destruct s; unfold contains; fold contains; rewrite H; reflexivity. Qed.

(** [contains] is Python's substring test. *)
Lemma contains_iff (pat s : string) :
  contains pat s = true <-> exists pre post, s = pre ++ pat ++ post.
Proof.
  split.
  - induction s as [|c s IH]; simpl; rewrite orb_true_iff.
    + intros [H | H]; [|discriminate].
      destruct pat; [exists "", ""; reflexivity | discriminate].
    + intros [H | H].
      * destruct (prefix_split pat (String c s) H) as [post ->]. exists "", post. reflexivity.
      * destruct (IH H) as (pre & post & ->). exists (String c pre), post. reflexivity.
  - intros (pre & post & ->). induction pre as [|c pre IH].
    + rewrite app_empty. apply contains_prefix, prefix_app.
    + rewrite app_cons. simpl. rewrite IH. apply orb_true_r.
Qed.

Lemma ends_with_iff (suffix s : string) :
  ends_with suffix s = true <-> exists pre, s = pre ++ suffix.
Proof.
  split.
  - induction s as [|c s IH]; simpl; rewrite orb_true_iff.
    + intros [H | H]; [|discriminate]. apply String.eqb_eq in H. exists "". subst. reflexivity.
    + intros [H | H].
      * apply String.eqb_eq in H. exists "". subst. reflexivity.
      * destruct (IH H) as (pre & ->). exists (String c pre). reflexivity.
  - intros (pre & ->). induction pre as [|c pre IH].
    + rewrite app_empty.
      destruct suffix; unfold ends_with; fold ends_with; rewrite String.eqb_refl; reflexivity.
    + rewrite app_cons. simpl. rewrite IH. apply orb_true_r.
Qed.

Lemma before_last_dot_none (s : string) : no_dot s = true -> before_last_dot s = None.
Proof.
  induction s as [|c s IH]; simpl; [reflexivity|].
  rewrite andb_true_iff, negb_true_iff. intros [Hc Hs]. rewrite (IH Hs), Hc. reflexivity.
Qed.

Lemma before_last_dot_ext (stem ext : string) :
  no_dot ext = true -> before_last_dot (stem ++ String "." ext) = Some stem.
Proof.
  intros Hext. induction stem as [|c stem IH].
  - rewrite app_empty. simpl.
    rewrite (before_last_dot_none ext Hext). reflexivity.
  - rewrite app_cons. simpl. rewrite IH. reflexivity.
Qed.

(** X1. Stripping the extension of a spreadsheet file name gives back the
    stem, unless the stem is made of dots only (an empty stem included), in
    which case the whole name is kept. *)
Theorem splitext_root_stem (stem ext : string) :
  no_dot ext = true ->
  splitext_root (stem ++ String "." ext)
  = if all_dots stem then stem ++ String "." ext else stem.
Proof.
  intros Hext. unfold splitext_root. rewrite (before_last_dot_ext stem ext Hext).
  reflexivity.
Qed.

Lemma splitext_root_stem_witness :
  splitext_root "bump1.xlsx" = "bump1" /\ splitext_root ".xls" = ".xls".
Proof.
  split.
  - exact (splitext_root_stem "bump1" "xlsx" eq_refl).
  - exact (splitext_root_stem "" "xls" eq_refl).
Defined.

(** ** More on interpolation and merging *)

Lemma merged_gyro_columns (wb : Workbook) (df_acc df_gyro : DataFrame)
    (acc_t gyro_t : string) (acc_time gyro_time : list Q) :
  Accelerometer wb = Some df_acc -> Gyroscope wb = Some df_gyro ->
  well_formed_sheet df_acc acc_t acc_time -> well_formed_sheet df_gyro gyro_t gyro_time ->
  gyro_time <> [] ->
  exists df_merged, merge_sheets wb = Ok df_merged /\
    forall c fp, In (c, fp) df_gyro -> c <> gyro_t ->
      length fp = length gyro_time /\
      get_col c df_merged = Ok (map (interp1 gyro_time fp) acc_time).
Proof.
  intros Ha Hg Hwa Hwg Hne.
  rewrite (merge_sheets_unfold wb df_acc df_gyro acc_t gyro_t acc_time gyro_time) by assumption.
  destruct (merge_gyro_ok acc_time gyro_time (rename gyro_t "Time" df_gyro)
              (rename acc_t "Time" df_acc) Hne (renamed_gyro_lengths _ _ _ Hwg))
    as (m & Hm & _ & Hlook).
  exists m. split; [exact Hm|].
  intros c fp Hin Hc. destruct Hwg as (Hwf & Hnd & Hfg & Htg). split.
  - rewrite (get_col_length _ _ _ Hwf Htg).
    unfold wf_frame in Hwf. rewrite Forall_forall in Hwf.
    apply (Hwf (c, fp)), list_elem_of_In, Hin.
  - apply Hlook.
    + apply NoDup_rename_time; assumption.
    + apply In_rename; assumption.
    + intros ->. assert (Hcol : In "Time" (columns df_gyro)).
      { apply in_map_iff. exists ("Time", fp). auto. }
      pose proof (only_time_column _ _ _ Hfg Hcol Hc). discriminate.
Qed.

Lemma interp1_at_sample (xp fp : list Q) (k : nat) :
  strictly_increasing xp -> (k < length xp)%nat ->
  interp1 xp fp (nth k xp 0) = nth k fp 0.
Proof.
  intros Hinc Hk. unfold interp1.
  destruct (Nat.eqb_spec (length xp) 1) as [Hone | Hmany].
  - assert (k = 0%nat) as -> by lia.
    destruct (Qle_bool_reflect (nth 0%nat xp 0) (nth 0%nat xp 0)) as [_ | H]; simpl;
      [reflexivity | exfalso; apply H, Qle_refl].
  - destruct (search_at (nth k xp 0) xp) as (j & Hs & Hj & Hjle & Hjlt).
    { destruct xp; [simpl in Hk; lia | discriminate]. }
    { apply increasing_le; auto; lia. }
    { apply increasing_le; auto; lia. }
    rewrite Hs. assert (j = k) as ->.
    { destruct (Nat.lt_trichotomy j k) as [Hlt | [-> | Hgt]]; [exfalso | reflexivity | exfalso].
      - pose proof (Hjlt ltac:(lia)).
        pose proof (increasing_le xp (S j) k Hinc ltac:(lia) Hk). lra.
      - pose proof (increasing_lt xp k j Hinc Hgt Hj). lra. }
    destruct (Nat.eqb k (length xp - 1)); [reflexivity|].
    destruct (Qeq_bool_reflect (nth k xp 0) (nth k xp 0)) as [_ | H];
      [reflexivity | exfalso; apply H; reflexivity].
Qed.

Lemma interp_same_axis (xp fp : list Q) :
  strictly_increasing xp -> length fp = length xp -> map (interp1 xp fp) xp = fp.
Proof.
  intros Hinc Hlen. apply (nth_ext _ _ 0 0); [rewrite length_map; auto|].
  intros i Hi. rewrite length_map in Hi.
  rewrite (nth_indep _ 0 (interp1 xp fp 0)) by (rewrite length_map; exact Hi).
  rewrite (map_nth (interp1 xp fp)). apply interp1_at_sample; assumption.
Qed.

(** X2. When the two sensors were sampled at the same timestamps (strictly
    increasing), the merge copies every gyroscope channel as it is:
    resampling on the own time axis changes nothing. *)
Theorem merge_same_clock (wb : Workbook) (df_acc df_gyro : DataFrame)
    (acc_t gyro_t : string) (time : list Q) :
  Accelerometer wb = Some df_acc -> Gyroscope wb = Some df_gyro ->
  well_formed_sheet df_acc acc_t time -> well_formed_sheet df_gyro gyro_t time ->
  strictly_increasing time -> time <> [] ->
  exists df_merged, merge_sheets wb = Ok df_merged /\
    forall c fp, In (c, fp) df_gyro -> c <> gyro_t -> get_col c df_merged = Ok fp.
Proof.
  intros Ha Hg Hwa Hwg Hinc Hne.
  destruct (merged_gyro_columns wb df_acc df_gyro acc_t gyro_t time time Ha Hg Hwa Hwg Hne)
    as (m & Hm & Hcols).
  exists m. split; [exact Hm|]. intros c fp Hin Hc.
  destruct (Hcols c fp Hin Hc) as [Hlen Hget].
  rewrite Hget, (interp_same_axis time fp Hinc Hlen). reflexivity.
Qed.

Lemma merge_same_clock_witness :
  exists df_merged, merge_sheets good_wb = Ok df_merged /\
    get_col "Gyroscope z (rad/s)" df_merged = Ok [1; 2; 3; 4].
Proof.
  destruct (merge_same_clock good_wb good_acc good_gyro "Time (s)" "Time (s)" [0; 1; 2; 3]
              eq_refl eq_refl good_acc_well_formed good_gyro_well_formed good_times_increasing)
    as (m & Hm & Hcols); [discriminate|].
  exists m. split; [exact Hm|]. apply Hcols; [simpl; auto 6 | discriminate].
Defined.

(** ** The shape of the merged and of the trimmed table *)

Lemma columns_set_col (c : string) (vs : list Q) (df : DataFrame) :
  exists extra, columns (set_col c vs df) = (columns df ++ extra)%list.
Proof.
  induction df as [|[c' vs'] rest (extra & IH)]; simpl.
  - exists [c]. reflexivity.
  - destruct (String.eqb_spec c' c) as [-> | _]; simpl.
    + exists []. rewrite app_nil_r. reflexivity.
    + exists extra. rewrite IH. reflexivity.
Qed.

Lemma set_col_lengths (n : nat) (c : string) (vs : list Q) (df : DataFrame) :
  length vs = n -> Forall (fun cv => length (snd cv) = n) df ->
  Forall (fun cv => length (snd cv) = n) (set_col c vs df).
Proof.
  intros Hvs. induction 1 as [|[c' vs'] rest Hcv Hrest IH]; simpl.
  - repeat constructor. exact Hvs.
  - destruct (String.eqb c' c); constructor; simpl; auto.
Qed.

Lemma merge_gyro_shape (acc_time gyro_time : list Q) (gyro_cols df_merged m : DataFrame) :
  merge_gyro acc_time gyro_time gyro_cols df_merged = Ok m ->
  Forall (fun cv => length (snd cv) = length acc_time) df_merged ->
  Forall (fun cv => length (snd cv) = length acc_time) m /\
  exists extra, columns m = (columns df_merged ++ extra)%list.
Proof.
  revert df_merged. induction gyro_cols as [|[col vs] rest IH]; intros df_merged; simpl.
  - intros [= <-] Hall. split; [exact Hall|]. exists []. rewrite app_nil_r. reflexivity.
  - destruct (String.eqb col "Time"); [apply IH|].
    unfold interp. destruct (Nat.eqb (length gyro_time) 0); simpl; [discriminate|].
    destruct (negb (Nat.eqb (length vs) (length gyro_time))); simpl; [discriminate|].
    intros Hm Hall.
    destruct (IH _ Hm) as (Hall' & extra & Hcols).
    { apply set_col_lengths; [apply length_map | exact Hall]. }
    split; [exact Hall'|].
    destruct (columns_set_col col (map (interp1 gyro_time vs) acc_time) df_merged)
      as (extra0 & Hc0).
    exists (extra0 ++ extra)%list. rewrite Hcols, Hc0, app_assoc. reflexivity.
Qed.

Lemma same_lengths_wf (n : nat) (df : DataFrame) :
  Forall (fun cv => length (snd cv) = n) df -> wf_frame df /\ (df <> [] -> n_rows df = n).
Proof.
  intros Hall. destruct df as [|[c vs] rest]; [split; [constructor | congruence]|].
  assert (Hn : n_rows ((c, vs) :: rest) = n).
  { exact (List.Forall_inv Hall). }
  split; [|intros _; exact Hn]. unfold wf_frame. rewrite Hn. exact Hall.
Qed.

(** X4. The merged table of two well-formed sheets (the gyroscope one
    non-empty) is a frame whose columns all have as many rows as the
    accelerometer sheet, and whose column names start with the
    accelerometer's, the time column renamed to Time. *)
Theorem merged_frame_shape (wb : Workbook) (df_acc df_gyro : DataFrame)
    (acc_t gyro_t : string) (acc_time gyro_time : list Q) :
  Accelerometer wb = Some df_acc -> Gyroscope wb = Some df_gyro ->
  well_formed_sheet df_acc acc_t acc_time -> well_formed_sheet df_gyro gyro_t gyro_time ->
  gyro_time <> [] ->
  exists df_merged extra, merge_sheets wb = Ok df_merged /\
    wf_frame df_merged /\ n_rows df_merged = length acc_time /\
    columns df_merged = (columns (rename acc_t "Time" df_acc) ++ extra)%list.
Proof.
  intros Ha Hg Hwa Hwg Hne.
  destruct (merged_gyro_columns wb df_acc df_gyro acc_t gyro_t acc_time gyro_time
              Ha Hg Hwa Hwg Hne) as (m & Hm & _).
  pose proof Hm as Hm'.
  rewrite (merge_sheets_unfold wb df_acc df_gyro acc_t gyro_t acc_time gyro_time)
    in Hm' by assumption.
  destruct Hwa as (Hwf & _ & Hfa & Hta).
  destruct (merge_gyro_shape _ _ _ _ _ Hm') as (Hall & extra & Hcols).
  { unfold rename. apply Forall_forall. intros cv Hcv.
    apply list_elem_of_In, in_map_iff in Hcv. destruct Hcv as (cv0 & <- & Hin). simpl.
    rewrite (get_col_length _ _ _ Hwf Hta).
    unfold wf_frame in Hwf. rewrite Forall_forall in Hwf. apply Hwf, list_elem_of_In, Hin. }
  exists m, extra. split; [exact Hm|].
  destruct (same_lengths_wf _ _ Hall) as [Hwfm Hrows].
  split; [exact Hwfm|]. split; [|exact Hcols].
  apply Hrows. intros ->. simpl in Hcols.
  apply get_col_In in Hta. destruct df_acc; [destruct Hta | discriminate Hcols].
Qed.

Lemma merged_frame_shape_witness :
  exists df_merged extra, merge_sheets good_wb = Ok df_merged /\
    wf_frame df_merged /\ n_rows df_merged = 4%nat /\
    columns df_merged = (columns (rename "Time (s)" "Time" good_acc) ++ extra)%list.
Proof.
  apply (merged_frame_shape good_wb good_acc good_gyro "Time (s)" "Time (s)"
           [0; 1; 2; 3] [0; 1; 2; 3] eq_refl eq_refl
           good_acc_well_formed good_gyro_well_formed).
  discriminate.
Defined.

Lemma mask_select_sublist (mask : list bool) (vs : list Q) : sublist (mask_select mask vs) vs.
Proof.
  revert vs. induction mask as [|b m IH]; intros vs.
  - destruct vs; apply sublist_nil_l.
  - destruct vs as [|v r]; simpl; [constructor|].
    destruct b; [apply sublist_skip | apply sublist_cons]; apply IH.
Qed.

Lemma length_mask_select (mask : list bool) (vs : list Q) :
  length vs = length mask ->
  length (mask_select mask vs) = length (List.filter (fun b : bool => b) mask).
Proof.
  revert vs. induction mask as [|b m IH]; intros [|v r] H; simpl in *; try discriminate; auto.
  destruct b; simpl; auto.
Qed.

(** X5. Trimming keeps the frame a frame: the column names and their order
    stay, all columns keep one common length, no row is added, and every
    trimmed column is the original column with some rows left out (nothing
    reordered, nothing changed). *)
Theorem trim_keeps_shape (trim_seconds : Q) (df : DataFrame) (time : list Q) :
  wf_frame df -> get_col "Time" df = Ok time ->
  exists df_trim, trim trim_seconds df = Ok df_trim /\
    columns df_trim = columns df /\ wf_frame df_trim /\
    (n_rows df_trim <= n_rows df)%nat /\
    Forall2 (fun cv' cv => sublist (snd cv') (snd cv)) df_trim df.
Proof.
  intros Hwf Htime. unfold trim. rewrite Htime. simpl.
  set (mask := trim_mask trim_seconds time).
  exists (select_rows mask df). split; [reflexivity|].
  assert (Hsub : Forall2 (fun cv' cv => sublist (snd cv') (snd cv)) (select_rows mask df) df).
  { unfold select_rows. clear. induction df as [|cv rest IH]; simpl; constructor; auto.
    simpl. apply mask_select_sublist. }
  assert (Hall : Forall (fun cv => length (snd cv)
                                   = length (List.filter (fun b : bool => b) mask))
                   (select_rows mask df)).
  { unfold select_rows. apply Forall_forall. intros cv Hcv.
    apply list_elem_of_In, in_map_iff in Hcv. destruct Hcv as (cv0 & <- & Hin). simpl.
    apply length_mask_select. unfold mask. rewrite length_trim_mask.
    rewrite (get_col_length _ _ _ Hwf Htime).
    unfold wf_frame in Hwf. rewrite Forall_forall in Hwf. apply Hwf, list_elem_of_In, Hin. }
  split; [unfold select_rows, columns; rewrite map_map; reflexivity|].
  split; [apply (same_lengths_wf _ _ Hall)|]. split; [|exact Hsub].
  destruct Hsub as [|[c' vs'] [c vs] ? ? Hhd _]; simpl; [lia|].
  apply sublist_length, Hhd.
Qed.

Lemma trim_keeps_shape_witness :
  exists df_trim, trim 1 good_merged = Ok df_trim /\
    columns df_trim = columns good_merged /\ wf_frame df_trim /\
    (n_rows df_trim <= n_rows good_merged)%nat /\
    Forall2 (fun cv' cv => sublist (snd cv') (snd cv)) df_trim good_merged.
Proof. apply (trim_keeps_shape 1 good_merged [0; 1; 2; 3] good_merged_wf eq_refl). Defined.

Lemma mask_select_none (mask : list bool) (vs : list Q) :
  Forall (fun b => b = false) mask -> mask_select mask vs = [].
Proof.
  revert vs. induction mask as [|b m IH]; intros [|v r] Hall; simpl; auto.
  inversion Hall as [|? ? Hb Hm]; subst. apply IH, Hm.
Qed.

Lemma short_trim_mask (s : Q) (time : list Q) (t_min t_max : Q) :
  is_minimum t_min time -> is_maximum t_max time -> fl (t_max - s) < fl (t_min + s) ->
  Forall (fun b => b = false) (trim_mask s time).
Proof.
  intros Hmin Hmax Hcross.
  rewrite (trim_mask_window s time t_min t_max Hmin Hmax).
  apply Forall_forall. intros b Hb.
  apply list_elem_of_In, in_map_iff in Hb. destruct Hb as (t & <- & Ht).
  unfold in_window.
  destruct (Qle_bool_reflect (fl (t_min + s)) t), (Qle_bool_reflect t (fl (t_max - s)));
    simpl; try reflexivity; exfalso; lra.
Qed.

(** X6. A trial so short that the upper bound of the trim, [t_max] minus
    the margin, lies below its lower bound, [t_min] plus the margin (both
    as the code computes them), is left without any row by the trim; with
    the margin of one second of the scripts, [process_and_plot] then
    returns [None] for it and neither saves a figure nor prints. *)
Theorem short_trial_trims_to_nothing (sqrt : Q -> Q) (df : DataFrame) (time : list Q)
    (t_min t_max : Q) (filename : string) (tr : list event) :
  get_col "Time" df = Ok time -> is_minimum t_min time -> is_maximum t_max time ->
  (forall trim_seconds, fl (t_max - trim_seconds) < fl (t_min + trim_seconds) ->
     exists df_trim, trim trim_seconds df = Ok df_trim /\ empty_frame df_trim = true /\
       Forall (fun cv => snd cv = []) df_trim) /\
  (fl (t_max - TRIM_SECONDS) < fl (t_min + TRIM_SECONDS) ->
   Basic.process_and_plot sqrt df filename tr = (Ok None, tr)).
Proof.
  intros Htime Hmin Hmax.
  assert (Hgen : forall s, fl (t_max - s) < fl (t_min + s) ->
            trim s df = Ok (select_rows (trim_mask s time) df) /\
            empty_frame (select_rows (trim_mask s time) df) = true /\
            Forall (fun cv => snd cv = []) (select_rows (trim_mask s time) df)).
  { intros s Hs. split; [unfold trim; rewrite Htime; reflexivity|].
    pose proof (short_trim_mask s time t_min t_max Hmin Hmax Hs) as Hmask.
    assert (Hall : Forall (fun cv => snd cv = []) (select_rows (trim_mask s time) df)).
    { unfold select_rows. apply Forall_forall. intros cv Hcv.
      apply list_elem_of_In, in_map_iff in Hcv. destruct Hcv as (cv0 & <- & _). simpl.
      apply mask_select_none, Hmask. }
    split; [|exact Hall].
    destruct (select_rows (trim_mask s time) df) as [|[c vs] rest]; [reflexivity|].
    pose proof (List.Forall_inv Hall) as Hvs. simpl in Hvs. subst vs. reflexivity. }
  split.
  - intros s Hs. eexists. apply Hgen, Hs.
  - intros Hs. destruct (Hgen TRIM_SECONDS Hs) as (Htrim & Hempty & _).
    apply (basic_empty_after_trim sqrt df _ filename tr Htrim Hempty).
Qed.

Lemma short_merged_times :
  is_minimum 0 [0; 1 # 2; 1] /\ is_maximum 1 [0; 1 # 2; 1].
Proof.
  split; (split; [simpl; auto|]);
    intros t [<- | [<- | [<- | []]]]; apply Qle_bool_imp_le; reflexivity.
Defined.

Lemma short_trial_trims_to_nothing_witness :
  Basic.process_and_plot (fun q => q)
    [("Time", [0; 1 # 2; 1]); ("Acceleration x (m/s^2)", [0; 0; 0])] "bump1" []
  = (Ok None, []).
Proof.
  destruct (short_trial_trims_to_nothing (fun q => q)
              [("Time", [0; 1 # 2; 1]); ("Acceleration x (m/s^2)", [0; 0; 0])]
              [0; 1 # 2; 1] 0 1 "bump1" [] eq_refl
              (proj1 short_merged_times) (proj2 short_merged_times)) as [_ H].
  apply H. reflexivity.
Defined.

(** ** More on the integrator *)

Lemma first_match_none (pat : string) (df : DataFrame) :
  List.filter (contains pat) (columns df) = [] -> first_match pat df = Raise IndexError.
Proof. intros H. unfold first_match. rewrite H. reflexivity. Qed.

(** X8. What the two analyses do with a table from the loader, in the order
    the code looks things up: without a column matching the channel
    pattern they raise [IndexError]; with such a column but no row they
    raise [ValueError]; with rows they return curves of the length of the
    time axis. *)
Theorem analysis_outcomes (df : DataFrame) (bias : gmap string Q) (time : list Q) :
  wf_frame df -> get_col "Time" df = Ok time ->
  (List.filter (contains "Acceleration y") (columns df) = [] ->
     Advanced.drift_curves df bias = Raise IndexError) /\
  (List.filter (contains "Gyroscope z") (columns df) = [] ->
     Advanced.heading_curve df bias = Raise IndexError) /\
  (forall c, first_match "Acceleration y" df = Ok c -> time = [] ->
     Advanced.drift_curves df bias = Raise ValueError) /\
  (forall c, first_match "Gyroscope z" df = Ok c -> time = [] ->
     Advanced.heading_curve df bias = Raise ValueError) /\
  (forall c, first_match "Acceleration y" df = Ok c -> time <> [] ->
     exists cv, Advanced.drift_curves df bias = Ok cv /\
       length (Advanced.vel_raw cv) = length time /\
       length (Advanced.vel_corr cv) = length time) /\
  (forall c, first_match "Gyroscope z" df = Ok c -> time <> [] ->
     exists h, Advanced.heading_curve df bias = Ok h /\
       length (Advanced.angle_rad h) = length time /\
       length (Advanced.angle_deg h) = length time).
Proof.
  intros Hwf Htime.
  assert (Hempty : forall c v, get_col c df = Ok v -> time = [] -> v = []).
  { intros c v Hv ->. pose proof (same_length _ _ _ _ _ Hwf Htime Hv) as Hl.
    destruct v; [reflexivity | discriminate]. }
  split; [|split; [|split; [|split; [|split]]]].
  - intros H. unfold Advanced.drift_curves. rewrite (first_match_none _ _ H). reflexivity.
  - intros H. unfold Advanced.heading_curve. rewrite (first_match_none _ _ H). reflexivity.
  - intros c Hfm Ht. destruct (first_match_get_col _ _ _ Hfm) as [v Hv].
    unfold Advanced.drift_curves. rewrite Hfm. simpl. rewrite Htime. simpl. rewrite Hv. simpl.
    rewrite (Hempty c v Hv Ht). reflexivity.
  - intros c Hfm Ht. destruct (first_match_get_col _ _ _ Hfm) as [v Hv].
    unfold Advanced.heading_curve. rewrite Hfm. simpl. rewrite Htime. simpl. rewrite Hv. simpl.
    rewrite (Hempty c v Hv Ht). reflexivity.
  - intros c Hfm Hne. destruct (first_match_get_col _ _ _ Hfm) as [v Hv].
    destruct (drift_curves_rule df bias time c v Hwf Htime Hne Hfm Hv)
      as (cv & Hcv & _ & (Hl & _) & (Hl' & _)).
    exists cv. split; [exact Hcv|]. rewrite Hl, Hl', length_map.
    rewrite (same_length _ _ _ _ _ Hwf Htime Hv). auto.
  - intros c Hfm Hne. destruct (first_match_get_col _ _ _ Hfm) as [v Hv].
    destruct (heading_curve_rule df bias time c v Hwf Htime Hne Hfm Hv)
      as (h & Hh & _ & (Hl & _)).
    assert (Hdeg : length (Advanced.angle_deg h) = length (Advanced.angle_rad h)).
    { unfold Advanced.heading_curve in Hh. rewrite Hfm in Hh. simpl in Hh.
      rewrite Htime in Hh. simpl in Hh. rewrite Hv in Hh. simpl in Hh.
      destruct (cumulative_trapezoid _ time); simpl in Hh; [|discriminate].
      injection Hh as <-. simpl. apply length_map. }
    exists h. split; [exact Hh|]. rewrite Hdeg, Hl, length_map.
    rewrite (same_length _ _ _ _ _ Hwf Htime Hv). auto.
Qed.

Lemma analysis_outcomes_witness :
  Advanced.drift_curves short_trimmed ∅ = Raise ValueError /\
  Advanced.heading_curve [("Time", [1; 2]); ("Acceleration y (m/s^2)", [1; 1])] ∅
  = Raise IndexError.
Proof.
  split.
  - destruct (analysis_outcomes short_trimmed ∅ [] ltac:(repeat constructor) eq_refl)
      as (_ & _ & H & _).
    apply (H "Acceleration y (m/s^2)"); reflexivity.
  - destruct (analysis_outcomes [("Time", [1; 2]); ("Acceleration y (m/s^2)", [1; 1])] ∅
                [1; 2] ltac:(repeat constructor) eq_refl) as (_ & H & _).
    apply H. reflexivity.
Defined.

(** ** The router of advanced_analysis.py *)

Lemma figures_app (a b : list event) : figures (a ++ b) = (figures a ++ figures b)%list.
Proof.
  induction a as [|[msg | file | file] a IH]; simpl; [reflexivity | exact IH | | exact IH].
  rewrite IH. reflexivity.
Qed.

Lemma process_file_trace (bias : gmap string Q) (f : string) (wb : Workbook)
    (tr tr' : list event) (res : result unit) :
  Advanced.process_file bias (f, wb) tr = (res, tr') ->
  exists evs, tr' = (tr ++ evs)%list /\
    (contains "stationary" (lower f) = true -> evs = [] /\ res = Ok tt) /\
    (figures evs = [] \/
     (figures evs = [lower f ++ "_Drift_Compare.png"] /\
      contains "stationary" (lower f) = false /\
      contains "straight" (lower f) || contains "reverse" (lower f) = true) \/
     (figures evs = [lower f ++ "_Heading.png"] /\
      contains "stationary" (lower f) = false /\
      contains "straight" (lower f) || contains "reverse" (lower f) = false /\
      contains "lane" (lower f) = true)).
Proof.
  unfold Advanced.process_file. cbv zeta.
  change (fst (f, wb)) with f. change (snd (f, wb)) with wb.
  destruct (contains "stationary" (lower f)) eqn:Hs.
  - intros [= <- <-]. exists []. rewrite app_nil_r. auto.
  - unfold bind at 1. unfold Advanced.load_phyphox_xls, try_except, bind, lift, emit, ret.
    destruct (merge_sheets wb) as [df_merged | e].
    2:{ intros [= <- <-]. eexists. split; [reflexivity|].
        split; [discriminate | left; reflexivity]. }
    destruct (trim TRIM_SECONDS df_merged) as [df | e].
    2:{ intros [= <- <-]. eexists. split; [reflexivity|].
        split; [discriminate | left; reflexivity]. }
    destruct (contains "straight" (lower f) || contains "reverse" (lower f)) eqn:Hd.
    + unfold Advanced.analyze_drift, bind, lift, emit.
      destruct (Advanced.drift_curves df bias) as [cv | e]; intros [= <- <-].
      * exists [SaveFig (lower f ++ "_Drift_Compare.png");
                Printed ("  > Generated Velocity plot for " ++ lower f)].
        rewrite <- app_assoc. split; [reflexivity|]. split; [discriminate|].
        right. left. auto.
      * exists []. rewrite app_nil_r. split; [reflexivity|].
        split; [discriminate | left; reflexivity].
    + destruct (contains "lane" (lower f)) eqn:Hl.
      * unfold Advanced.analyze_heading, bind, lift, emit.
        destruct (Advanced.heading_curve df bias) as [h | e]; intros [= <- <-].
        -- exists [SaveFig (lower f ++ "_Heading.png");
                   Printed ("  > Generated Heading plot for " ++ lower f)].
           rewrite <- app_assoc. split; [reflexivity|]. split; [discriminate|].
           right. right. auto.
        -- exists []. rewrite app_nil_r. split; [reflexivity|].
           split; [discriminate | left; reflexivity].
      * intros [= <- <-]. exists []. rewrite app_nil_r. split; [reflexivity|].
        split; [discriminate | left; reflexivity].
Qed.

(** X9. One turn of the main loop only adds to the trace.  A trial whose
    lowercased name contains stationary adds nothing and is not even
    loaded; any other trial saves at most one figure, named after the
    lowercased stem: the drift comparison when the name contains straight
    or reverse (also when it contains lane as well), the heading only when
    it contains lane and neither of the two. *)
Theorem process_file_routes (bias : gmap string Q) (f : string) (wb : Workbook)
    (tr tr' : list event) (res : result unit) :
  Advanced.process_file bias (f, wb) tr = (res, tr') ->
  exists evs, tr' = (tr ++ evs)%list /\
    (contains "stationary" (lower f) = true -> evs = [] /\ res = Ok tt) /\
    (figures evs = [] \/
     (figures evs = [lower f ++ "_Drift_Compare.png"] /\
      contains "stationary" (lower f) = false /\
      contains "straight" (lower f) || contains "reverse" (lower f) = true) \/
     (figures evs = [lower f ++ "_Heading.png"] /\
      contains "stationary" (lower f) = false /\
      contains "straight" (lower f) || contains "reverse" (lower f) = false /\
      contains "lane" (lower f) = true)).
Proof. apply process_file_trace. Qed.

Lemma process_file_routes_witness :
  exists evs,
    snd (Advanced.process_file ∅ ("Straight_Lane1", good_wb) []) = ([] ++ evs)%list /\
    figures evs = [lower "Straight_Lane1" ++ "_Drift_Compare.png"].
Proof.
  destruct (process_file_routes ∅ "Straight_Lane1" good_wb []
              (snd (Advanced.process_file ∅ ("Straight_Lane1", good_wb) []))
              (fst (Advanced.process_file ∅ ("Straight_Lane1", good_wb) [])))
    as (evs & Htr & _ & Hfig).
  - apply surjective_pairing.
  - exists evs. split; [exact Htr|].
    destruct Hfig as [Hfig | [[Hfig _] | [_ [_ [Hfig _]]]]]; [| exact Hfig | discriminate Hfig].
    exfalso. revert Hfig. assert (E : evs = snd (Advanced.process_file ∅ ("Straight_Lane1", good_wb) [])) by exact (eq_sym Htr).
    rewrite E. discriminate.
Defined.

Lemma for_each_figures (bias : gmap string Q) (files : list (string * Workbook))
    (tr tr' : list event) (res : result unit) :
  for_each files (Advanced.process_file bias) tr = (res, tr') ->
  exists evs, tr' = (tr ++ evs)%list /\
    (length (figures evs) <= length files)%nat /\
    Forall (fun fig => exists f, In f (map fst files) /\
              contains "stationary" (lower f) = false /\
              (fig = lower f ++ "_Drift_Compare.png" \/ fig = lower f ++ "_Heading.png"))
      (figures evs).
Proof.
  revert tr tr' res. induction files as [|[f wb] rest IH]; intros tr tr' res; simpl.
  - intros [= <- <-]. exists []. rewrite app_nil_r. simpl. auto.
  - unfold bind.
    destruct (Advanced.process_file bias (f, wb) tr) as [r tr1] eqn:E.
    destruct (process_file_trace bias f wb tr tr1 r E) as (evs1 & -> & _ & Hfig).
    assert (H1 : (length (figures evs1) <= 1)%nat /\
                 Forall (fun fig => exists f0, In f0 (f :: map fst rest) /\
                           contains "stationary" (lower f0) = false /\
                           (fig = lower f0 ++ "_Drift_Compare.png"
                            \/ fig = lower f0 ++ "_Heading.png"))
                   (figures evs1)).
    { destruct Hfig as [-> | [(-> & Hs & _) | (-> & Hs & _)]]; simpl.
      - split; [lia | constructor].
      - split; [lia|]. repeat constructor. exists f. auto.
      - split; [lia|]. repeat constructor. exists f. auto. }
    destruct H1 as [Hlen1 Hall1].
    destruct r as [[] | e].
    + intros Hrest. destruct (IH _ _ _ Hrest) as (evs2 & -> & Hlen2 & Hall2).
      exists (evs1 ++ evs2)%list. rewrite app_assoc. split; [reflexivity|].
      rewrite figures_app, length_app. split; [lia|].
      apply Forall_app. split; [exact Hall1|].
      eapply Forall_impl; [exact Hall2|]. intros fig (f0 & Hin & Hrest0).
      exists f0. split; [right; exact Hin | exact Hrest0].
    + intros [= <- <-]. exists evs1. split; [reflexivity|]. split; [lia | exact Hall1].
Qed.

(** X10. Whatever the batch and however it ends, every figure the main
    loop of advanced_analysis.py saves is the drift comparison or the
    heading of a listed trial that is not a stationary one, under its
    lowercased stem, and there are no more figures than trials. *)
Theorem batch_figures (bias : gmap string Q) (files : list (string * Workbook))
    (tr' : list event) (res : result unit) :
  Advanced.main_loop bias files [] = (res, tr') ->
  (length (figures tr') <= length files)%nat /\
  Forall (fun fig => exists f, In f (map fst files) /\
            contains "stationary" (lower f) = false /\
            (fig = lower f ++ "_Drift_Compare.png" \/ fig = lower f ++ "_Heading.png"))
    (figures tr').
Proof.
  unfold Advanced.main_loop, bind.
  destruct (for_each files (Advanced.process_file bias) []) as [r tr1] eqn:E.
  destruct (for_each_figures bias files [] tr1 r E) as (evs & -> & Hlen & Hall).
  simpl in *. destruct r as [[] | e]; unfold emit; intros [= <- <-].
  - rewrite figures_app. simpl. rewrite app_nil_r. auto.
  - auto.
Qed.

Lemma batch_figures_witness :
  (length (figures (snd (Advanced.main_loop ∅
                           [("stationary", good_wb); ("Lane2", good_wb)] []))) <= 2)%nat.
Proof.
  apply (batch_figures ∅ [("stationary", good_wb); ("Lane2", good_wb)]
           (snd (Advanced.main_loop ∅ [("stationary", good_wb); ("Lane2", good_wb)] []))
           (fst (Advanced.main_loop ∅ [("stationary", good_wb); ("Lane2", good_wb)] []))).
  apply surjective_pairing.
Defined.

(** ** The calibration pass *)

Lemma filter_none {A : Type} (p : A -> bool) (l : list A) :
  (forall x, In x l -> p x = false) -> List.filter p l = [].
Proof.
  induction l as [|x l IH]; simpl; intros H; [reflexivity|].
  rewrite (H x (or_introl eq_refl)). apply IH. intros y Hy. apply H. right. exact Hy.
Qed.

Lemma filter_first {A : Type} (p : A -> bool) (pre post : list A) (x : A) :
  (forall y, In y pre -> p y = false) -> p x = true ->
  List.filter p (pre ++ x :: post) = x :: List.filter p post.
Proof.
  intros Hpre Hx. rewrite List.filter_app, (filter_none p pre Hpre). simpl.
  rewrite Hx. reflexivity.
Qed.

(** X11. Without a spreadsheet whose lowercased name contains stationary,
    the calibration loads nothing, prints its warning and returns the empty
    bias table. *)
Theorem calibration_without_stationary (listing : list (string * Workbook))
    (tr : list event) :
  (forall f wb, In (f, wb) listing -> is_stationary_file f = false) ->
  get_calibration_bias listing tr
  = (Ok (Bias ∅),
     (tr ++ [Printed "WARNING: 'stationary.xls' not found! Using 0 bias (Correction will fail)."])%list).
Proof.
  intros H. unfold get_calibration_bias.
  rewrite (filter_none (fun f => is_stationary_file (fst f)) listing); [reflexivity|].
  intros [f wb] Hin. exact (H f wb Hin).
Qed.

Lemma calibration_without_stationary_witness :
  get_calibration_bias [("straight1.xlsx", good_wb); ("stationary.txt", good_wb)] []
  = (Ok (Bias ∅),
     [Printed "WARNING: 'stationary.xls' not found! Using 0 bias (Correction will fail)."]).
Proof.
  apply (calibration_without_stationary
           [("straight1.xlsx", good_wb); ("stationary.txt", good_wb)] []).
  intros f wb [[= <- <-] | [[= <- <-] | []]]; reflexivity.
Defined.

Lemma bias_loop_entries (cols : DataFrame) (bias0 : gmap string cell) (tr : list event) :
  NoDup (columns cols) ->
  exists bias tr', bias_loop cols bias0 tr = (Ok bias, tr') /\
    (forall c vs, In (c, vs) cols -> contains "Time" c = false ->
       bias !! c = Some (series_mean vs)) /\
    (forall c, ~ In c (columns cols) \/ contains "Time" c = true -> bias !! c = bias0 !! c).
Proof.
  revert bias0 tr. induction cols as [|[col vs] rest IH]; intros bias0 tr Hnd; simpl.
  - exists bias0, tr. split; [reflexivity|]. split; [intros c vs [] | reflexivity].
  - inversion Hnd as [|? ? Hnotin Hnd']; subst. rewrite list_elem_of_In in Hnotin.
    destruct (contains "Time" col) eqn:Ecol.
    + destruct (IH bias0 tr Hnd') as (bias & tr' & Hrun & Hin & Hout).
      exists bias, tr'. split; [exact Hrun|]. split.
      * intros c vs' [[= -> ->] | Hc] Hct; [congruence | apply Hin; assumption].
      * intros c [Hc | Hc]; apply Hout; [left; tauto | right; exact Hc].
    + unfold bind, emit.
      destruct (IH (<[col := series_mean vs]> bias0)
                  (tr ++ [Printed ("  > " ++ col ++ " Bias")])%list Hnd')
        as (bias & tr' & Hrun & Hin & Hout).
      exists bias, tr'. split; [exact Hrun|]. split.
      * intros c vs' [[= -> ->] | Hc] Hct.
        -- rewrite Hout by (left; exact Hnotin). apply lookup_insert_eq.
        -- apply Hin; assumption.
      * intros c Hc. rewrite Hout by (destruct Hc; [left; tauto | right; assumption]).
        apply lookup_insert_ne. intros ->. destruct Hc as [Hc | Hc]; [tauto | congruence].
Qed.

(** X12. The calibration uses the first stationary spreadsheet of the
    listing.  When it loads, the bias table has one entry for every column
    of the trimmed table whose name does not contain Time, and no other:
    the arithmetic mean of the column (the number that, times the number of
    rows, is the sum of the column), or NaN when the trimmed table has no
    row. *)
Theorem calibration_bias_is_column_mean (pre post : list (string * Workbook))
    (f : string) (wb : Workbook) (df_merged df : DataFrame) (tr : list event) :
  (forall g wb', In (g, wb') pre -> is_stationary_file g = false) ->
  is_stationary_file f = true ->
  merge_sheets wb = Ok df_merged -> trim TRIM_SECONDS df_merged = Ok df ->
  NoDup (columns df) ->
  exists bias tr',
    get_calibration_bias (pre ++ (f, wb) :: post) tr = (Ok (Bias bias), tr') /\
    (forall c vs, In (c, vs) df -> contains "Time" c = false ->
       (vs <> [] -> exists m, bias !! c = Some (Num m) /\ is_mean m vs) /\
       (vs = [] -> bias !! c = Some NaN)) /\
    (forall c, bias !! c <> None -> In c (columns df) /\ contains "Time" c = false).
Proof.
  intros Hpre Hf Hmerge Htrim Hnd. unfold get_calibration_bias.
  rewrite (filter_first (fun g => is_stationary_file (fst g)) pre post (f, wb));
    [|intros [g wb'] Hin; exact (Hpre g wb' Hin) | exact Hf].
  unfold bind at 1. unfold emit at 1. unfold bind at 1.
  unfold Advanced.load_phyphox_xls, try_except, bind, lift, ret.
  rewrite Hmerge, Htrim.
  destruct (bias_loop_entries df ∅
              (tr ++ [Printed ("Calibrating with: " ++ f ++ "...")])%list Hnd)
    as (bias & tr' & Hrun & Hin & Hout).
  exists bias, tr'. rewrite Hrun. split; [reflexivity|]. split.
  - intros c vs Hc Hct. rewrite (Hin c vs Hc Hct). split.
    + intros Hne. exists (Qsum vs / count vs).
      split; [destruct vs; [congruence | reflexivity] | apply mean_is_mean, Hne].
    + intros ->. reflexivity.
  - intros c Hc. destruct (contains "Time" c) eqn:Ect.
    + exfalso. apply Hc. rewrite Hout by (right; exact Ect). apply lookup_empty.
    + split; [|reflexivity].
      destruct (in_dec string_dec c (columns df)) as [Hi | Hi]; [exact Hi | exfalso].
      apply Hc. rewrite Hout by (left; exact Hi). apply lookup_empty.
Qed.

Lemma good_trimmed_names : NoDup (columns good_trimmed).
Proof. distinct_names. Defined.

Lemma calibration_bias_is_column_mean_witness :
  exists bias tr',
    get_calibration_bias [("notes.txt", good_wb); ("Stationary.xlsx", good_wb)] []
    = (Ok (Bias bias), tr') /\
    (exists m, bias !! "Gyroscope z (rad/s)" = Some (Num m) /\ m == 5 # 2) /\
    bias !! "Time" = None.
Proof.
  destruct (calibration_bias_is_column_mean [("notes.txt", good_wb)] [] "Stationary.xlsx"
              good_wb good_merged good_trimmed [])
    as (bias & tr' & Hrun & Hin & Hout).
  - intros g wb' [[= <- <-] | []]. reflexivity.
  - reflexivity.
  - reflexivity.
  - reflexivity.
  - exact good_trimmed_names.
  - exists bias, tr'. split; [exact Hrun|]. split.
    + destruct (Hin "Gyroscope z (rad/s)" [2; 3]) as [Hmean _]; [simpl; auto 8 | reflexivity |].
      destruct Hmean as (m & Hm & _ & Hv); [discriminate|].
      exists m. split; [exact Hm|].
      change (m * 2 == 2 + (3 + 0)) in Hv. lra.
    + destruct (bias !! "Time") eqn:E; [exfalso | reflexivity].
      destruct (Hout "Time") as [_ H]; [rewrite E; discriminate | discriminate H].
Defined.

(** X13. When the first stationary spreadsheet does not load, the
    calibration does not fall back to an empty table: after the line of the
    loader it ends on the [AttributeError] of [df.columns], whatever other
    spreadsheets follow. *)
Theorem calibration_load_failure (pre post : list (string * Workbook))
    (f : string) (wb : Workbook) (e : exn) (tr : list event) :
  (forall g wb', In (g, wb') pre -> is_stationary_file g = false) ->
  is_stationary_file f = true ->
  merge_sheets wb = Raise e ->
  get_calibration_bias (pre ++ (f, wb) :: post) tr
  = (Ok AttributeError,
     (tr ++ [Printed ("Calibrating with: " ++ f ++ "...");
             Printed ("Error loading " ++ ("Datasets/" ++ f))])%list).
Proof.
  intros Hpre Hf Hmerge. unfold get_calibration_bias.
  rewrite (filter_first (fun g => is_stationary_file (fst g)) pre post (f, wb));
    [|intros [g wb'] Hin; exact (Hpre g wb' Hin) | exact Hf].
  unfold bind at 1. unfold emit at 1. unfold bind at 1.
  unfold Advanced.load_phyphox_xls, try_except, bind, lift, emit, ret.
  rewrite Hmerge. rewrite <- app_assoc. reflexivity.
Qed.

Lemma calibration_load_failure_witness :
  get_calibration_bias
    [("stationary.xls", {| Accelerometer := None; Gyroscope := Some good_gyro |});
     ("stationary2.xls", good_wb)] []
  = (Ok AttributeError,
     [Printed "Calibrating with: stationary.xls...";
      Printed "Error loading Datasets/stationary.xls"]).
Proof.
  apply (calibration_load_failure [] [("stationary2.xls", good_wb)] "stationary.xls"
           {| Accelerometer := None; Gyroscope := Some good_gyro |} ReadError []).
  - intros g wb' [].
  - reflexivity.
  - reflexivity.
Defined.

(** ** More on [process_and_plot] and the main loop of basic_analysis.py *)

Lemma dict_set_fresh (k : string) (v : cell) (d : list (string * cell)) :
  ~ In k (map fst d) -> Basic.dict_set k v d = (d ++ [(k, v)])%list.
Proof.
  induction d as [|[k' v'] rest IH]; simpl; intros Hnin; [reflexivity|].
  destruct (String.eqb_spec k' k) as [-> | _]; [tauto|].
  rewrite IH by tauto. reflexivity.
Qed.

Lemma calc_stats_appends (sqrt : Q -> Q) (cols : DataFrame) (stats : list (string * cell)) :
  NoDup (columns cols) ->
  (forall c, In c (columns cols) ->
     ~ In (c ++ "_Mean") (map fst stats) /\ ~ In (c ++ "_Std") (map fst stats)) ->
  Basic.calc_stats sqrt cols stats = (stats ++ flat_map (channel_entries sqrt) cols)%list.
Proof.
  revert stats. induction cols as [|[col vs] rest IH]; intros stats Hnd Hfresh; simpl.
  - rewrite app_nil_r. reflexivity.
  - inversion Hnd as [|? ? Hnotin Hnd']; subst. rewrite list_elem_of_In in Hnotin.
    unfold channel_entries at 1. simpl fst. simpl snd.
    destruct (String.eqb col "Time").
    + apply IH; [exact Hnd'|]. intros c Hc. apply Hfresh. right. exact Hc.
    + destruct (Hfresh col (or_introl eq_refl)) as [Hm Hs].
      rewrite (dict_set_fresh (col ++ "_Mean")) by exact Hm.
      rewrite (dict_set_fresh (col ++ "_Std")).
      2:{ rewrite map_app, in_app_iff. simpl. intros [H | [H | []]]; [tauto|].
          exact (mean_key_not_std_key _ _ H). }
      rewrite IH; [rewrite <- !app_assoc; reflexivity | exact Hnd' |].
      intros c Hc. destruct (Hfresh c (or_intror Hc)) as [Hcm Hcs].
      assert (Hne : c <> col) by (intros ->; tauto).
      rewrite !map_app, !in_app_iff. simpl. split.
      * intros [[H | [H | []]] | [H | []]]; [tauto | |].
        -- apply suffix_inj in H. congruence.
        -- symmetry in H. exact (mean_key_not_std_key _ _ H).
      * intros [[H | [H | []]] | [H | []]]; [tauto | |].
        -- exact (mean_key_not_std_key _ _ H).
        -- apply suffix_inj in H. congruence.
Qed.

(** X14. For a trial with rows left after the trim and all six axes, the
    record of [process_and_plot] carries the file name and then, channel
    after channel in the order of the table's columns, the mean and the
    standard deviation of the channel under the keys with the suffixes
    _Mean and _Std, and no entry for the time column; two figures are
    saved, the accelerometer's first. *)
Theorem stats_record_layout (sqrt : Q -> Q) (df df_trim : DataFrame) (filename : string)
    (tr : list event) :
  trim TRIM_SECONDS df = Ok df_trim -> empty_frame df_trim = false ->
  has_axes "Acceleration" df_trim -> has_axes "Gyroscope" df_trim ->
  NoDup (columns df_trim) ->
  Basic.process_and_plot sqrt df filename tr
  = (Ok (Some {| Basic.Filename := filename;
                 Basic.fields := flat_map (channel_entries sqrt) df_trim |}),
     (tr ++ [SaveFig (filename ++ "_Acc.png"); SaveFig (filename ++ "_Gyro.png")])%list).
Proof.
  intros Htrim Hempty Hacc Hgyro Hnd.
  rewrite (process_and_plot_run sqrt df df_trim filename tr Htrim Hempty Hacc Hgyro).
  rewrite (calc_stats_appends sqrt df_trim [] Hnd); [reflexivity|].
  intros c _. simpl. tauto.
Qed.

Lemma stats_record_layout_witness :
  Basic.process_and_plot (fun q => q) single_merged "bump1" []
  = (Ok (Some {| Basic.Filename := "bump1";
                 Basic.fields := flat_map (channel_entries (fun q => q)) single_trimmed |}),
     [SaveFig "bump1_Acc.png"; SaveFig "bump1_Gyro.png"]).
Proof.
  apply (stats_record_layout (fun q => q) single_merged single_trimmed "bump1" []).
  - reflexivity.
  - reflexivity.
  - apply single_trimmed_axes. now left.
  - apply single_trimmed_axes. now right.
  - distinct_names.
Defined.

Lemma first_match_cases (pat : string) (df : DataFrame) :
  (exists c, first_match pat df = Ok c) \/
  (List.filter (contains pat) (columns df) = [] /\ first_match pat df = Raise IndexError).
Proof.
  unfold first_match. destruct (List.filter (contains pat) (columns df)); eauto.
Qed.

Lemma plot_triaxial_outcome (sensor suffix : string) (df_trim : DataFrame)
    (filename : string) (tr : list event) :
  (has_axes sensor df_trim /\
   Basic.plot_triaxial sensor suffix df_trim filename tr
   = (Ok tt, (tr ++ [SaveFig (filename ++ suffix)])%list)) \/
  (axis_missing sensor df_trim /\
   Basic.plot_triaxial sensor suffix df_trim filename tr = (Raise IndexError, tr)).
Proof.
  unfold Basic.plot_triaxial, has_axes, axis_missing, bind, lift, emit.
  destruct (first_match_cases (sensor ++ " x") df_trim) as [[cx Hx] | [Hx Hx']].
  2:{ right. rewrite Hx'. auto. }
  destruct (first_match_cases (sensor ++ " y") df_trim) as [[cy Hy] | [Hy Hy']].
  2:{ right. rewrite Hx, Hy'. auto. }
  destruct (first_match_cases (sensor ++ " z") df_trim) as [[cz Hz] | [Hz Hz']].
  2:{ right. rewrite Hx, Hy, Hz'. auto. }
  left. rewrite Hx, Hy, Hz. eauto 10.
Qed.

(** X15. On a trial with rows left after the trim, a missing accelerometer
    axis makes [process_and_plot] raise [IndexError] before anything is
    saved; a missing gyroscope axis makes it raise [IndexError] after the
    accelerometer figure has been saved.  In neither case is there a
    record. *)
Theorem process_and_plot_missing_axis (sqrt : Q -> Q) (df df_trim : DataFrame)
    (filename : string) (tr : list event) :
  trim TRIM_SECONDS df = Ok df_trim -> empty_frame df_trim = false ->
  (axis_missing "Acceleration" df_trim ->
     Basic.process_and_plot sqrt df filename tr = (Raise IndexError, tr)) /\
  (has_axes "Acceleration" df_trim -> axis_missing "Gyroscope" df_trim ->
     Basic.process_and_plot sqrt df filename tr
     = (Raise IndexError, (tr ++ [SaveFig (filename ++ "_Acc.png")])%list)).
Proof.
  intros Htrim Hempty.
  assert (Hexcl : forall sensor, has_axes sensor df_trim -> axis_missing sensor df_trim -> False).
  { intros sensor ((cx & Hx) & (cy & Hy) & (cz & Hz)) [H | [H | H]];
      apply first_match_none in H; congruence. }
  assert (Hunfold : Basic.process_and_plot sqrt df filename tr
            = bind (Basic.plot_triaxial "Acceleration" "_Acc.png" df_trim filename)
                (fun _ => bind (Basic.plot_triaxial "Gyroscope" "_Gyro.png" df_trim filename)
                   (fun _ => ret (Some {| Basic.Filename := filename;
                                          Basic.fields := Basic.calc_stats sqrt df_trim [] |})))
                tr).
  { unfold Basic.process_and_plot, bind at 1, lift at 1. rewrite Htrim, Hempty. reflexivity. }
  rewrite Hunfold. clear Hunfold. split.
  - intros Hmiss. unfold bind at 1.
    destruct (plot_triaxial_outcome "Acceleration" "_Acc.png" df_trim filename tr)
      as [[Hhas _] | [_ E]]; [destruct (Hexcl _ Hhas Hmiss)|].
    rewrite E. reflexivity.
  - intros Hhas Hmiss. unfold bind at 1.
    destruct (plot_triaxial_outcome "Acceleration" "_Acc.png" df_trim filename tr)
      as [[_ E] | [Hm _]]; [|destruct (Hexcl _ Hhas Hm)].
    rewrite E. unfold bind at 1.
    destruct (plot_triaxial_outcome "Gyroscope" "_Gyro.png" df_trim filename
                (tr ++ [SaveFig (filename ++ "_Acc.png")])%list)
      as [[Hg _] | [_ E']]; [destruct (Hexcl _ Hg Hmiss)|].
    rewrite E'. reflexivity.
Qed.

Lemma process_and_plot_missing_axis_witness :
  Basic.process_and_plot (fun q => q)
    [("Time", [0; 1; 2]); ("Acceleration x", [0; 0; 0]); ("Acceleration y", [0; 0; 0]);
     ("Acceleration z", [0; 0; 0]); ("Gyroscope x", [0; 0; 0])] "bump1" []
  = (Raise IndexError, [SaveFig "bump1_Acc.png"]).
Proof.
  destruct (process_and_plot_missing_axis (fun q => q)
    [("Time", [0; 1; 2]); ("Acceleration x", [0; 0; 0]); ("Acceleration y", [0; 0; 0]);
     ("Acceleration z", [0; 0; 0]); ("Gyroscope x", [0; 0; 0])]
    [("Time", [1]); ("Acceleration x", [0]); ("Acceleration y", [0]);
     ("Acceleration z", [0]); ("Gyroscope x", [0])] "bump1" [] eq_refl eq_refl) as [_ H].
  apply H.
  - repeat split; eexists; reflexivity.
  - right. left. reflexivity.
Defined.

Lemma process_and_plot_filename (sqrt : Q -> Q) (df : DataFrame) (fname : string)
    (tr tr' : list event) (r : Basic.StatRecord) :
  Basic.process_and_plot sqrt df fname tr = (Ok (Some r), tr') -> Basic.Filename r = fname.
Proof.
  unfold Basic.process_and_plot, bind at 1, lift at 1.
  destruct (trim TRIM_SECONDS df) as [df_trim | e]; [|discriminate].
  destruct (empty_frame df_trim); [discriminate|].
  unfold bind at 1.
  destruct (plot_triaxial_outcome "Acceleration" "_Acc.png" df_trim fname tr)
    as [[_ E] | [_ E]]; rewrite E; [|discriminate].
  unfold bind at 1.
  destruct (plot_triaxial_outcome "Gyroscope" "_Gyro.png" df_trim fname
              (tr ++ [SaveFig (fname ++ "_Acc.png")])%list)
    as [[_ E'] | [_ E']]; rewrite E'; [|discriminate].
  unfold ret. intros [= <- _]. reflexivity.
Qed.

Lemma process_files_names (sqrt : Q -> Q) (files : list (string * Workbook))
    (all_stats stats : list Basic.StatRecord) (tr tr' : list event) :
  Basic.process_files sqrt files all_stats tr = (Ok stats, tr') ->
  exists names, map Basic.Filename stats = (map Basic.Filename all_stats ++ names)%list /\
    sublist names (map fst files).
Proof.
  revert all_stats tr. induction files as [|[fname wb] rest IH]; intros all_stats tr; simpl.
  - intros [= <- _]. exists []. rewrite app_nil_r. split; [reflexivity | constructor].
  - unfold bind at 1.
    unfold Basic.load_phyphox_xls, try_except, bind at 1, lift, emit, ret.
    destruct (merge_sheets wb) as [df | e].
    + unfold bind at 1.
      destruct (Basic.process_and_plot sqrt df fname tr) as [[[r|] | e] tr1] eqn:E.
      * unfold bind at 1, emit. intros Hrest.
        destruct (IH _ _ Hrest) as (names & Hnames & Hsub).
        exists (fname :: names). split.
        -- rewrite Hnames, map_app. simpl.
           rewrite (process_and_plot_filename _ _ _ _ _ _ E), <- app_assoc. reflexivity.
        -- apply sublist_skip, Hsub.
      * intros Hrest. destruct (IH _ _ Hrest) as (names & Hnames & Hsub).
        exists names. split; [exact Hnames | apply sublist_cons, Hsub].
      * discriminate.
    + intros Hrest. destruct (IH _ _ Hrest) as (names & Hnames & Hsub).
      exists names. split; [exact Hnames | apply sublist_cons, Hsub].
Qed.

(** X16. When the main loop of basic_analysis.py completes, the records it
    has collected are named after listed files, each file at most once and
    in the order of the listing. *)
Theorem collected_records_follow_listing (sqrt : Q -> Q) (files : list (string * Workbook))
    (stats : list Basic.StatRecord) (tr' : list event) :
  Basic.process_files sqrt files [] [] = (Ok stats, tr') ->
  sublist (map Basic.Filename stats) (map fst files).
Proof.
  intros H. destruct (process_files_names sqrt files [] stats [] tr' H) as (names & -> & Hsub).
  exact Hsub.
Qed.

Lemma collected_records_follow_listing_witness :
  exists stats tr',
    Basic.process_files (fun q => q) [("short", short_wb); ("bump1", good_wb)] [] []
    = (Ok stats, tr') /\
    sublist (map Basic.Filename stats) ["short"; "bump1"].
Proof.
  eexists. eexists. split; [reflexivity|].
  apply (collected_records_follow_listing (fun q => q)
           [("short", short_wb); ("bump1", good_wb)] _ _ eq_refl).
Defined.

Lemma process_files_all_fail (sqrt : Q -> Q) (files : list (string * Workbook))
    (all_stats : list Basic.StatRecord) (tr : list event) :
  (forall f wb, In (f, wb) files -> exists e, merge_sheets wb = Raise e) ->
  Basic.process_files sqrt files all_stats tr
  = (Ok all_stats, (tr ++ map (fun f => Printed ("Error reading " ++ fst f)) files)%list).
Proof.
  revert tr. induction files as [|[f wb] rest IH]; intros tr H.
  - simpl. rewrite app_nil_r. reflexivity.
  - destruct (H f wb (or_introl eq_refl)) as [e He].
    rewrite (basic_load_failure_skipped sqrt f wb e rest all_stats tr He).
    rewrite IH by (intros g wb' Hin; apply (H g wb'); right; exact Hin).
    rewrite <- app_assoc. reflexivity.
Qed.

(** X17. When no spreadsheet of the listing loads, basic_analysis.py prints
    one error line per file, writes no report, and still ends on its
    closing line. *)
Theorem basic_main_nothing_loads (sqrt : Q -> Q) (files : list (string * Workbook)) :
  (forall f wb, In (f, wb) files -> exists e, merge_sheets wb = Raise e) ->
  Basic.main sqrt files []
  = (Ok None,
     (map (fun f => Printed ("Error reading " ++ fst f)) files
      ++ [Printed "Done! Report saved as 'Output_Basic/Basic_Statistics.xlsx'."])%list).
Proof.
  intros H. unfold Basic.main, bind at 1.
  rewrite (process_files_all_fail sqrt files [] [] H). reflexivity.
Qed.

Lemma basic_main_nothing_loads_witness :
  Basic.main (fun q => q)
    [("bump1", {| Accelerometer := None; Gyroscope := Some good_gyro |})] []
  = (Ok None,
     [Printed "Error reading bump1";
      Printed "Done! Report saved as 'Output_Basic/Basic_Statistics.xlsx'."]).
Proof.
  apply (basic_main_nothing_loads (fun q => q)
           [("bump1", {| Accelerometer := None; Gyroscope := Some good_gyro |})]).
  intros f wb [[= <- <-] | []]. exists ReadError. reflexivity.
Defined.

(** ** More on the report *)

Lemma length_insert_key (g : string) (keys : list string) :
  (length (Basic.insert_key g keys) <= S (length keys))%nat.
Proof.
  induction keys as [|h rest IH]; simpl; [lia|].
  destruct (String.compare g h); simpl; lia.
Qed.

Lemma length_group_keys (groups : list string) :
  (length (Basic.group_keys groups) <= length groups)%nat.
Proof.
  induction groups as [|g rest IH]; simpl; [lia|].
  pose proof (length_insert_key g (Basic.group_keys rest)). lia.
Qed.

Lemma str_lt_irrefl (a : string) : ~ str_lt a a.
Proof. unfold str_lt. rewrite compare_refl. discriminate. Qed.

Lemma sorted_NoDup (l : list string) : StronglySorted str_lt l -> NoDup l.
Proof.
  induction 1 as [|a l Hs IH Hall]; constructor; [|exact IH].
  rewrite list_elem_of_In. intros Hin.
  rewrite Forall_forall in Hall. apply (str_lt_irrefl a), Hall, list_elem_of_In, Hin.
Qed.

(** X18. The report of a non-empty list of records is a rectangular table:
    under a header of Filename and the columns, every row has one cell per
    column; there is one row per trial plus one per group, the groups being
    at least one and at most as many as the trials, and no two average rows
    have the same name. *)
Theorem report_is_rectangular (stats_list : list Basic.StatRecord) :
  stats_list <> [] ->
  exists report keys, Basic.save_formatted_excel stats_list = Some report /\
    Basic.header report = "Filename" :: Basic.frame_columns stats_list /\
    Forall (fun row => S (length (snd row)) = length (Basic.header report))
      (Basic.rows report) /\
    length (Basic.rows report) = (length stats_list + length keys)%nat /\
    (1 <= length keys <= length stats_list)%nat /\
    map fst (skipn (length stats_list) (Basic.rows report))
    = map (fun g => g ++ "_avg") keys /\
    NoDup (map (fun g => g ++ "_avg") keys).
Proof.
  intros Hne. eexists.
  exists (Basic.group_keys (map (fun r => Basic.group_of (Basic.Filename r)) stats_list)).
  split; [apply save_formatted_excel_rows, Hne|]. simpl.
  split; [reflexivity|]. split; [|split; [|split; [|split]]].
  - apply Forall_app. split; apply Forall_forall; intros row Hrow;
      apply list_elem_of_In, in_map_iff in Hrow; destruct Hrow as (x & <- & _);
      simpl; rewrite length_map; reflexivity.
  - rewrite length_app, !length_map. reflexivity.
  - split.
    + destruct stats_list as [|r rest]; [congruence|].
      assert (Hin : In (Basic.group_of (Basic.Filename r))
                      (Basic.group_keys
                         (map (fun r => Basic.group_of (Basic.Filename r)) (r :: rest)))).
      { apply In_group_keys. now left. }
      destruct (Basic.group_keys _); [destruct Hin | simpl; lia].
    + pose proof (length_group_keys
                    (map (fun r => Basic.group_of (Basic.Filename r)) stats_list)) as H.
      rewrite length_map in H. exact H.
  - rewrite skipn_app, skipn_all2 by (rewrite length_map; lia).
    rewrite length_map, Nat.sub_diag, skipn_O, app_nil_l, map_map. reflexivity.
  - apply (NoDup_fmap_2_strong (fun g => g ++ "_avg")).
    + intros a b _ _ Hab. exact (suffix_inj a b "_avg" Hab).
    + apply sorted_NoDup, group_keys_sorted.
Qed.

Lemma report_is_rectangular_witness :
  exists report (keys : list string),
    Basic.save_formatted_excel [straight1; bump1; bump2] = Some report /\
    length (Basic.rows report) = (3 + length keys)%nat /\
    (1 <= length keys <= 3)%nat.
Proof.
  destruct (report_is_rectangular [straight1; bump1; bump2])
    as (report & keys & Hs & _ & _ & Hlen & Hk & _); [discriminate|].
  exists report, keys. auto.
Defined.

Lemma In_dedup (x : string) (l : list string) : In x (Basic.dedup l) <-> In x l.
Proof.
  induction l as [|y l IH]; simpl; [reflexivity|].
  rewrite filter_In, IH, negb_true_iff, String.eqb_neq.
  destruct (string_dec y x) as [-> | Hne]; intuition.
Qed.

Lemma NoDup_dedup (l : list string) : NoDup (Basic.dedup l).
Proof.
  induction l as [|y l IH]; simpl; constructor.
  - rewrite list_elem_of_In, filter_In, negb_true_iff, String.eqb_neq. tauto.
  - apply NoDup_ListNoDup, List.NoDup_filter, NoDup_ListNoDup, IH.
Qed.

Lemma dict_get_In (k : string) (v : cell) (d : list (string * cell)) :
  Basic.dict_get k d = Some v -> In k (map fst d).
Proof.
  induction d as [|[k' v'] rest IH]; simpl; [discriminate|].
  destruct (String.eqb_spec k' k) as [-> | _]; auto.
Qed.

(** X19. No entry of a record is lost on the way to the report.  The
    header of the report is Filename followed by pairwise distinct columns;
    the i-th row of the report is the row of the i-th record: it starts
    with the record's file name, holds under each key of the record the
    value the record has for it (so every key is a column of the header),
    and NaN under the columns the record has no key for. *)
Theorem report_keeps_entries (stats_list : list Basic.StatRecord) :
  stats_list <> [] ->
  exists report, Basic.save_formatted_excel stats_list = Some report /\
    nth_error (Basic.header report) 0 = Some "Filename" /\
    NoDup (tl (Basic.header report)) /\
    forall i r, nth_error stats_list i = Some r ->
      exists cells, nth_error (Basic.rows report) i = Some (Basic.Filename r, cells) /\
        (forall k v, Basic.dict_get k (Basic.fields r) = Some v ->
           exists j, nth_error (Basic.header report) (S j) = Some k /\
             nth_error cells j = Some v) /\
        (forall j k, nth_error (Basic.header report) (S j) = Some k ->
           Basic.dict_get k (Basic.fields r) = None -> nth_error cells j = Some NaN).
Proof.
  intros Hne. eexists. split; [apply save_formatted_excel_rows, Hne|]. simpl.
  split; [reflexivity|]. split; [apply NoDup_dedup|].
  intros i r Hi. exists (snd (Basic.raw_row (Basic.frame_columns stats_list) r)). split.
  - rewrite nth_error_app1.
    + rewrite (map_nth_error _ _ _ Hi). reflexivity.
    + rewrite length_map. apply nth_error_Some. rewrite Hi. discriminate.
  - split.
    + intros k v Hk.
      assert (Hin : In k (Basic.frame_columns stats_list)).
      { apply In_dedup, in_concat. exists (map fst (Basic.fields r)).
        split; [|exact (dict_get_In _ _ _ Hk)].
        apply in_map_iff. exists r. split; [reflexivity | exact (nth_error_In _ _ Hi)]. }
      destruct (In_nth_error _ _ Hin) as [j Hj]. exists j. split; [exact Hj|].
      simpl. rewrite (map_nth_error _ _ _ Hj). unfold Basic.field. rewrite Hk. reflexivity.
    + intros j k Hj Hk. simpl. rewrite (map_nth_error _ _ _ Hj).
      unfold Basic.field. rewrite Hk. reflexivity.
Qed.

Lemma report_keeps_entries_witness :
  exists report cells j,
    Basic.save_formatted_excel [straight1; bump1] = Some report /\
    nth_error (Basic.rows report) 1 = Some ("bump1", cells) /\
    nth_error (Basic.header report) (S j) = Some "Acceleration x_Mean" /\
    nth_error cells j = Some (Num 2).
Proof.
  destruct (report_keeps_entries [straight1; bump1]) as (report & Hs & _ & _ & H);
    [discriminate|].
  destruct (H 1%nat bump1 eq_refl) as (cells & Hrow & Hk & _).
  destruct (Hk "Acceleration x_Mean" (Num 2) eq_refl) as (j & Hj & Hv).
  exists report, cells, j. auto.
Defined.

Lemma alpha_prefix_app (p rest : string) :
  all_alpha p = true -> head_alpha rest = false -> Basic.alpha_prefix (p ++ rest) = p.
Proof.
  intros Hp Hrest. induction p as [|c p IH].
  - rewrite app_empty. destruct rest as [|d rest]; [reflexivity|].
    simpl in *. rewrite Hrest. reflexivity.
  - simpl in Hp. apply andb_true_iff in Hp. destruct Hp as [Hc Hp].
    rewrite app_cons. simpl. rewrite Hc, (IH Hp). reflexivity.
Qed.

Lemma group_of_letters (x : string) :
  all_alpha (Basic.group_of x) = true /\ Basic.group_of x <> "".
Proof.
  unfold Basic.group_of. destruct (alpha_prefix_split x) as (rest & _ & Hall & _).
  destruct (Basic.alpha_prefix x); [split; [reflexivity | discriminate]|].
  split; [exact Hall | discriminate].
Qed.

Lemma group_of_app (p rest : string) :
  all_alpha p = true -> p <> "" -> head_alpha rest = false -> Basic.group_of (p ++ rest) = p.
Proof.
  intros Hp Hne Hrest. unfold Basic.group_of. rewrite (alpha_prefix_app p rest Hp Hrest).
  destruct p; [congruence | reflexivity].
Qed.

Lemma append_empty_r (s : string) : s ++ "" = s.
Proof. induction s as [|c s IH]; [reflexivity|]. rewrite app_cons, IH. reflexivity. Qed.

(** X20. A group key is a non-empty run of letters, so it is its own group,
    and so is the name of its average row: a name made of a group key and
    anything that does not start with a letter, as the suffix _avg or a
    trial number, falls into that group. *)
Theorem group_of_group (x rest : string) :
  head_alpha rest = false ->
  Basic.group_of (Basic.group_of x ++ rest) = Basic.group_of x /\
  Basic.group_of (Basic.group_of x) = Basic.group_of x /\
  Basic.group_of (Basic.group_of x ++ "_avg") = Basic.group_of x.
Proof.
  intros Hrest. destruct (group_of_letters x) as [Hall Hne].
  split; [|split].
  - apply group_of_app; assumption.
  - rewrite <- (append_empty_r (Basic.group_of x)) at 1. apply group_of_app; auto.
  - apply group_of_app; auto.
Qed.

Lemma group_of_group_witness :
  Basic.group_of (Basic.group_of "bump12" ++ "7") = Basic.group_of "bump12" /\
  Basic.group_of (Basic.group_of "12" ++ "_avg") = "Other".
Proof.
  split.
  - exact (proj1 (group_of_group "bump12" "7" eq_refl)).
  - exact (proj2 (proj2 (group_of_group "12" "" eq_refl))).
Defined.

Lemma sorted_unique (l1 l2 : list string) :
  StronglySorted str_lt l1 -> StronglySorted str_lt l2 ->
  (forall x, In x l1 <-> In x l2) -> l1 = l2.
Proof.
  intros H1. revert l2. induction H1 as [|a l1 Hs1 IH Hall1]; intros l2 H2 Hiff.
  - destruct l2 as [|b l2]; [reflexivity|]. destruct (proj2 (Hiff b) (or_introl eq_refl)).
  - destruct H2 as [|b l2 Hs2 Hall2]; [destruct (proj1 (Hiff a) (or_introl eq_refl))|].
    rewrite Forall_forall in Hall1, Hall2.
    assert (Hab : a = b).
    { destruct (proj1 (Hiff a) (or_introl eq_refl)) as [Hb | Hb]; [auto|].
      destruct (proj2 (Hiff b) (or_introl eq_refl)) as [Ha | Ha]; [auto|].
      exfalso. apply (str_lt_irrefl a).
      apply str_lt_trans with b; [apply Hall1 | apply Hall2]; apply list_elem_of_In; assumption. }
    subst b. f_equal. apply IH; [exact Hs2|].
    intros x. split; intros Hx.
    + destruct (proj1 (Hiff x) (or_intror Hx)) as [<- | Hx']; [|exact Hx'].
      exfalso. apply (str_lt_irrefl a), Hall1, list_elem_of_In, Hx.
    + destruct (proj2 (Hiff x) (or_intror Hx)) as [<- | Hx']; [|exact Hx'].
      exfalso. apply (str_lt_irrefl a), Hall2, list_elem_of_In, Hx.
Qed.

(** X21. The average rows do not depend on the order in which the trials
    were processed: two lists of records that are permutations of each
    other give reports with the same average row names in the same order,
    after their own raw rows. *)
Theorem average_rows_ignore_order (stats_list stats_list' : list Basic.StatRecord) :
  stats_list <> [] -> Permutation stats_list stats_list' ->
  exists report report' keys,
    Basic.save_formatted_excel stats_list = Some report /\
    Basic.save_formatted_excel stats_list' = Some report' /\
    map fst (Basic.rows report)
    = (map Basic.Filename stats_list ++ map (fun g => (g ++ "_avg")%string) keys)%list /\
    map fst (Basic.rows report')
    = (map Basic.Filename stats_list' ++ map (fun g => (g ++ "_avg")%string) keys)%list.
Proof.
  intros Hne Hperm.
  assert (Hne' : stats_list' <> []).
  { intros ->. apply Permutation_nil_r in Hperm. contradiction. }
  assert (Hkeys : Basic.group_keys (map (fun r => Basic.group_of (Basic.Filename r)) stats_list')
                  = Basic.group_keys (map (fun r => Basic.group_of (Basic.Filename r)) stats_list)).
  { apply sorted_unique; try apply group_keys_sorted.
    intros x. rewrite !In_group_keys, !in_map_iff.
    split; intros (r & Hr & Hin); exists r; (split; [exact Hr|]).
    - apply list_elem_of_In. rewrite Hperm. apply list_elem_of_In, Hin.
    - apply list_elem_of_In. rewrite <- Hperm. apply list_elem_of_In, Hin. }
  eexists. eexists.
  exists (Basic.group_keys (map (fun r => Basic.group_of (Basic.Filename r)) stats_list)).
  split; [apply save_formatted_excel_rows, Hne|].
  split; [apply save_formatted_excel_rows, Hne'|].
  simpl. rewrite Hkeys, !map_app, !map_map. split; reflexivity.
Qed.

Lemma average_rows_ignore_order_witness :
  exists report report' keys,
    Basic.save_formatted_excel [straight1; bump1] = Some report /\
    Basic.save_formatted_excel [bump1; straight1] = Some report' /\
    map fst (Basic.rows report)
    = (["straight1"; "bump1"] ++ map (fun g => (g ++ "_avg")%string) keys)%list /\
    map fst (Basic.rows report')
    = (["bump1"; "straight1"] ++ map (fun g => (g ++ "_avg")%string) keys)%list.
Proof.
  apply (average_rows_ignore_order [straight1; bump1] [bump1; straight1]).
  - discriminate.
  - apply perm_swap.
Defined.

Lemma contains_suffix (pat s : string) : contains pat (s ++ pat) = true.
Proof.
  apply contains_iff. exists s, "". rewrite append_empty_r. reflexivity.
Qed.

(** X22. The highlighting of the sheet goes by the name in the first
    column: every average row is highlighted, and a raw row is highlighted
    exactly when the name of its trial contains _avg. *)
Theorem highlighted_rows (stats_list : list Basic.StatRecord) :
  stats_list <> [] ->
  exists report, Basic.save_formatted_excel stats_list = Some report /\
    firstn (length stats_list) (styled_rows report)
    = map (fun r => contains "_avg" (Basic.Filename r)) stats_list /\
    Forall (fun b => b = true) (skipn (length stats_list) (styled_rows report)).
Proof.
  intros Hne. eexists. split; [apply save_formatted_excel_rows, Hne|].
  unfold styled_rows. simpl. rewrite map_app, !map_map. split.
  - rewrite firstn_app, length_map, Nat.sub_diag. simpl. rewrite app_nil_r.
    rewrite firstn_all2 by (rewrite length_map; lia). reflexivity.
  - rewrite skipn_app, skipn_all2 by (rewrite length_map; lia).
    rewrite length_map, Nat.sub_diag, skipn_O, app_nil_l.
    apply Forall_forall. intros b Hb. apply list_elem_of_In, in_map_iff in Hb.
    destruct Hb as (g & <- & _). unfold is_avg_row. simpl. apply contains_suffix.
Qed.

Lemma highlighted_rows_witness :
  exists report, Basic.save_formatted_excel [straight1; bump1] = Some report /\
    styled_rows report = [false; false; true; true].
Proof.
  destruct (highlighted_rows [straight1; bump1]) as (report & Hs & _ & _); [discriminate|].
  exists report. split; [exact Hs|].
  revert Hs. intros [= <-]. reflexivity.
Defined.

(** ** The loader's failures and the listing *)

Lemma loaders_on_failure (filepath : string) (wb : Workbook) (e : exn) (tr : list event) :
  merge_sheets wb = Raise e ->
  Basic.load_phyphox_xls filepath wb tr
  = (Ok None, (tr ++ [Printed ("Error reading " ++ filepath)])%list) /\
  Advanced.load_phyphox_xls filepath wb tr
  = (Ok None, (tr ++ [Printed ("Error loading " ++ filepath)])%list).
Proof.
  intros H. unfold Basic.load_phyphox_xls, Advanced.load_phyphox_xls,
    try_except, bind, lift, emit, ret. rewrite H. split; reflexivity.
Qed.

Lemma merge_gyro_empty_axis (acc_time : list Q) (gyro_cols df_merged : DataFrame) :
  (exists c fp, In (c, fp) gyro_cols /\ c <> "Time") ->
  merge_gyro acc_time [] gyro_cols df_merged = Raise ValueError.
Proof.
  induction gyro_cols as [|[col vs] rest IH]; intros (c & fp & Hin & Hc); [destruct Hin|].
  simpl. destruct (String.eqb_spec col "Time") as [-> | Hcol].
  - apply IH. destruct Hin as [[= <- <-] | Hin]; [congruence | eauto].
  - reflexivity.
Qed.

(** X23. Neither loader ever raises: each either returns the table without
    printing, or prints one line and returns [None].  It is [None] when a
    sheet is missing ([ReadError]), when a sheet has no column whose name
    contains Time ([IndexError]), and when the gyroscope sheet has a
    channel but no row ([ValueError] of the interpolation). *)
Theorem loader_never_raises (filepath : string) (wb : Workbook) (tr : list event) :
  ((exists df, Basic.load_phyphox_xls filepath wb tr = (Ok (Some df), tr)) \/
   Basic.load_phyphox_xls filepath wb tr
   = (Ok None, (tr ++ [Printed ("Error reading " ++ filepath)])%list)) /\
  ((exists df, Advanced.load_phyphox_xls filepath wb tr = (Ok (Some df), tr)) \/
   Advanced.load_phyphox_xls filepath wb tr
   = (Ok None, (tr ++ [Printed ("Error loading " ++ filepath)])%list)) /\
  (sheet_missing wb -> merge_sheets wb = Raise ReadError) /\
  (time_column_missing wb -> merge_sheets wb = Raise IndexError) /\
  (forall df_acc df_gyro acc_t gyro_t acc_time c fp,
     Accelerometer wb = Some df_acc -> Gyroscope wb = Some df_gyro ->
     well_formed_sheet df_acc acc_t acc_time -> well_formed_sheet df_gyro gyro_t [] ->
     In (c, fp) df_gyro -> c <> gyro_t ->
     merge_sheets wb = Raise ValueError) /\
  (forall e, merge_sheets wb = Raise e ->
     Basic.load_phyphox_xls filepath wb tr
     = (Ok None, (tr ++ [Printed ("Error reading " ++ filepath)])%list) /\
     Advanced.load_phyphox_xls filepath wb tr
     = (Ok None, (tr ++ [Printed ("Error loading " ++ filepath)])%list)).
Proof.
  split; [|split; [|split; [|split; [|split]]]].
  - unfold Basic.load_phyphox_xls, try_except, bind, lift, emit, ret.
    destruct (merge_sheets wb); eauto.
  - unfold Advanced.load_phyphox_xls, try_except, bind, lift, emit, ret.
    destruct (merge_sheets wb) as [df|]; [|auto].
    destruct (trim TRIM_SECONDS df); eauto.
  - unfold merge_sheets. intros [H | H]; rewrite H; simpl; [reflexivity|].
    destruct (Accelerometer wb); reflexivity.
  - intros (df_acc & df_gyro & Ha & Hg & H). unfold merge_sheets. rewrite Ha, Hg. simpl.
    destruct H as [H | H].
    + rewrite (first_match_none _ _ H). reflexivity.
    + rewrite (first_match_none _ _ H).
      destruct (first_match_cases "Time" df_acc) as [[c ->] | [_ ->]]; reflexivity.
  - intros df_acc df_gyro acc_t gyro_t acc_time c fp Ha Hg Hwa Hwg Hin Hc.
    rewrite (merge_sheets_unfold wb df_acc df_gyro acc_t gyro_t acc_time [] Ha Hg Hwa Hwg).
    apply merge_gyro_empty_axis. exists c, fp. split; [apply In_rename; assumption|].
    destruct Hwg as (_ & _ & Hfg & _). intros ->.
    assert (Hcol : In "Time" (columns df_gyro)) by (apply in_map_iff; exists ("Time", fp); auto).
    pose proof (only_time_column _ _ _ Hfg Hcol Hc). discriminate.
  - intros e He. apply loaders_on_failure with e. exact He.
Qed.

Lemma loader_never_raises_witness :
  Advanced.load_phyphox_xls "Datasets/lane1.xlsx"
    {| Accelerometer := Some [("t", [0; 1]); ("Acceleration y", [1; 1])];
       Gyroscope := Some good_gyro |} []
  = (Ok None, [Printed "Error loading Datasets/lane1.xlsx"]).
Proof.
  destruct (loader_never_raises "Datasets/lane1.xlsx"
              {| Accelerometer := Some [("t", [0; 1]); ("Acceleration y", [1; 1])];
                 Gyroscope := Some good_gyro |} [])
    as (_ & _ & _ & Htime & _ & Hload).
  apply (Hload IndexError). apply Htime.
  eexists. eexists. split; [reflexivity|]. split; [reflexivity|]. left. reflexivity.
Defined.

Lemma is_excel_ext (stem ext : string) :
  ext = "xls" \/ ext = "xlsx" -> is_excel (stem ++ String "." ext) = true.
Proof.
  unfold is_excel. intros [-> | ->]; apply orb_true_iff; [left | right];
    apply ends_with_iff; exists stem; reflexivity.
Qed.

(** X24. Both main programs see of the data folder the spreadsheets only,
    each under its stem: a listed file stem.xls or stem.xlsx, whose stem is
    not made of dots, is processed as stem, and everything processed comes
    from a listed file with one of the two extensions, in listing order. *)
Theorem excel_files_stems (listing : list (string * Workbook)) :
  (forall stem ext wb, ext = "xls" \/ ext = "xlsx" ->
     In (stem ++ String "." ext, wb) listing -> all_dots stem = false ->
     In (stem, wb) (excel_files listing)) /\
  (forall n wb, In (n, wb) (excel_files listing) ->
     exists f, In (f, wb) listing /\ is_excel f = true /\ n = splitext_root f) /\
  sublist (map snd (excel_files listing)) (map snd listing).
Proof.
  unfold excel_files. split; [|split].
  - intros stem ext wb Hext Hin Hstem. apply in_map_iff.
    exists (stem ++ String "." ext, wb). split.
    + simpl. unfold splitext_root. rewrite before_last_dot_ext, Hstem; [reflexivity|].
      destruct Hext as [-> | ->]; reflexivity.
    + apply filter_In. split; [exact Hin | apply is_excel_ext, Hext].
  - intros n wb Hin. apply in_map_iff in Hin. destruct Hin as ([f wb'] & [= <- <-] & Hf).
    apply filter_In in Hf. destruct Hf as [Hin Hx]. exists f. auto.
  - induction listing as [|[f wb] rest IH]; simpl; [constructor|].
    destruct (is_excel f); simpl; [apply sublist_skip | apply sublist_cons]; exact IH.
Qed.

Lemma excel_files_stems_witness :
  In ("Lane.1", good_wb) (excel_files [("notes.txt", good_wb); ("Lane.1.xlsx", good_wb)]).
Proof.
  destruct (excel_files_stems [("notes.txt", good_wb); ("Lane.1.xlsx", good_wb)]) as [H _].
  apply (H "Lane.1" "xlsx" good_wb); [now right | simpl; auto | reflexivity].
Defined.

(** ** The timestamps that survive the trim *)

Lemma get_col_select_rows (c : string) (mask : list bool) (df : DataFrame) (vs : list Q) :
  get_col c df = Ok vs -> get_col c (select_rows mask df) = Ok (mask_select mask vs).
Proof.
  induction df as [|[c' vs'] rest IH]; simpl; [discriminate|].
  destruct (String.eqb c' c); [intros [= ->]; reflexivity | exact IH].
Qed.

Lemma mask_select_filter (p : Q -> bool) (l : list Q) :
  mask_select (map p l) l = List.filter p l.
Proof.
  induction l as [|x l IH]; simpl; [reflexivity|].
  destruct (p x); rewrite IH; reflexivity.
Qed.

(** X25. The time column of a trimmed table holds, in their order, exactly
    the timestamps [t] of the table with [t_min + trim_seconds <= t] and
    [t <= t_max - trim_seconds], the two bounds rounded as the code
    computes them; the row of the smallest timestamp is dropped whenever
    the lower bound is above it, and the row of the largest whenever the
    upper bound is below it. *)
Theorem trimmed_times_within_margins (trim_seconds : Q) (df : DataFrame) (time : list Q)
    (t_min t_max : Q) :
  get_col "Time" df = Ok time -> is_minimum t_min time -> is_maximum t_max time ->
  exists df_trim time', trim trim_seconds df = Ok df_trim /\
    get_col "Time" df_trim = Ok time' /\ sublist time' time /\
    (forall t, In t time' <->
       In t time /\ fl (t_min + trim_seconds) <= t /\ t <= fl (t_max - trim_seconds)) /\
    (t_min < fl (t_min + trim_seconds) -> ~ In t_min time') /\
    (fl (t_max - trim_seconds) < t_max -> ~ In t_max time').
Proof.
  intros Htime Hmin Hmax.
  assert (Hkept : forall t,
            In t (mask_select (trim_mask trim_seconds time) time) <->
            In t time /\ fl (t_min + trim_seconds) <= t /\ t <= fl (t_max - trim_seconds)).
  { intros t. rewrite (trim_mask_window trim_seconds time t_min t_max Hmin Hmax).
    rewrite mask_select_filter, filter_In. unfold in_window.
    rewrite andb_true_iff, !Qle_bool_iff. reflexivity. }
  exists (select_rows (trim_mask trim_seconds time) df),
         (mask_select (trim_mask trim_seconds time) time).
  split; [unfold trim; rewrite Htime; reflexivity|].
  split; [apply get_col_select_rows, Htime|].
  split; [apply mask_select_sublist|]. split; [exact Hkept|].
  split; intros Hpos Hin; apply Hkept in Hin; lra.
Qed.

Lemma trimmed_times_within_margins_witness :
  exists df_trim time', trim 1 good_merged = Ok df_trim /\
    get_col "Time" df_trim = Ok time' /\ time' = [1; 2] /\ ~ In 0 time' /\ ~ In 3 time'.
Proof.
  destruct (trimmed_times_within_margins 1 good_merged [0; 1; 2; 3] 0 3 eq_refl
              good_times_minimum good_times_maximum)
    as (df_trim & time' & Htrim & Hget & _ & _ & Hlo & Hhi).
  exists df_trim, time'. split; [exact Htrim|]. split; [exact Hget|]. split.
  - assert (E : trim 1 good_merged = Ok good_trimmed) by reflexivity.
    rewrite E in Htrim. injection Htrim as <-. injection Hget as <-. reflexivity.
  - split; [apply Hlo | apply Hhi]; reflexivity.
Defined.
